(** * Koinon RMS graph tooling: the C# scraper, the graph merger and the
      contract verifier, embedded from [tools/graph/*.py].

    Text is a sequence of characters with code points below 256; the
    character classes of Python's [re] module ([\s], [\w], [.]) and
    [str.lower] are written out for that range.  Python dictionaries keep
    insertion order and the scripts iterate them, so they are association
    lists here. *)

From Stdlib Require Import Ascii String DecimalString.
From Stdlib Require Import Bool Arith ZArith List Lia PeanoNat.
Import ListNotations.

Set Implicit Arguments.

(* ===================================================================== *)
(** * Text *)
(* ===================================================================== *)

Module Text.

Abbreviation str := (list ascii).

(** A Python string literal. *)
Definition txt (s : string) : str := list_ascii_of_string s.

Definition code (a : ascii) : nat := nat_of_ascii a.

Definition between (lo hi : nat) (a : ascii) : bool :=
  (lo <=? code a) && (code a <=? hi).

Definition is_upper_az (a : ascii) : bool := between 65 90 a.
Definition is_lower_az (a : ascii) : bool := between 97 122 a.
Definition is_digit (a : ascii) : bool := between 48 57 a.

(** [str.isspace] on one character, which is also [\s] of [re]:
    TAB..CR, FS..US, space, NEL and the no-break space. *)
Definition is_space (a : ascii) : bool :=
  between 9 13 a || between 28 32 a || (code a =? 133) || (code a =? 160).

(** [\w] of [re] on a [str] pattern: alphanumeric or underscore. *)
Definition is_word (a : ascii) : bool :=
  is_digit a || is_upper_az a || is_lower_az a || (code a =? 95)
  || (code a =? 170) || (code a =? 178) || (code a =? 179) || (code a =? 181)
  || (code a =? 185) || (code a =? 186) || between 188 190 a
  || between 192 214 a || between 216 246 a || between 248 255 a.

(** [str.lower] on one character below U+0100; Python's table goes on
    above that range, which no text here reaches. *)
Definition lower_char (a : ascii) : ascii :=
  if is_upper_az a || between 192 214 a || between 216 222 a
  then ascii_of_nat (code a + 32) else a.

(** [s.lower()] *)
Definition lower (s : str) : str := map lower_char s.

Definition ascii_eqb (a b : ascii) : bool := Ascii.eqb a b.

Fixpoint str_eqb (s t : str) : bool :=
  match s, t with
  | [], [] => true
  | a :: s', b :: t' => ascii_eqb a b && str_eqb s' t'
  | _, _ => false
  end.

(** [s.startswith(p)] *)
Fixpoint startswith (p s : str) : bool :=
  match p, s with
  | [], _ => true
  | a :: p', b :: s' => ascii_eqb a b && startswith p' s'
  | _ :: _, [] => false
  end.

(** [s.endswith(p)] *)
Definition endswith (p s : str) : bool :=
  (length p <=? length s) && str_eqb (skipn (length s - length p) s) p.

(** [p in s] for strings: [p] occurs in [s] as a substring. *)
Fixpoint contains (p s : str) : bool :=
  startswith p s ||
  match s with
  | [] => false
  | _ :: s' => contains p s'
  end.

(** [s[i:j]] for [0 <= i] and [0 <= j]. *)
Definition slice (s : str) (i j : nat) : str := firstn (j - i) (skipn i s).

(** [s.replace(old, new)] for a non-empty [old]: occurrences are replaced
    from the left and do not overlap.  [fuel] bounds the scan and is the
    length of [s] at the call. *)
Fixpoint replace_go (fuel : nat) (old new s : str) : str :=
  match fuel with
  | O => s
  | S fuel' =>
      match s with
      | [] => []
      | a :: s' =>
          if startswith old s
          then new ++ replace_go fuel' old new (skipn (length old) s)
          else a :: replace_go fuel' old new s'
      end
  end.

Definition replace (old new s : str) : str := replace_go (length s) old new s.

(** [s.lstrip(chars)], [s.rstrip(chars)] and [s.strip(chars)] with the set
    of characters given as a predicate. *)
Fixpoint lstrip_by (p : ascii -> bool) (s : str) : str :=
  match s with
  | a :: s' => if p a then lstrip_by p s' else s
  | [] => []
  end.

Definition rstrip_by (p : ascii -> bool) (s : str) : str :=
  rev (lstrip_by p (rev s)).

Definition strip_by (p : ascii -> bool) (s : str) : str :=
  rstrip_by p (lstrip_by p s).

(** [s.strip()] *)
Definition strip (s : str) : str := strip_by is_space s.

(** [s.strip("/")] *)
Definition strip_slash (s : str) : str := strip_by (ascii_eqb "/"%char) s.

(** [x in [s1, s2, ...]] for strings. *)
Definition str_in (x : str) (l : list str) : bool := existsb (str_eqb x) l.

Definition newline : ascii := ascii_of_nat 10.

(** [s.find(p)]: the lowest index at which [p] occurs in [s], or [-1]. *)
Fixpoint find_str (p s : str) : Z :=
  if startswith p s then 0%Z
  else
    match s with
    | [] => (-1)%Z
    | _ :: s' =>
        let i := find_str p s' in
        if (i <? 0)%Z then (-1)%Z else (i + 1)%Z
    end.

(** [s.split(sep)] for a separator of one character: one more piece than
    there are separators. *)
Fixpoint split_on (sep : ascii) (s : str) : list str :=
  match s with
  | [] => [[]]
  | a :: s' =>
      if ascii_eqb a sep then [] :: split_on sep s'
      else
        match split_on sep s' with
        | piece :: pieces => (a :: piece) :: pieces
        | [] => [[a]]
        end
  end.

(** [sep.join(pieces)] *)
Fixpoint join (sep : str) (pieces : list str) : str :=
  match pieces with
  | [] => []
  | [piece] => piece
  | piece :: pieces' => piece ++ sep ++ join sep pieces'
  end.

(** [c.isupper()] for one character below U+0100. *)
Definition isupper_char (a : ascii) : bool :=
  is_upper_az a || between 192 214 a || between 216 222 a.

(** [s.upper()] for a text of characters below 128. *)
Definition upper_char (a : ascii) : ascii :=
  if is_lower_az a then ascii_of_nat (code a - 32) else a.

Definition upper (s : str) : str := map upper_char s.

End Text.

Import Text.

(* ===================================================================== *)
(** * The part of Python's [re] the scripts use *)
(* ===================================================================== *)

Module Re.

(** Patterns.  [Cls p] is any one-character item: a literal, a class such
    as [[A-Z]], [\s], [\w] or [.].  [Star true r] is the greedy [r*],
    [Star false r] the lazy [r*?].  [Grp i r] is the capturing group
    numbered [i]. *)
Inductive regex : Type :=
| Eps
| Cls (p : ascii -> bool)
| Cat (r1 r2 : regex)
| Alt (r1 r2 : regex)
| Star (greedy : bool) (r : regex)
| Grp (i : nat) (r : regex).

(** [r?], [r+] and [r+?]. *)
Definition Opt (r : regex) : regex := Alt r Eps.
Definition Plus (greedy : bool) (r : regex) : regex := Cat r (Star greedy r).

(** One-character items. *)
Definition chr (c : ascii) : regex := Cls (ascii_eqb c).
Definition one_of (cs : string) : ascii -> bool :=
  fun a => existsb (ascii_eqb a) (txt cs).
Definition none_of (cs : string) : ascii -> bool :=
  fun a => negb (one_of cs a).
(** [.] matches anything but a newline. *)
Definition dot : ascii -> bool := fun a => negb (code a =? 10).
(** [\s], [[^\s(]] and [\w]. *)
Definition ws : regex := Cls is_space.
Definition word : regex := Cls is_word.

(** A literal string. *)
Fixpoint lit_str (s : str) : regex :=
  match s with
  | [] => Eps
  | a :: s' => Cat (chr a) (lit_str s')
  end.
Definition lit (s : string) : regex := lit_str (txt s).

(** Concatenation of several items. *)
Fixpoint seq (rs : list regex) : regex :=
  match rs with
  | [] => Eps
  | r :: rs' => Cat r (seq rs')
  end.

(** Captured groups: group number and captured text, latest first. *)
Definition caps := list (nat * str).

Fixpoint group_of (c : caps) (i : nat) : option str :=
  match c with
  | [] => None
  | (j, s) :: c' => if i =? j then Some s else group_of c' i
  end.

(** The loop of a repetition [r*] or [r*?], with the matcher of [r] as
    [body]: another iteration first for the greedy one, what follows the
    repetition first for the lazy one.  An iteration must consume input;
    [fuel] is the length of the input at the start of the loop, which no
    number of such iterations exceeds. *)
Definition star_loop (A : Type)
           (body : str -> caps -> (str -> caps -> option A) -> option A)
           (greedy : bool) (k : str -> caps -> option A)
  : nat -> str -> caps -> option A :=
  fix loop (fuel : nat) (s : str) (c : caps) {struct fuel} : option A :=
    match fuel with
    | O => k s c
    | S fuel' =>
        let again :=
          fun (_ : unit) =>
            body s c
              (fun s' c' =>
                 if length s' <? length s then loop fuel' s' c' else None) in
        if greedy then
          match again tt with
          | Some x => Some x
          | None => k s c
          end
        else
          match k s c with
          | Some x => Some x
          | None => again tt
          end
    end.

(** The backtracking matcher, in continuation-passing style: [rmatch r s c k]
    matches [r] at the head of [s] and hands the rest of the input and the
    groups to [k]; when [k] fails the next alternative is tried, in the
    order [re] tries them (left alternative first, greedy repetition
    longest first, lazy repetition shortest first). *)
Fixpoint rmatch (A : Type) (r : regex) (s : str) (c : caps)
         (k : str -> caps -> option A) {struct r} : option A :=
  match r with
  | Eps => k s c
  | Cls p =>
      match s with
      | a :: s' => if p a then k s' c else None
      | [] => None
      end
  | Cat r1 r2 => rmatch r1 s c (fun s' c' => rmatch r2 s' c' k)
  | Alt r1 r2 =>
      match rmatch r1 s c k with
      | Some x => Some x
      | None => rmatch r2 s c k
      end
  | Star greedy r1 =>
      star_loop (fun s' c' k' => rmatch r1 s' c' k') greedy k (length s) s c
  | Grp i r1 =>
      rmatch r1 s c
        (fun s' c' => k s' ((i, firstn (length s - length s') s) :: c'))
  end.

(** A match object: [m.start()], [m.end()] and the groups. *)
Record rmatch_obj : Type := MatchObj {
  m_start : nat;
  m_end : nat;
  m_caps : caps
}.

(** [m.group(i)]; a group that took no part in the match is [None]. *)
Definition group (m : rmatch_obj) (i : nat) : option str := group_of (m_caps m) i.

(** [re.match(r, s)] with [s] the text from position [pos] on. *)
Definition match_at (r : regex) (pos : nat) (s : str) : option rmatch_obj :=
  rmatch r s []
    (fun s' c => Some (MatchObj pos (pos + (length s - length s')) c)).

(** [re.search]: the first position at which the pattern matches. *)
Fixpoint search_from (r : regex) (pos : nat) (s : str) : option rmatch_obj :=
  match match_at r pos s with
  | Some m => Some m
  | None =>
      match s with
      | [] => None
      | _ :: s' => search_from r (S pos) s'
      end
  end.

Definition search (r : regex) (s : str) : option rmatch_obj := search_from r 0 s.

(** [re.finditer]: successive matches, each search starting where the
    previous match ended (one character further after an empty match; no
    pattern of the scripts matches the empty text).  The patterns have no
    anchors and no look-behind, so that searching in the rest of the text
    is searching the text from that position. *)
Fixpoint finditer_from (fuel : nat) (r : regex) (pos : nat) (s : str)
  : list rmatch_obj :=
  match fuel with
  | O => []
  | S fuel' =>
      match search_from r pos s with
      | None => []
      | Some m =>
          let next := if m_end m =? m_start m then S (m_end m) else m_end m in
          m :: finditer_from fuel' r next (skipn (next - pos) s)
      end
  end.

Definition finditer (r : regex) (s : str) : list rmatch_obj :=
  finditer_from (S (length s)) r 0 s.

(** [re.sub(r, repl, s)] with the replacement template given as a function
    of the match. *)
Fixpoint sub_go (matches : list rmatch_obj) (repl : rmatch_obj -> str)
         (pos : nat) (s : str) : str :=
  match matches with
  | [] => s
  | m :: ms =>
      firstn (m_start m - pos) s ++ repl m
        ++ sub_go ms repl (m_end m) (skipn (m_end m - pos) s)
  end.

Definition sub (r : regex) (repl : rmatch_obj -> str) (s : str) : str :=
  sub_go (finditer r s) repl 0 s.

(** [m.group(i)] of a group known to take part; the empty string stands in
    otherwise. *)
Definition group_str (m : rmatch_obj) (i : nat) : str :=
  match group m i with
  | Some g => g
  | None => []
  end.

(** Where [$] matches: at the end of the text, and just before a newline
    that ends the text. *)
Definition at_end (s : str) : bool :=
  match s with
  | [] => true
  | [a] => ascii_eqb a newline
  | _ => false
  end.

(** [re.match] of a pattern that ends in [$], [r] being the pattern
    before the [$]: the first way of matching [r], in the order of the
    matcher, that stops where [$] matches. *)
Definition match_to_end (r : regex) (pos : nat) (s : str) : option rmatch_obj :=
  rmatch r s []
    (fun s' c =>
       if at_end s'
       then Some (MatchObj pos (pos + (length s - length s')) c)
       else None).

End Re.

Import Re.

(* ===================================================================== *)
(** * Python dictionaries *)
(* ===================================================================== *)

Module Dict.

(** A [dict] with string keys, in insertion order. *)
Definition dict (V : Type) := list (str * V).

(** [d.get(k)] *)
Fixpoint get (V : Type) (d : dict V) (k : str) : option V :=
  match d with
  | [] => None
  | (k', v) :: d' => if str_eqb k k' then Some v else get d' k
  end.

(** [k in d] *)
Definition mem (V : Type) (k : str) (d : dict V) : bool :=
  match get d k with
  | Some _ => true
  | None => false
  end.

(** [d[k] = v]: an existing key keeps its place, a new one goes last. *)
Fixpoint set (V : Type) (k : str) (v : V) (d : dict V) : dict V :=
  match d with
  | [] => [(k, v)]
  | (k', v') :: d' =>
      if str_eqb k k' then (k', v) :: d' else (k', v') :: set k v d'
  end.

(** [d.keys()], [d.values()] and [d.items()] *)
Definition keys (V : Type) (d : dict V) : list str := map fst d.
Definition values (V : Type) (d : dict V) : list V := map snd d.
Definition items (V : Type) (d : dict V) : list (str * V) := d.

(** [d.update(other)] *)
Definition update (V : Type) (other d : dict V) : dict V :=
  fold_left (fun d kv => set (fst kv) (snd kv) d) other d.

End Dict.

Import Dict.

(* ===================================================================== *)
(** * generate-backend.py: [CSharpParser] *)
(* ===================================================================== *)

Module CSharpParser.

(** [[A-Za-z_]] and [[A-Za-z0-9_]] *)
Definition ident_start (a : ascii) : bool :=
  is_upper_az a || is_lower_az a || ascii_eqb a "_"%char.
Definition ident_char (a : ascii) : bool :=
  is_upper_az a || is_lower_az a || is_digit a || ascii_eqb a "_"%char.

(** An identifier, [[A-Za-z_][A-Za-z0-9_]*] *)
Definition identifier : regex := Cat (Cls ident_start) (Star true (Cls ident_char)).

(** [kw\s+] *)
Definition keyword (kw : string) : regex := Cat (lit kw) (Plus true ws).

(** ** [extract_properties] *)

Definition property_pattern : regex :=
  seq [ lit "public";                   (* public *)
        Plus true ws;                   (* \s+ *)
        Opt (keyword "required");       (* (?:required\s+)? *)
        Grp 1 (Plus false (Cls dot));   (* (.+?) *)
        Plus true ws;                   (* \s+ *)
        Grp 2 identifier;               (* ([A-Za-z_][A-Za-z0-9_]* ) *)
        Star true ws;                   (* \s* *)
        Cls (one_of "{;") ].            (* [{;] *)

Definition not_a_type : list str :=
  [txt "class"; txt "record"; txt "enum"; txt "struct"; txt "interface"].

Definition extract_properties (content : str) : dict str :=
  fold_left
    (fun properties m =>
       let prop_type := strip (group_str m 1) in
       let prop_name := group_str m 2 in
       if negb (str_in prop_type not_a_type)
       then Dict.set prop_name prop_type properties
       else properties)
    (finditer property_pattern content) [].

(** ** Balanced delimiters *)

(** The scanning loop of [extract_class_body] and of
    [_extract_balanced_parens]; the two differ in the delimiters only.
    [rest] is [content[pos:]]; the result is the counter and the position
    at which the loop stops.
<<
    while pos < len(content) and count > 0:
        if content[pos] == opening: count += 1
        elif content[pos] == closing: count -= 1
        pos += 1
>> *)
Fixpoint scan_balanced (opening closing : ascii) (rest : str)
         (count pos : nat) : nat * nat :=
  match rest with
  | [] => (count, pos)
  | a :: rest' =>
      if 0 <? count then
        let count' :=
          if ascii_eqb a opening then count + 1
          else if ascii_eqb a closing then count - 1
          else count in
        scan_balanced opening closing rest' count' (pos + 1)
      else (count, pos)
  end.

(** The header pattern of [extract_class_body], built around the escaped
    class name. *)
Definition class_header_pattern (class_name : str) : regex :=
  seq [ Opt (keyword "public");         (* (?:public\s+)? *)
        Opt (keyword "sealed");         (* (?:sealed\s+)? *)
        Opt (keyword "abstract");       (* (?:abstract\s+)? *)
        Opt (keyword "partial");        (* (?:partial\s+)? *)
        Alt (lit "record") (Alt (lit "class") (lit "struct"));
                                        (* (?:record|class|struct) *)
        Plus true ws;                   (* \s+ *)
        lit_str class_name;             (* re.escape(class_name) *)
        Star true ws;                   (* \s* *)
        Opt (seq [chr "("; Star true (Cls (none_of ")")); chr ")"]);
                                        (* (?:\([^)]* \))? *)
        Star true ws;                   (* \s* *)
        Opt (Cat (chr ":") (Plus true (Cls (none_of "{"))));
                                        (* (?::[^{]+)? *)
        Star true ws;                   (* \s* *)
        chr "{" ].                      (* { *)

(** The part of [extract_class_body] after the header is found: scan from
    [start_pos], just after the opening brace. *)
Definition body_from (content : str) (start_pos : nat) : option str :=
  let '(brace_count, pos) :=
    scan_balanced "{" "}" (skipn start_pos content) 1 start_pos in
  if brace_count =? 0 then Some (slice content start_pos (pos - 1)) else None.

Definition extract_class_body (content class_name : str) : option str :=
  match search (class_header_pattern class_name) content with
  | None => None
  | Some m => body_from content (m_end m)
  end.

Definition _extract_balanced_parens (content : str) (start_pos : nat) : str :=
  match nth_error content start_pos with
  | None => []
  | Some a =>
      if negb (ascii_eqb a "(") then []
      else
        let '(paren_count, pos) :=
          scan_balanced "(" ")" (skipn (start_pos + 1) content) 1 (start_pos + 1) in
        if paren_count =? 0 then slice content (start_pos + 1) (pos - 1) else []
  end.

(** ** [camel_to_snake] *)

(** The patterns [(.)([A-Z][a-z]+)] and [([a-z0-9])([A-Z])] *)
Definition camel_pass1 : regex :=
  Cat (Grp 1 (Cls dot))
      (Grp 2 (Cat (Cls is_upper_az) (Plus true (Cls is_lower_az)))).

Definition camel_pass2 : regex :=
  Cat (Grp 1 (Cls (fun a => is_lower_az a || is_digit a)))
      (Grp 2 (Cls is_upper_az)).

(** The template [\1_\2] *)
Definition underscore_between (m : rmatch_obj) : str :=
  group_str m 1 ++ txt "_" ++ group_str m 2.

Definition camel_to_snake (name : str) : str :=
  let s1 := sub camel_pass1 underscore_between name in
  lower (sub camel_pass2 underscore_between s1).

(** ** [extract_methods] *)

Record method : Type := Method {
  name : str;
  return_type : str;
  is_async : bool
}.

(** The generic suffix of a return type,
    [(?:<[^>]+(?:<[^>]+>)?[^>]*>)?] *)
Definition generic_suffix : regex :=
  Opt (seq [ chr "<";                              (* < *)
             Plus true (Cls (none_of ">"));        (* [^>]+ *)
             Opt (seq [ chr "<"; Plus true (Cls (none_of ">")); chr ">" ]);
                                                   (* (?:<[^>]+>)? *)
             Star true (Cls (none_of ">"));        (* [^>]* *)
             chr ">" ]).                           (* > *)

Definition method_pattern : regex :=
  seq [ lit "public";                   (* public *)
        Plus true ws;                   (* \s+ *)
        Opt (keyword "async");          (* (?:async\s+)? *)
        Opt (keyword "override");       (* (?:override\s+)? *)
        Opt (keyword "virtual");        (* (?:virtual\s+)? *)
        Grp 1 (Cat (Plus true (Cls (fun a => negb (is_space a || ascii_eqb a "("))))
                   generic_suffix);     (* ([^\s(]+(?:<...>)?) *)
        Plus true ws;                   (* \s+ *)
        Grp 2 identifier;               (* ([A-Za-z_][A-Za-z0-9_]* ) *)
        Star true ws;                   (* \s* *)
        chr "(" ].                      (* \( *)

(** [content[max(0, match.start()-50):match.start()]] *)
Definition lookback (content : str) (m : rmatch_obj) : str :=
  slice content (m_start m - 50) (m_start m).

(** What one match of [method_pattern] adds to the result. *)
Definition method_of_match (content : str) (m : rmatch_obj) : list method :=
  let return_type := strip (group_str m 1) in
  let method_name := group_str m 2 in
  let is_async := contains (txt "async") (lookback content m) in
  if negb (str_in method_name [txt "get"; txt "set"])
  then [Method method_name return_type is_async]
  else [].

Definition extract_methods (content : str) : list method :=
  flat_map (method_of_match content) (finditer method_pattern content).

(** ** [extract_constructor_dependencies] *)

(** The state of the loop of [_split_parameters]. *)
Record split_state : Type := SplitState {
  params : list str;
  current : str;
  bracket_count : Z
}.

Definition split_step (st : split_state) (char : ascii) : split_state :=
  if one_of "<[" char then
    SplitState (params st) (current st ++ [char]) (bracket_count st + 1)
  else if one_of ">]" char then
    SplitState (params st) (current st ++ [char]) (bracket_count st - 1)
  else if ascii_eqb char "," && (bracket_count st =? 0)%Z then
    SplitState (params st ++ [current st]) [] (bracket_count st)
  else
    SplitState (params st) (current st ++ [char]) (bracket_count st).

Definition _split_parameters (params_str : str) : list str :=
  let st := fold_left split_step params_str (SplitState [] [] 0) in
  match current st with
  | [] => params st
  | _ :: _ => params st ++ [current st]
  end.

Definition primary_constructor_pattern : regex :=
  seq [ Opt (keyword "public");         (* (?:public\s+)? *)
        Alt (lit "class") (Alt (lit "record") (lit "struct"));
                                        (* (?:class|record|struct) *)
        Plus true ws;                   (* \s+ *)
        Plus true word;                 (* \w+ *)
        Star true ws;                   (* \s* *)
        chr "(";                        (* \( *)
        Grp 1 (Plus true (Cls (none_of ")")));
                                        (* ([^)]+) *)
        chr ")" ].                      (* \) *)

(** [[A-Za-z0-9._<>,\[\]\s]] *)
Definition type_char (a : ascii) : bool :=
  is_upper_az a || is_lower_az a || is_digit a || one_of "._<>,[]" a
  || is_space a.

Definition param_type_pattern : regex :=
  seq [ Opt (keyword "required");       (* (?:required\s+)? *)
        Grp 1 (Plus false (Cls type_char));
                                        (* ([A-Za-z0-9._<>,\[\]\s]+?) *)
        Plus true ws;                   (* \s+ *)
        Cls (fun a => is_lower_az a || ascii_eqb a "_") ].
                                        (* [a-z_] *)

(** What one parameter adds to the dependencies. *)
Definition dependency_of_param (param : str) : list str :=
  let param := strip param in
  match param with
  | [] => []
  | _ :: _ =>
      match match_at param_type_pattern 0 param with
      | None => []
      | Some type_match =>
          match strip (group_str type_match 1) with
          | [] => []
          | param_type => [param_type]
          end
      end
  end.

Definition extract_constructor_dependencies (content : str) : list str :=
  match search primary_constructor_pattern content with
  | None => []
  | Some m =>
      let params_str := group_str m 1 in
      flat_map dependency_of_param (_split_parameters params_str)
  end.

(** ** [extract_namespace] *)

(** [[A-Za-z0-9._]] *)
Definition namespace_char (a : ascii) : bool :=
  is_upper_az a || is_lower_az a || is_digit a || one_of "._" a.

Definition namespace_pattern : regex :=
  seq [ lit "namespace";                (* namespace *)
        Plus true ws;                   (* \s+ *)
        Grp 1 (Plus true (Cls namespace_char));
                                        (* ([A-Za-z0-9._]+) *)
        Star true ws;                   (* \s* *)
        Cls (one_of ";{") ].            (* [;{] *)

Definition extract_namespace (content : str) : option str :=
  match search namespace_pattern content with
  | Some m => group m 1
  | None => None
  end.

(** ** [_strip_comments] *)

(** The body of the loop: one line without its comment. *)
Definition strip_line_comment (line : str) : str :=
  let comment_idx := find_str (txt "//") line in
  if (0 <=? comment_idx)%Z then firstn (Z.to_nat comment_idx) line else line.

Definition _strip_comments (text : str) : str :=
  let lines := split_on newline text in
  join [newline] (map strip_line_comment lines).

(** ** [extract_record_properties] *)

Definition record_start_pattern (class_name : str) : regex :=
  seq [ Opt (keyword "public");         (* (?:public\s+)? *)
        Opt (keyword "sealed");         (* (?:sealed\s+)? *)
        lit "record";                   (* record *)
        Plus true ws;                   (* \s+ *)
        lit_str class_name;             (* re.escape(class_name) *)
        Star true ws;                   (* \s* *)
        chr "(" ].                      (* \( *)

(** [[A-Za-z0-9_?<>,\[\]\s]] *)
Definition record_type_char (a : ascii) : bool :=
  is_upper_az a || is_lower_az a || is_digit a || one_of "_?<>,[]" a
  || is_space a.

(** The parameter pattern up to its final [$]. *)
Definition record_param_pattern : regex :=
  seq [ Opt (keyword "required");       (* (?:required\s+)? *)
        Grp 1 (Plus false (Cls record_type_char));
                                        (* ([A-Za-z0-9_?<>,\[\]\s]+?) *)
        Plus true ws;                   (* \s+ *)
        Grp 2 identifier;               (* ([A-Za-z_][A-Za-z0-9_]* ) *)
        Star true ws;                   (* \s* *)
        Opt (Cat (chr "=") (Star true (Cls dot))) ].
                                        (* (?:=.* )? *)

(** What one parameter of the primary constructor does to [properties]. *)
Definition property_of_param (properties : dict str) (param : str) : dict str :=
  let param := strip param in
  match param with
  | [] => properties
  | _ :: _ =>
      match match_to_end record_param_pattern 0 param with
      | None => properties
      | Some param_match =>
          let prop_type := strip (group_str param_match 1) in
          let prop_name := strip (group_str param_match 2) in
          match prop_type, prop_name with
          | _ :: _, _ :: _ => Dict.set prop_name prop_type properties
          | _, _ => properties
          end
      end
  end.

(** The properties that the primary constructor declares. *)
Definition constructor_properties (content class_name : str) : dict str :=
  match search (record_start_pattern class_name) content with
  | None => []
  | Some m =>
      let paren_pos := m_end m - 1 in
      let params_str := _extract_balanced_parens content paren_pos in
      let params_str := _strip_comments params_str in
      let params := _split_parameters params_str in
      fold_left property_of_param params []
  end.

Definition extract_record_properties (content class_name : str) : dict str :=
  let properties := constructor_properties content class_name in
  match extract_class_body content class_name with
  | Some (a :: body) =>
      let body_props := extract_properties (a :: body) in
      Dict.update body_props properties
  | _ => properties
  end.

(** ** [extract_navigations] *)

Record navigation : Type := Navigation {
  nav_name : str;
  target_entity : str;
  nav_type : str
}.

Definition navigation_pattern : regex :=
  seq [ lit "public";                   (* public *)
        Plus true ws;                   (* \s+ *)
        Alt (seq [ lit "ICollection<"; Grp 1 (Plus true (Cls ident_char)); chr ">" ])
            (Grp 2 (Plus true (Cls ident_char)));
                                        (* (?:ICollection<([A-Za-z0-9_]+)>|([A-Za-z0-9_]+)) *)
        Plus true ws;                   (* \s+ *)
        Grp 3 identifier;               (* ([A-Za-z_][A-Za-z0-9_]* ) *)
        Star true ws;                   (* \s* *)
        Cls (one_of "{;") ].            (* [{;] *)

(** What one match adds to the navigations. *)
Definition navigation_of_match (m : rmatch_obj) : list navigation :=
  let collection_type := group m 1 in
  let single_type := group m 2 in
  let nav_name := group_str m 3 in
  match collection_type with
  | Some (a :: t) => [Navigation nav_name (a :: t) (txt "many")]
  | _ =>
      match single_type with
      | Some (a :: t) =>
          if isupper_char a
          then [Navigation nav_name (a :: t) (txt "one")]
          else []
      | _ => []
      end
  end.

Definition extract_navigations (content : str) : list navigation :=
  flat_map navigation_of_match (finditer navigation_pattern content).

(** ** [extract_table_name] and [extract_route_attribute] *)

(** The double and the single quote. *)
Definition is_quote (a : ascii) : bool := (code a =? 34) || (code a =? 39).

(** An opening parenthesis and a quoted text, as both attribute patterns
    have it after the name of the attribute. *)
Definition quoted_argument : list regex :=
  [ Star true ws;                       (* \s* *)
    chr "(";                            (* \( *)
    Star true ws;                       (* \s* *)
    Cls is_quote;                       (* a quote *)
    Grp 1 (Plus true (Cls (fun a => negb (is_quote a))));
                                        (* (one or more characters that are no quote) *)
    Cls is_quote ].                     (* a quote *)

Definition table_pattern : regex := seq (lit "Table" :: quoted_argument).

Definition extract_table_name (class_name content : str) : str :=
  match search table_pattern content with
  | Some m => group_str m 1
  | None => camel_to_snake class_name
  end.

Definition route_pattern : regex := seq (lit "[Route" :: quoted_argument).

Definition extract_route_attribute (content : str) : option str :=
  match search route_pattern content with
  | Some m => group m 1
  | None => None
  end.

(** ** [extract_endpoints] *)

Record endpoint : Type := Endpoint {
  endpoint_name : str;
  endpoint_method : str;
  route : str;
  request_type : option str;
  response_type : option str;
  requires_auth : bool;
  required_roles : list str
}.

Definition http_methods : list str :=
  [ txt "HttpGet"; txt "HttpPost"; txt "HttpPut"; txt "HttpPatch";
    txt "HttpDelete"; txt "HttpHead"; txt "HttpOptions" ].

(** The attribute [[HttpXxx( route )]], the route between optional
    quotes. *)
Definition http_attribute_pattern (http_method : str) : regex :=
  seq [ chr "[";                        (* \[ *)
        lit_str http_method;            (* {http_method} *)
        Star true ws;                   (* \s* *)
        chr "(";                        (* \( *)
        Star true ws;                   (* \s* *)
        Opt (Cls is_quote);             (* an optional quote *)
        Grp 1 (Star true (Cls (fun a => negb (is_quote a || ascii_eqb a "]"))));
                                        (* (characters that are neither a quote nor ]) *)
        Opt (Cls is_quote);             (* an optional quote *)
        Star true ws;                   (* \s* *)
        chr ")";                        (* \) *)
        chr "]" ].                      (* \] *)

(** The signature of the action that follows the attribute. *)
Definition action_pattern : regex :=
  seq [ lit "public";                   (* public *)
        Plus true ws;                   (* \s+ *)
        Opt (keyword "async");          (* (?:async\s+)? *)
        Alt (lit "IActionResult")
            (Alt (lit "ActionResult") (Alt (lit "Task") (lit "Result")));
                                        (* (?:IActionResult|ActionResult|Task|Result) *)
        Star false (Cls (none_of "("));  (* [^\(]*? *)
        Grp 1 identifier;               (* ([A-Za-z_][A-Za-z0-9_]* ) *)
        Star true ws;                   (* \s* *)
        chr "(" ].                      (* \( *)

(** What one attribute adds to the endpoints. *)
Definition endpoint_of_match (content http_method : str) (m : rmatch_obj)
  : list endpoint :=
  let route_part := strip (group_str m 1) in
  let start_pos := m_end m in
  match search action_pattern (slice content start_pos (start_pos + 1000)) with
  | Some next_method =>
      let method_name := group_str next_method 1 in
      [ Endpoint method_name (upper (replace (txt "Http") [] http_method))
                 route_part None None true [] ]
  | None => []
  end.

Definition extract_endpoints (content : str) : list endpoint :=
  flat_map
    (fun http_method =>
       flat_map (endpoint_of_match content http_method)
                (finditer (http_attribute_pattern http_method) content))
    http_methods.

(** ** [extract_patterns] *)

(** [bool(re.search(r, content))] *)
Definition found (r : regex) (content : str) : bool :=
  match search r content with
  | Some _ => true
  | None => false
  end.

Definition response_envelope_pattern : regex :=
  seq [ lit "new";                      (* new *)
        Star true ws;                   (* \s* *)
        chr "{";                        (* \{ *)
        Star true ws;                   (* \s* *)
        Alt (lit "data") (lit "Data");  (* (?:data|Data) *)
        Star true ws;                   (* \s* *)
        chr "=" ].                      (* = *)

Definition extract_patterns (content : str) : dict bool :=
  [ (txt "response_envelope", found response_envelope_pattern content);
    (txt "idkey_routes", found (lit "{idKey}") content);
    (txt "problem_details",
     found (Alt (lit "Problem(") (lit "ProblemDetails")) content);
    (txt "result_pattern", found (lit "Result<") content) ].

End CSharpParser.

(* ===================================================================== *)
(** * generate-backend.py: [BackendGraphGenerator] *)
(* ===================================================================== *)

Module BackendGraphGenerator.

(** ** [_infer_entity_from_dto_name] *)

Definition manual_mappings : dict str :=
  map (fun kv => (txt (fst kv), txt (snd kv)))
    [ ("MyProfileDto", "Person"); ("UpdateMyProfileRequest", "Person");
      ("DuplicateMatchDto", "Person"); ("FirstTimeVisitorDto", "Person");
      ("UpdateFollowUpStatusRequest", "Person"); ("AssignFollowUpRequest", "Person");
      ("CreatePhoneNumberRequest", "Person"); ("UpdatePhoneNumberRequest", "Person");
      ("LoginRequest", "UserSession"); ("TokenResponse", "UserSession");
      ("ChangePasswordRequest", "Person");
      ("TwoFactorVerifyRequest", "TwoFactorConfig");
      ("TwoFactorSetupDto", "TwoFactorConfig");
      ("TwoFactorStatusDto", "TwoFactorConfig");
      ("GlobalSearchResultDto", "System"); ("GlobalSearchResponse", "System");
      ("CsvPreviewDto", "ImportJob"); ("ImportJobDto", "ImportJob");
      ("ImportTemplateDto", "ImportTemplate");
      ("CreateImportTemplateRequest", "ImportTemplate");
      ("StartImportRequest", "ImportJob"); ("ValidateImportRequest", "ImportJob");
      ("ExportFieldDto", "ExportJob"); ("StartExportRequest", "ExportJob");
      ("AuditLogExportRequest", "AuditLog");
      ("LabelSetDto", "LabelTemplate"); ("LabelDto", "LabelTemplate");
      ("LabelRequestDto", "LabelTemplate"); ("BatchLabelRequestDto", "LabelTemplate");
      ("LabelPreviewRequestDto", "LabelTemplate"); ("LabelPreviewDto", "LabelTemplate");
      ("MergeFieldDto", "LabelTemplate");
      ("DashboardStatsDto", "System"); ("DashboardBatchDto", "ContributionBatch");
      ("UpcomingScheduleDto", "Schedule");
      ("FileMetadataDto", "BinaryFile"); ("UploadFileRequest", "BinaryFile");
      ("PickupVerificationResultDto", "PickupLog");
      ("VerifyPickupRequest", "PickupLog"); ("RecordPickupRequest", "PickupLog")
    ]%string.

Definition request_prefixes : list str :=
  [ txt "Create"; txt "Update"; txt "Add"; txt "Remove"; txt "Delete";
    txt "Upload"; txt "Import"; txt "Export"; txt "Validate" ].

(** The first result that a loop with a [return] in its body gives. *)
Fixpoint first_some (A B : Type) (f : A -> option B) (l : list A) : option B :=
  match l with
  | [] => None
  | x :: l' =>
      match f x with
      | Some y => Some y
      | None => first_some f l'
      end
  end.

(** The three parts of [_infer_entity_from_dto_name], of which the first
    to return decides; [entities] is [self.entities]. *)
Definition from_manual_mapping (V : Type) (entities : dict V) (dto_name : str)
  : option str :=
  match Dict.get manual_mappings dto_name with
  | Some entity =>
      if str_eqb entity (txt "System") || Dict.mem entity entities
      then Some entity
      else None
  | None => None
  end.

Definition from_request_name (V : Type) (entities : dict V) (dto_name : str)
  : option str :=
  if endswith (txt "Request") dto_name then
    let base_name := firstn (length dto_name - 7) dto_name in
    first_some
      (fun prefix =>
         if startswith prefix base_name then
           let entity_candidate := skipn (length prefix) base_name in
           if Dict.mem entity_candidate entities then Some entity_candidate
           else
             find (fun entity_name => startswith entity_name entity_candidate)
                  (Dict.keys entities)
         else None)
      request_prefixes
  else None.

Definition from_dto_name (V : Type) (entities : dict V) (dto_name : str)
  : option str :=
  if endswith (txt "Dto") dto_name then
    let base_name := firstn (length dto_name - 3) dto_name in
    if Dict.mem base_name entities then Some base_name
    else
      find (fun entity_name =>
              startswith entity_name base_name
              && negb (str_eqb entity_name base_name))
           (Dict.keys entities)
  else None.

Definition _infer_entity_from_dto_name (V : Type) (entities : dict V)
           (dto_name : str) : option str :=
  match from_manual_mapping entities dto_name with
  | Some entity => Some entity
  | None =>
      match from_request_name entities dto_name with
      | Some entity => Some entity
      | None => from_dto_name entities dto_name
      end
  end.

(** ** [build_edges] *)

(** The fields that [build_edges] reads; [None] is a missing key. *)
Record service_method : Type := ServiceMethod {
  method_return_type : option str
}.

Record service : Type := Service {
  methods : option (list service_method);
  service_dependencies : option (list str)
}.

Record controller : Type := Controller {
  controller_dependencies : option (list str)
}.

Record edge : Type := Edge {
  source : str;
  target : str;
  relationship : str
}.

(** [d.get(key, [])] *)
Definition get_or_empty (A : Type) (field : option (list A)) : list A :=
  match field with
  | Some v => v
  | None => []
  end.

(** The edge for one dependency of a controller. *)
Definition controller_edge (services : dict service) (controller_name dep : str)
  : list edge :=
  if Dict.mem dep services
  then [Edge controller_name dep (txt "depends_on")]
  else
    match find (fun service_name =>
                  str_eqb (lstrip_by (ascii_eqb "I") dep) service_name
                  || str_eqb ("I"%char :: service_name) dep)
               (Dict.keys services) with
    | Some service_name => [Edge controller_name service_name (txt "depends_on")]
    | None => []
    end.

(** The edge for one method of a service. *)
Definition method_edge (V : Type) (dtos : dict V) (service_name : str)
           (m : service_method) : list edge :=
  let return_type :=
    match method_return_type m with Some t => t | None => [] end in
  match find (fun dto_name => contains dto_name return_type) (Dict.keys dtos) with
  | Some dto_name => [Edge service_name dto_name (txt "returns")]
  | None => []
  end.

(** The edge for one dependency of a service. *)
Definition entity_edge (V : Type) (entities : dict V) (service_name dep : str)
  : list edge :=
  match find (fun entity_name => contains entity_name dep) (Dict.keys entities) with
  | Some entity_name => [Edge service_name entity_name (txt "uses")]
  | None => []
  end.

(** [build_edges] appends to [self.edges], which is [edges] at the call. *)
Definition build_edges (E D : Type) (entities : dict E) (dtos : dict D)
           (services : dict service) (controllers : dict controller)
           (edges : list edge) : list edge :=
  let edges :=
    edges ++
    flat_map
      (fun kv =>
         flat_map (controller_edge services (fst kv))
                  (get_or_empty (controller_dependencies (snd kv))))
      (Dict.items controllers) in
  let edges :=
    edges ++
    flat_map
      (fun kv =>
         flat_map (method_edge dtos (fst kv)) (get_or_empty (methods (snd kv))))
      (Dict.items services) in
  edges ++
  flat_map
    (fun kv =>
       flat_map (entity_edge entities (fst kv))
                (get_or_empty (service_dependencies (snd kv))))
    (Dict.items services).

End BackendGraphGenerator.

(* ===================================================================== *)
(** * merge-graph.py: [GraphMerger] *)
(* ===================================================================== *)

Module GraphMerger.

(** What [json.load] returns.  The merger copies these values and never
    looks inside a number, which is kept as its literal. *)
#[local] Unset Elimination Schemes.
Inductive json : Type :=
| JNull
| JBool (b : bool)
| JNum (literal : str)
| JStr (s : str)
| JArr (items : list json)
| JObj (fields : list (str * json)).
#[local] Set Elimination Schemes.

(** The two input graphs, well formed: every section that is present is an
    object keyed by name, and [edges] is an array.  [None] is a missing
    key. *)
Record backend_graph : Type := BackendGraph {
  b_entities : option (dict json);
  b_dtos : option (dict json);
  b_services : option (dict json);
  b_controllers : option (dict json);
  b_edges : option (list json)
}.

Record frontend_graph : Type := FrontendGraph {
  f_types : option (dict json);
  f_api_functions : option (dict json);
  f_hooks : option (dict json);
  f_components : option (dict json);
  f_edges : option (list json)
}.

(** [graph.get(key, {})] and [graph.get(key, [])] *)
Definition get_or_empty (A : Type) (section : option (list A)) : list A :=
  match section with
  | Some v => v
  | None => []
  end.

Record stats : Type := Stats {
  st_entities : nat;
  st_dtos : nat;
  st_services : nat;
  st_controllers : nat;
  st_types : nat;
  st_api_functions : nat;
  st_hooks : nat;
  st_components : nat;
  total_edges : nat
}.

Record merged_graph : Type := MergedGraph {
  version : str;
  generated_at : str;
  entities : dict json;
  dtos : dict json;
  services : dict json;
  controllers : dict json;
  hooks : dict json;
  api_functions : dict json;
  components : dict json;
  edges : list json;
  cross_layer_mappings : dict str;
  merged_stats : stats
}.

Definition _normalize_dto_name (dto_name : str) : str :=
  if endswith (txt "Dto") dto_name
  then firstn (length dto_name - 3) dto_name
  else dto_name.

Definition _normalize_type_name (type_name : str) : str := type_name.

Definition _find_matching_type (frontend : frontend_graph) (dto_name : str)
  : option str :=
  let normalized_dto := _normalize_dto_name dto_name in
  let types := get_or_empty (f_types frontend) in
  if Dict.mem dto_name types then Some dto_name
  else
    find (fun type_name =>
            str_eqb (lower (_normalize_type_name type_name)) (lower normalized_dto))
         (Dict.keys types).

Definition _find_matching_dto (backend : backend_graph) (type_name : str)
  : option str :=
  let dtos := get_or_empty (b_dtos backend) in
  if Dict.mem type_name dtos then Some type_name
  else
    let dto_name := type_name ++ txt "Dto" in
    if Dict.mem dto_name dtos then Some dto_name
    else
      find (fun dto => str_eqb (lower (_normalize_dto_name dto)) (lower type_name))
           (Dict.keys dtos).

(** ** [_routes_match] *)

Definition placeholder : regex :=
  seq [ chr "{";                          (* \{ *)
        Plus true (Cls (none_of "}"));    (* [^}]+ *)
        chr "}" ].                        (* \} *)

Definition route_to_pattern (route : str) : str :=
  sub placeholder (fun _ => txt "{param}") route.

(** [route.replace("//", "/").strip("/")] *)
Definition normalize_route (route : str) : str :=
  strip_slash (replace (txt "//") (txt "/") route).

Definition _routes_match (backend_route frontend_route : str) : bool :=
  let backend_normalized := normalize_route backend_route in
  let frontend_normalized := normalize_route frontend_route in
  if str_eqb backend_normalized frontend_normalized then true
  else str_eqb (route_to_pattern backend_normalized)
               (route_to_pattern frontend_normalized).

(** ** [merge] *)

(** A Python truth test on a string: the empty string is false. *)
Definition nonempty (s : option str) : option str :=
  match s with
  | Some (a :: s') => Some (a :: s')
  | _ => None
  end.

(** The loop that builds [cross_layer_mappings]. *)
Definition add_mapping (frontend : frontend_graph) (mappings : dict str)
           (dto_name : str) : dict str :=
  match nonempty (_find_matching_type frontend dto_name) with
  | Some matching_type =>
      Dict.set (txt "dto:" ++ dto_name) (txt "type:" ++ matching_type) mappings
  | None => mappings
  end.

(** [merge] fills [self.merged_graph] and returns [True]; [now] is
    [datetime.now(timezone.utc).isoformat()]. *)
Definition merge (now : str) (backend : backend_graph)
           (frontend : frontend_graph) : bool * merged_graph :=
  let merged_edges := [] ++ get_or_empty (b_edges backend) in
  let merged_edges := merged_edges ++ get_or_empty (f_edges frontend) in
  let mappings :=
    fold_left (add_mapping frontend)
              (Dict.keys (get_or_empty (b_dtos backend))) [] in
  (true,
   MergedGraph
     (txt "1.0") now
     (get_or_empty (b_entities backend))
     (get_or_empty (b_dtos backend))
     (get_or_empty (b_services backend))
     (get_or_empty (b_controllers backend))
     (get_or_empty (f_hooks frontend))
     (get_or_empty (f_api_functions frontend))
     (get_or_empty (f_components frontend))
     merged_edges
     mappings
     (Stats
        (length (get_or_empty (b_entities backend)))
        (length (get_or_empty (b_dtos backend)))
        (length (get_or_empty (b_services backend)))
        (length (get_or_empty (b_controllers backend)))
        (length (get_or_empty (f_types frontend)))
        (length (get_or_empty (f_api_functions frontend)))
        (length (get_or_empty (f_hooks frontend)))
        (length (get_or_empty (f_components frontend)))
        (length merged_edges))).

End GraphMerger.

(* ===================================================================== *)
(** * verify-contracts.py: [ContractVerifier] *)
(* ===================================================================== *)

Module ContractVerifier.

(** ** The graph as the verifier reads it *)

(** A property's value: a string, or anything else, of which only the
    text that an f-string prints is kept. *)
Inductive value : Type :=
| VStr (s : str)
| VOther (shown : str).

(** [f"{v}"] *)
Definition show (v : value) : str :=
  match v with
  | VStr s => s
  | VOther shown => shown
  end.

(** The fields the checks read; [None] is a missing key. *)
Record endpoint : Type := Endpoint {
  ep_name : option str;
  ep_route : option str
}.

Record controller : Type := Controller {
  patterns : option (dict bool);
  endpoints : option (list endpoint)
}.

Record dto : Type := Dto {
  dto_properties : option (dict value)
}.

Record component : Type := Component {
  apiCallsDirectly : option bool
}.

Record frontend_type : Type := FrontendType {
  type_properties : option (dict value)
}.

(** The top-level object of the graph file.  The entries of [hooks] are
    never read. *)
Record graph : Type := Graph {
  controllers : option (dict controller);
  dtos : option (dict dto);
  components : option (dict component);
  hooks : option (dict unit);
  types : option (dict frontend_type)
}.

(** A JSON value that is not an object.  Of an array only the elements
    that are strings matter to [in]: [Some s] is the string [s], [None]
    any other element. *)
Inductive top_level : Type :=
| TNull
| TBool (b : bool)
| TNumber (literal : str)
| TString (s : str)
| TArray (items : list (option str)).

(** What is found at [graph_path].  [NoFile]: [exists()] is false.
    [Unreadable]: the file is there but [open] or the read raises the
    given exception, as for a directory, a file without read permission
    or bytes that are no text in the encoding ([UnicodeDecodeError]).
    [BadJson]: [json.load] raises [json.JSONDecodeError] with the given
    message.  [NotAnObject]: the file holds a JSON value that is not an
    object.  [Parsed]: it holds an object whose sections, where present,
    have the shape above; an object with a section of another shape, on
    which a check raises, is left out. *)
Inductive graph_file : Type :=
| NoFile
| Unreadable (exception : str)
| BadJson (error : str)
| NotAnObject (v : top_level)
| Parsed (g : graph).

(** [d.get(key, {})] and [d.get(key, [])] *)
Definition get_or_empty (A : Type) (section : option (list A)) : list A :=
  match section with
  | Some v => v
  | None => []
  end.

(** ** Violations and the verifier's state *)

Record ContractViolation : Type := Violation {
  check_name : str;
  severity : str;
  item : str;
  detail : str
}.

Definition nl : str := [ascii_of_nat 10].

(** [str(n)] for a length. *)
Definition str_of_nat (n : nat) : str :=
  txt (NilEmpty.string_of_uint (Nat.to_uint n)).

(** [ContractViolation.__str__]; the icons are the bytes of their UTF-8
    encoding. *)
Definition violation_str (v : ContractViolation) : str :=
  let icon := if str_eqb (severity v) (txt "FAIL") then txt "✗" else txt "⚠" in
  txt "  " ++ icon ++ txt " " ++ item v ++ txt ": " ++ detail v.

(** [self.violations] and what has been printed, one entry for each call
    of [print]. *)
Record state : Type := State {
  violations : dict (list ContractViolation);
  stdout : list str
}.

Definition init : state :=
  State [ (txt "check_1", []); (txt "check_2", []); (txt "check_3", []);
          (txt "check_4", []); (txt "check_5", []) ] [].

Definition print (line : str) (st : state) : state :=
  State (violations st) (stdout st ++ [line]).

(** [self.violations[key].append(v)] *)
Definition append_at (key : str) (v : ContractViolation)
           (d : dict (list ContractViolation)) : dict (list ContractViolation) :=
  map (fun kv => if str_eqb key (fst kv) then (fst kv, snd kv ++ [v]) else kv) d.

Definition record (key : str) (v : ContractViolation) (st : state) : state :=
  State (append_at key v (violations st)) (stdout st).

(** [self.violations[key]] *)
Definition violations_of (key : str) (st : state) : list ContractViolation :=
  match Dict.get (violations st) key with
  | Some l => l
  | None => []
  end.

Definition dashes (n : nat) : str := repeat "-"%char n.
Definition equals (n : nat) : str := repeat "="%char n.

Definition print_each (lines : list str) (st : state) : state :=
  fold_left (fun st line => print line st) lines st.

(** [_print_results(check_key, check_name)], with [is_warning] left at its
    default [False]. *)
Definition _print_results (check_key check_name : str) (st : state) : state :=
  let found := violations_of check_key st in
  match found with
  | [] => print (txt "  ✓ " ++ check_name ++ txt ": PASS") st
  | _ :: _ =>
      let status := txt "FAIL" in
      let st := print (txt "  ✗ " ++ check_name ++ txt ": " ++ status ++ txt " ("
                         ++ str_of_nat (length found) ++ txt " violations)") st in
      let st := print_each (map (fun v => txt "    " ++ violation_str v)
                                (firstn 10 found)) st in
      if 10 <? length found
      then print (txt "    ... and " ++ str_of_nat (length found - 10) ++ txt " more") st
      else st
  end.

(** ** Loading *)

Definition required_sections (g : graph) : list (str * bool) :=
  [ (txt "controllers", match controllers g with Some _ => true | None => false end);
    (txt "dtos", match dtos g with Some _ => true | None => false end);
    (txt "components", match components g with Some _ => true | None => false end);
    (txt "hooks", match hooks g with Some _ => true | None => false end) ].

(** [str(Path(p))] on a POSIX system: empty and [.] components go, and
    with them repeated slashes and a slash at the end; two slashes at the
    start stay, three or more are one; the empty path is [.]. *)
Definition path_root (p : str) : str :=
  match p with
  | "/"%char :: "/"%char :: "/"%char :: _ => txt "/"
  | "/"%char :: "/"%char :: _ => txt "//"
  | "/"%char :: _ => txt "/"
  | _ => []
  end.

Definition path_parts (p : str) : list str :=
  filter (fun part => negb (str_eqb part [] || str_eqb part (txt ".")))
         (split_on "/" p).

Definition path_str (p : str) : str :=
  match path_root p ++ join (txt "/") (path_parts p) with
  | [] => txt "."
  | shown => shown
  end.

(** How [load_graph] ends: with the graph in [self.graph]; with a string
    or an array there, in which the four names were found; with a message
    printed before [sys.exit(2)]; or with an exception that nothing
    catches. *)
Inductive loaded : Type :=
| Loaded (g : graph)
| LoadedValue (v : top_level)
| Exit2 (message : str)
| Raised (exception : str).

(** [section in self.graph] for a value that is not an object: a substring
    test on a string, a membership test on an array, and a [TypeError] on
    [null], a truth value or a number. *)
Definition section_in (section : str) (v : top_level) : option bool :=
  match v with
  | TNull | TBool _ | TNumber _ => None
  | TString s => Some (contains section s)
  | TArray items =>
      Some (existsb (fun item =>
                       match item with
                       | Some s => str_eqb section s
                       | None => false
                       end) items)
  end.

(** The loop over [required] for such a value. *)
Fixpoint check_sections (required : list str) (v : top_level) : loaded :=
  match required with
  | [] => LoadedValue v
  | section :: more =>
      match section_in section v with
      | None => Raised (txt "TypeError")
      | Some false => Exit2 (txt "ERROR: Graph missing required section: " ++ section)
      | Some true => check_sections more v
      end
  end.

(** [load_graph], with [self.graph_path = Path(graph_path)].  Only
    [json.JSONDecodeError] is caught. *)
Definition load_graph (graph_path : str) (f : graph_file) : loaded :=
  match f with
  | NoFile => Exit2 (txt "ERROR: Graph file not found: " ++ path_str graph_path)
  | Unreadable exception => Raised exception
  | BadJson e =>
      Exit2 (txt "ERROR: Invalid JSON in " ++ path_str graph_path ++ txt ": " ++ e)
  | NotAnObject v =>
      check_sections [txt "controllers"; txt "dtos"; txt "components"; txt "hooks"] v
  | Parsed g =>
      match find (fun sec => negb (snd sec)) (required_sections g) with
      | Some (section, _) => Exit2 (txt "ERROR: Graph missing required section: " ++ section)
      | None => Loaded g
      end
  end.

(** ** Checks 1 to 4 *)

Definition check_response_envelopes (g : graph) (st : state) : state :=
  let st := print (nl ++ txt "Check 1: Response Envelope Documentation") st in
  let st := print (dashes 50) st in
  let st :=
    fold_left
      (fun st kv =>
         let controller_name := fst kv in
         let has_envelope_doc :=
           Dict.mem (txt "response_envelope") (get_or_empty (patterns (snd kv))) in
         if negb has_envelope_doc
         then record (txt "check_1")
                (Violation (txt "Check 1") (txt "FAIL") controller_name
                   (txt "Missing response_envelope documentation in patterns")) st
         else st)
      (Dict.items (get_or_empty (controllers g))) st in
  _print_results (txt "check_1") (txt "Response envelope documentation") st.

(** The body of the inner loop of check 2 for one property of one DTO. *)
Definition integer_id_violation (dto_name prop_name : str) (prop_type : value)
  : list ContractViolation :=
  match prop_type with
  | VStr t =>
      if str_eqb prop_name (txt "Id") && contains (txt "int") (lower t)
      then [ Violation (txt "Check 2") (txt "FAIL") dto_name
               (txt "Exposes integer ID: " ++ prop_name ++ txt ": " ++ t
                  ++ txt " (should use IdKey string)") ]
      else []
  | VOther _ => []
  end.

Definition record_all (key : str) (vs : list ContractViolation) (st : state) : state :=
  fold_left (fun st v => record key v st) vs st.

Definition check_no_integer_ids_in_dtos (g : graph) (st : state) : state :=
  let st := print (nl ++ txt "Check 2: No Integer IDs in DTOs") st in
  let st := print (dashes 50) st in
  let st :=
    fold_left
      (fun st kv =>
         fold_left
           (fun st prop =>
              record_all (txt "check_2")
                (integer_id_violation (fst kv) (fst prop) (snd prop)) st)
           (Dict.items (get_or_empty (dto_properties (snd kv)))) st)
      (Dict.items (get_or_empty (dtos g))) st in
  _print_results (txt "check_2") (txt "Integer IDs in DTOs") st.

(** [f"{x}"] of [d.get(key)]: a missing key prints as [None]. *)
Definition show_opt (s : option str) : str :=
  match s with
  | Some s => s
  | None => txt "None"
  end.

Definition check_idkey_routes (g : graph) (st : state) : state :=
  let st := print (nl ++ txt "Check 3: IdKey Routes") st in
  let st := print (dashes 50) st in
  let st :=
    fold_left
      (fun st kv =>
         fold_left
           (fun st ep =>
              let route := match ep_route ep with Some r => r | None => [] end in
              if contains (txt "{id}") route
              then record (txt "check_3")
                     (Violation (txt "Check 3") (txt "FAIL")
                        (fst kv ++ txt "." ++ show_opt (ep_name ep))
                        (txt "Route uses {id} instead of {idKey}: " ++ route)) st
              else st)
           (get_or_empty (endpoints (snd kv))) st)
      (Dict.items (get_or_empty (controllers g))) st in
  _print_results (txt "check_3") (txt "IdKey route patterns") st.

Definition check_hook_wrapping (g : graph) (st : state) : state :=
  let st := print (nl ++ txt "Check 4: Hook Wrapping") st in
  let st := print (dashes 50) st in
  let st :=
    fold_left
      (fun st kv =>
         let api_calls_directly :=
           match apiCallsDirectly (snd kv) with Some b => b | None => false end in
         if api_calls_directly
         then record (txt "check_4")
                (Violation (txt "Check 4") (txt "FAIL") (fst kv)
                   (txt "Component makes direct API calls instead of using hooks")) st
         else st)
      (Dict.items (get_or_empty (components g))) st in
  _print_results (txt "check_4") (txt "Hook wrapping pattern") st.

(** ** Check 5 *)

Definition FRONTEND_ALLOWLIST : list str :=
  map txt
    [ "CreateNotificationDto"; "BatchCheckinResultDto"; "BulkUpdatePreferencesDto";
      "BulkMarkAttendanceResultDto"; "BatchLabelRequestDto";
      "CapacityOverrideRequestDto"; "AttendanceAnalyticsDto"; "AttendanceTrendDto";
      "AttendanceByGroupDto"; "AttendanceSummaryDto"; "CreateGroupMemberDto";
      "UpdateGroupMemberDto"; "ImportFamilyResultDto"; "OfflineCheckinDto";
      "SystemStatisticsDto"; "AuditLogExportRequest"; "ExportJobDto";
      "StartExportRequest"; "EmailAttachmentDto"; "QueuedSmsDto"; "TwilioWebhookDto";
      "BatchStatementRequest"; "BatchFilterRequest"; "ReportDefinitionDto";
      "CreateReportDefinitionRequest"; "UpdateReportDefinitionRequest";
      "ReportRunDto"; "RunReportRequest"; "ReportScheduleDto";
      "CreateReportScheduleRequest"; "UpdateReportScheduleRequest";
      "SecurityRoleDto"; "SupervisorReprintRequest"; "MyFamilyMemberDto";
      "MyInvolvementGroupDto"; "PersonGroupMembershipDto"; "DashboardBatchDto";
      "CreateFamilyAddressRequest" ]%string.

Definition _pascal_to_camel_case (pascal : str) : str :=
  match pascal with
  | [] => pascal
  | a :: rest => lower_char a :: rest
  end.

(** A Python truth test on a string: the empty string is false. *)
Definition nonempty (s : option str) : option str :=
  match s with
  | Some (a :: s') => Some (a :: s')
  | _ => None
  end.

(** [x in [s1, s2, ...]] for a property value: only a string can be equal
    to one of the strings. *)
Definition value_in (v : value) (l : list str) : bool :=
  match v with
  | VStr s => str_in s l
  | VOther _ => false
  end.

Definition _compare_properties (dto_name : str) (dto_props : dict value)
           (type_props : dict value) : list str :=
  flat_map
    (fun prop =>
       let dto_prop := fst prop in
       let dto_type := snd prop in
       if str_in dto_prop [txt "Id"; txt "IdKey"; txt "Guid";
                           txt "CreatedDateTime"; txt "ModifiedDateTime"]
       then []
       else if value_in dto_type [txt "Stream"; txt "FileStream"; txt "IFormFile"]
       then []
       else
         let expected_ts_prop := _pascal_to_camel_case dto_prop in
         let found :=
           existsb (fun ts_prop => str_eqb (lower ts_prop) (lower expected_ts_prop))
                   (Dict.keys type_props) in
         if negb found
         then [ txt "Missing property: DTO has " ++ dto_prop ++ txt " ("
                  ++ show dto_type ++ txt ") but frontend type lacks "
                  ++ expected_ts_prop ]
         else [])
    (Dict.items dto_props).

(** DTOs that check 5 does not look at. *)
Definition skipped_dto (dto_name : str) : bool :=
  str_in dto_name FRONTEND_ALLOWLIST
  || endswith (txt "RequestDto") dto_name
  || endswith (txt "ResponseDto") dto_name.

Section SetOrder.

(** Python does not fix the order in which a [set] is iterated:
    [set_order elements] is the order of the run for the set built from
    [elements], some arrangement of its elements. *)
Variable set_order : list str -> list str.

(** [_find_matching_type(dto_name, available_types)], the set given by its
    elements. *)
Definition _find_matching_type (dto_name : str) (available_types : list str)
  : option str :=
  if str_in dto_name available_types then Some dto_name
  else
    let has_suffix := endswith (txt "Dto") dto_name in
    let without_suffix := firstn (length dto_name - 3) dto_name in
    if has_suffix && str_in without_suffix available_types then Some without_suffix
    else
      let base_name := if has_suffix then without_suffix else dto_name in
      let base_lower := lower base_name in
      find (fun available => str_eqb (lower available) base_lower)
           (set_order available_types).

(** The local lists of [check_type_alignment] next to the state. *)
Record alignment : Type := Alignment {
  al_state : state;
  dtos_without_types : list str;
  property_mismatches : list str
}.

(** [types[matching_type].get("properties", {})]; [matching_type] is a key
    of [types], so that the lookup finds it. *)
Definition properties_of (types : dict frontend_type) (matching_type : str)
  : dict value :=
  match Dict.get types matching_type with
  | Some t => get_or_empty (type_properties t)
  | None => []
  end.

(** The body of the first loop of check 5. *)
Definition align_dto (types : dict frontend_type) (available_type_names : list str)
           (al : alignment) (kv : str * dto) : alignment :=
  let dto_name := fst kv in
  let dto_info := snd kv in
  if skipped_dto dto_name then al
  else
    match nonempty (_find_matching_type dto_name available_type_names) with
    | None =>
        Alignment
          (record (txt "check_5")
             (Violation (txt "Check 5") (txt "FAIL") dto_name
                (txt "No corresponding frontend type found")) (al_state al))
          (dtos_without_types al ++ [dto_name])
          (property_mismatches al)
    | Some matching_type =>
        let dto_props := get_or_empty (dto_properties dto_info) in
        let type_props := properties_of types matching_type in
        let mismatches := _compare_properties dto_name dto_props type_props in
        match mismatches with
        | [] => al
        | _ :: _ =>
            Alignment
              (record_all (txt "check_5")
                 (map (fun mismatch =>
                         Violation (txt "Check 5") (txt "FAIL")
                           (dto_name ++ txt " ↔ " ++ matching_type) mismatch)
                      mismatches)
                 (al_state al))
              (dtos_without_types al)
              (property_mismatches al ++ [dto_name])
        end
    end.

(** The body of the second loop of check 5. *)
Definition warn_type (dtos : dict dto) (st : state) (type_name : str) : state :=
  if startswith (txt "_") type_name || contains (txt "Enum") type_name then st
  else
    match nonempty (_find_matching_type type_name (Dict.keys dtos)) with
    | None =>
        record (txt "check_5")
          (Violation (txt "Check 5") (txt "WARN") type_name
             (txt "Frontend type has no corresponding backend DTO (may be frontend-only)"))
          st
    | Some _ => st
    end.

Definition check_type_alignment (g : graph) (st : state) : state :=
  let st := print (nl ++ txt "Check 5: Type Alignment (Frontend ↔ Backend)") st in
  let st := print (dashes 50) st in
  let dtos := get_or_empty (dtos g) in
  let types := get_or_empty (types g) in
  match types with
  | [] =>
      let st := print (txt "  [INFO] Frontend types not yet generated in graph") st in
      let st := print (txt "         Backend has " ++ str_of_nat (length dtos)
                         ++ txt " DTOs") st in
      print (txt "         Run 'npm run graph:frontend' to generate frontend type information.") st
  | _ :: _ =>
      let available_type_names := Dict.keys types in
      let al :=
        fold_left (align_dto types available_type_names) (Dict.items dtos)
                  (Alignment st [] []) in
      let st := al_state al in
      let st := fold_left (warn_type dtos) (set_order available_type_names) st in
      let st :=
        match dtos_without_types al, property_mismatches al with
        | [], [] => st
        | _, _ =>
            let st := print (txt "  [INFO] Type alignment analysis:") st in
            let st :=
              print (txt "         DTOs checked: "
                       ++ str_of_nat (length dtos
                                      - length (filter skipped_dto (Dict.keys dtos)))) st in
            let st := print (txt "         Frontend types available: "
                               ++ str_of_nat (length types)) st in
            let st :=
              match dtos_without_types al with
              | [] => st
              | _ :: _ =>
                  print (txt "         DTOs without frontend types: "
                           ++ str_of_nat (length (dtos_without_types al))) st
              end in
            match property_mismatches al with
            | [] => st
            | _ :: _ =>
                print (txt "         DTOs with property mismatches: "
                         ++ str_of_nat (length (property_mismatches al))) st
            end
        end in
      _print_results (txt "check_5") (txt "Type alignment") st
  end.

(** ** [verify_all], [_summarize] and [main] *)

Definition is_fail (v : ContractViolation) : bool := str_eqb (severity v) (txt "FAIL").
Definition is_warn (v : ContractViolation) : bool := str_eqb (severity v) (txt "WARN").

(** [sum(len([v for v in vs if v.severity == sev]) for vs in
    self.violations.values())] *)
Definition count_severity (is_sev : ContractViolation -> bool) (st : state) : nat :=
  list_sum (map (fun vs => length (filter is_sev vs)) (Dict.values (violations st))).

Definition blocking_violations (st : state) : nat := count_severity is_fail st.
Definition warning_violations (st : state) : nat := count_severity is_warn st.

(** [_summarize]: the exit code and the state after the summary is
    printed. *)
Definition _summarize (st : state) : Z * state :=
  let blocking := blocking_violations st in
  let warnings := warning_violations st in
  let st := print (nl ++ equals 70) st in
  let st := print (txt "SUMMARY") st in
  let st := print (equals 70) st in
  let print_warnings st :=
    if 0 <? warnings
    then print (txt "  Warnings: " ++ str_of_nat warnings) st
    else st in
  if 0 <? blocking then
    let st := print (nl ++ txt "✗ VERIFICATION FAILED") st in
    let st := print (txt "  Blocking violations: " ++ str_of_nat blocking) st in
    (1%Z, print_warnings st)
  else
    let st := print (nl ++ txt "✓ VERIFICATION PASSED") st in
    (0%Z, print_warnings st).

(** The five checks of [verify_all], in order. *)
Definition run_checks (g : graph) (st : state) : state :=
  let st := check_response_envelopes g st in
  let st := check_no_integer_ids_in_dtos g st in
  let st := check_idkey_routes g st in
  let st := check_hook_wrapping g st in
  check_type_alignment g st.

Definition verify_all (g : graph) (st : state) : Z * state :=
  let st := print (equals 70) st in
  let st := print (txt "KOINON RMS CONTRACT VERIFICATION") st in
  let st := print (equals 70) st in
  _summarize (run_checks g st).

(** [main] for the path given on the command line: the exit status of
    the process and what it printed on standard output.  An exception that
    nothing catches ends the process with status 1.  With a string or an
    array in [self.graph] that is the [AttributeError] of the first
    [self.graph.get], after the headings of the run and of check 1. *)
Definition main (graph_path : str) (f : graph_file) : Z * list str :=
  match load_graph (path_str graph_path) f with
  | Exit2 message => (2%Z, [message])
  | Raised _ => (1%Z, [])
  | LoadedValue _ =>
      (1%Z,
       [ equals 70; txt "KOINON RMS CONTRACT VERIFICATION"; equals 70;
         nl ++ txt "Check 1: Response Envelope Documentation"; dashes 50 ])
  | Loaded g =>
      let '(exit_code, st) := verify_all g init in
      (exit_code, stdout st)
  end.

End SetOrder.

End ContractVerifier.

(* ===================================================================== *)
(** * Vocabulary of the statements *)
(* ===================================================================== *)

(** ** Runs of characters *)

(** The head of [s] does not satisfy [p]: a run of [p] ends here. *)
Definition stops (p : ascii -> bool) (s : str) : Prop :=
  match s with
  | a :: _ => p a = false
  | [] => True
  end.

(** [k] fails at [s] and at every later point of the run of [p] that
    starts at [s]. *)
Fixpoint fails_along (A : Type) (p : ascii -> bool) (k : str -> option A)
         (s : str) : Prop :=
  k s = None /\
  match s with
  | a :: s' => if p a then fails_along p k s' else True
  | [] => True
  end.

(** ** What a pattern stands for *)

(** The texts a pattern stands for, whatever the order in which the
    matcher tries them. *)
Inductive denotes : regex -> str -> Prop :=
| DEps : denotes Eps []
| DCls p a : p a = true -> denotes (Cls p) [a]
| DCat r1 r2 w1 w2 : denotes r1 w1 -> denotes r2 w2 -> denotes (Cat r1 r2) (w1 ++ w2)
| DAltL r1 r2 w : denotes r1 w -> denotes (Alt r1 r2) w
| DAltR r1 r2 w : denotes r2 w -> denotes (Alt r1 r2) w
| DStarNil g r : denotes (Star g r) []
| DStarApp g r w1 w2 :
    denotes r w1 -> denotes (Star g r) w2 -> denotes (Star g r) (w1 ++ w2)
| DGrp i r w : denotes r w -> denotes (Grp i r) w.

(** A pattern that may match the empty text. *)
Fixpoint nullable (r : regex) : bool :=
  match r with
  | Eps => true
  | Cls _ => false
  | Cat r1 r2 => nullable r1 && nullable r2
  | Alt r1 r2 => nullable r1 || nullable r2
  | Star _ _ => true
  | Grp _ r1 => nullable r1
  end.

(** What the matcher accepts: when [rmatch r s c k] succeeds, [s] starts
    with a text that [r] stands for, and [k] succeeded on what follows. *)
Definition accepts (A : Type) (r : regex) : Prop :=
  forall (s : str) (c : caps) (k : str -> caps -> option A) (x : A),
    rmatch r s c k = Some x ->
    exists w s' c', s = w ++ s' /\ denotes r w /\ k s' c' = Some x.

(** ** Constructor parameters *)

(** In [param] some white space is followed by a lower-case letter or an
    underscore. *)
Definition space_then_lower (param : str) : Prop :=
  exists pre sp c rest,
    param = pre ++ sp :: c :: rest
    /\ is_space sp = true
    /\ (is_lower_az c || ascii_eqb c "_") = true.

(** ** Property declarations *)

(** A character of a type token: no white space and neither [{] nor [;]. *)
Definition token_char (a : ascii) : bool :=
  negb (is_space a) && negb (one_of "{;" a).

(** A non-empty word of such characters, such as [Person] or [List<int>]. *)
Definition is_token (T : str) : bool :=
  match T with
  | [] => false
  | _ :: _ => forallb token_char T
  end.

(** A C# identifier, [[A-Za-z_][A-Za-z0-9_]*]. *)
Definition is_identifier (N : str) : bool :=
  match N with
  | a :: N' => CSharpParser.ident_start a && forallb CSharpParser.ident_char N'
  | [] => false
  end.

(** The property pattern from the name on, and from the type on. *)
Definition name_part : regex :=
  seq [Grp 2 CSharpParser.identifier; Star true ws; Cls (one_of "{;")].

Definition type_part : regex :=
  Cat (Grp 1 (Plus false (Cls dot))) (Cat (Plus true ws) name_part).

(** No point inside the type text [X] lets the rest of the pattern match. *)
Definition no_early_end (X rest : str) : Prop :=
  forall (A : Type) i (c : caps) (k : str -> caps -> option A),
    0 < i -> i < length X ->
    rmatch (Cat (Plus true ws) name_part) (skipn i X ++ rest) c k = None.

(** What [match_at] hands out at the end of a match that covers all of
    [content]. *)
Definition whole_match (content : str) (c : caps) : rmatch_obj :=
  MatchObj 0 (0 + (length content - length (@nil ascii))) c.

(** ** Routes *)

(** The name of a path parameter: not empty and without [}]. *)
Definition is_parameter_name (a : str) : bool :=
  match a with
  | [] => false
  | _ :: _ => forallb (none_of "}") a
  end.

(** A text without [{]. *)
Definition brace_free (s : str) : bool := forallb (none_of "{") s.

(** A route written as texts without [{] around its placeholders:
    [L {a1} R1 {a2} R2 ...] for [L] and the pairs [(a1, R1)], [(a2, R2)],
    ... *)
Fixpoint route_text (L : str) (rest : list (str * str)) : str :=
  match rest with
  | [] => L
  | (a, R) :: rest' => L ++ "{"%char :: a ++ "}"%char :: route_text R rest'
  end.

(** The texts are without [{] and the names are parameter names. *)
Definition route_parts (L : str) (rest : list (str * str)) : bool :=
  brace_free L
  && forallb (fun p => is_parameter_name (fst p) && brace_free (snd p)) rest.

(** The same texts with every parameter named [param]. *)
Definition renamed (rest : list (str * str)) : list (str * str) :=
  map (fun p => (txt "param", snd p)) rest.

(** ** Snake case *)

Definition lower_or_digit (a : ascii) : bool := is_lower_az a || is_digit a.

(** An underscore belongs between [a] and the text [rest] behind it:
    [rest] starts with a capital letter [A-Z], and either [a] is a
    lower-case letter or a digit, or [a] is not a newline and a lower-case
    letter follows the capital. *)
Definition word_boundary (a : ascii) (rest : str) : bool :=
  match rest with
  | b :: after =>
      is_upper_az b
      && (lower_or_digit a
          || (dot a && match after with c :: _ => is_lower_az c | [] => false end))
  | [] => false
  end.

(** [name] with an underscore at every such place. *)
Fixpoint with_underscores (name : str) : str :=
  match name with
  | [] => []
  | a :: rest =>
      if word_boundary a rest then a :: "_"%char :: with_underscores rest
      else a :: with_underscores rest
  end.

(** [rest] starts with a capital letter and a lower-case letter, and with
    a lower-case letter. *)
Definition starts_word (rest : str) : bool :=
  match rest with
  | b :: c :: _ => is_upper_az b && is_lower_az c
  | _ => false
  end.

Definition starts_lower (rest : str) : bool :=
  match rest with
  | b :: _ => is_lower_az b
  | [] => false
  end.

(** What the first substitution of [camel_to_snake] writes, character by
    character.  [taken] says that the character at the head is part of a
    match already, so that no match starts at it: matches do not
    overlap. *)
Fixpoint after_pass1 (taken : bool) (s : str) : str :=
  match s with
  | [] => []
  | a :: rest =>
      let starts := negb taken && dot a && starts_word rest in
      let next_taken := starts || (taken && starts_lower rest) in
      if starts then a :: "_"%char :: after_pass1 next_taken rest
      else a :: after_pass1 next_taken rest
  end.

(** What the second substitution writes. *)
Fixpoint after_pass2 (s : str) : str :=
  match s with
  | [] => []
  | a :: rest =>
      if match rest with
         | b :: _ => lower_or_digit a && is_upper_az b
         | [] => false
         end
      then a :: "_"%char :: after_pass2 rest
      else a :: after_pass2 rest
  end.

(** A character that a match of the first substitution has taken is a
    lower-case letter of its word or the capital before one. *)
Definition taken_char (taken : bool) (s : str) : Prop :=
  taken = true ->
  match s with
  | a :: rest =>
      is_lower_az a = true \/ (is_upper_az a = true /\ starts_lower rest = true)
  | [] => True
  end.

(** ** Balanced delimiters *)

(** How often a delimiter occurs in a text. *)
Definition occurrences (d : ascii) (s : str) : nat :=
  length (filter (ascii_eqb d) s).

(** No prefix of [s] closes more than it opens: scanning [s] from depth 1
    never brings the depth to zero. *)
Definition never_closed (opening closing : ascii) (s : str) : Prop :=
  forall n, n <= length s ->
    occurrences closing (firstn n s) <= occurrences opening (firstn n s).

(** [s] is what stands between a delimiter and its partner: it never
    closes more than it opens, and in the end it closes all it opened. *)
Definition balanced (opening closing : ascii) (s : str) : Prop :=
  never_closed opening closing s
  /\ occurrences closing s = occurrences opening s.

(** ** Sample texts *)

Definition async_sample : str :=
  txt "public async Task<string> AsyncMethod() { return null; }".

Definition async_sample_match : rmatch_obj :=
  hd (MatchObj 0 0 []) (finditer CSharpParser.method_pattern async_sample).

Definition record_with_Svc : str :=
  txt "record PersonDto(required string Name, required IService Svc)".

Definition record_with_svc : str :=
  txt "record PersonDto(required string Name, required IService svc)".

(** ** The verifier *)


(** Everything check 2 records for a graph. *)
Definition integer_id_violations (g : ContractVerifier.graph)
  : list ContractVerifier.ContractViolation :=
  flat_map
    (fun kv =>
       flat_map
         (fun prop =>
            ContractVerifier.integer_id_violation (fst kv) (fst prop) (snd prop))
         (Dict.items
            (ContractVerifier.get_or_empty (ContractVerifier.dto_properties (snd kv)))))
    (Dict.items (ContractVerifier.get_or_empty (ContractVerifier.dtos g))).

Definition check_keys : list str :=
  [txt "check_1"; txt "check_2"; txt "check_3"; txt "check_4"; txt "check_5"].

(** The FAIL findings of one check, and of all five. *)
Definition fails_of (key : str) (st : ContractVerifier.state) : nat :=
  length (filter ContractVerifier.is_fail (ContractVerifier.violations_of key st)).

Definition fail_findings (st : ContractVerifier.state) : nat :=
  fails_of (txt "check_1") st + fails_of (txt "check_2") st
  + fails_of (txt "check_3") st + fails_of (txt "check_4") st
  + fails_of (txt "check_5") st.

(** The state in which [verify_all] calls [_summarize]. *)
Definition state_at_summary (set_order : list str -> list str)
           (g : ContractVerifier.graph) : ContractVerifier.state :=
  ContractVerifier.run_checks set_order g
    (ContractVerifier.print (ContractVerifier.equals 70)
       (ContractVerifier.print (txt "KOINON RMS CONTRACT VERIFICATION")
          (ContractVerifier.print (ContractVerifier.equals 70) ContractVerifier.init))).

(** The state in which [verify_all] calls check 5. *)
Definition state_before_check_5 (g : ContractVerifier.graph) : ContractVerifier.state :=
  ContractVerifier.check_hook_wrapping g
    (ContractVerifier.check_idkey_routes g
       (ContractVerifier.check_no_integer_ids_in_dtos g
          (ContractVerifier.check_response_envelopes g
             (ContractVerifier.print (ContractVerifier.equals 70)
                (ContractVerifier.print (txt "KOINON RMS CONTRACT VERIFICATION")
                   (ContractVerifier.print (ContractVerifier.equals 70)
                      ContractVerifier.init)))))).

(** A graph without frontend types in which checks 1 to 4 find nothing. *)
Definition graph_without_types : ContractVerifier.graph :=
  ContractVerifier.Graph (Some []) (Some []) (Some []) (Some []) None.

(** A graph whose only finding is the WARN of check 5 for a frontend type
    without a DTO. *)
Definition graph_with_warning : ContractVerifier.graph :=
  ContractVerifier.Graph (Some []) (Some []) (Some []) (Some [])
    (Some [(txt "FrontOnly", ContractVerifier.FrontendType None)]).

(** A graph whose only finding is the FAIL of check 1 for a controller
    without [response_envelope]. *)
Definition graph_with_failure : ContractVerifier.graph :=
  ContractVerifier.Graph
    (Some [(txt "PeopleController", ContractVerifier.Controller None None)])
    (Some []) (Some []) (Some []) None.

(** A graph with one DTO and no frontend types, and the same graph with
    a frontend type that does not match the DTO. *)
Definition graph_with_dto_only : ContractVerifier.graph :=
  ContractVerifier.Graph (Some [])
    (Some [(txt "PersonDto", ContractVerifier.Dto None)])
    (Some []) (Some []) None.

Definition graph_with_other_type : ContractVerifier.graph :=
  ContractVerifier.Graph (Some [])
    (Some [(txt "PersonDto", ContractVerifier.Dto None)])
    (Some []) (Some [])
    (Some [(txt "Other", ContractVerifier.FrontendType None)]).

(** What check 5 prints when there are no frontend types. *)
Definition no_types_lines (g : ContractVerifier.graph) : list str :=
  [ ContractVerifier.nl ++ txt "Check 5: Type Alignment (Frontend ↔ Backend)";
    ContractVerifier.dashes 50;
    txt "  [INFO] Frontend types not yet generated in graph";
    txt "         Backend has "
      ++ ContractVerifier.str_of_nat
           (length (ContractVerifier.get_or_empty (ContractVerifier.dtos g)))
      ++ txt " DTOs";
    txt "         Run 'npm run graph:frontend' to generate frontend type information." ].

(** ** The merger *)

(** An edge as the graphs write it. *)
Definition sample_edge (source target relationship : string) : GraphMerger.json :=
  GraphMerger.JObj
    [ (txt "source", GraphMerger.JStr (txt source));
      (txt "target", GraphMerger.JStr (txt target));
      (txt "relationship", GraphMerger.JStr (txt relationship)) ].

(** Two graphs that have an edge in common. *)
Definition backend_with_edges : GraphMerger.backend_graph :=
  GraphMerger.BackendGraph None None None None
    (Some [ sample_edge "PeopleController" "PersonService" "depends_on";
            sample_edge "PersonService" "PersonDto" "returns" ]).

Definition frontend_with_edges : GraphMerger.frontend_graph :=
  GraphMerger.FrontendGraph None None None None
    (Some [ sample_edge "PersonService" "PersonDto" "returns";
            sample_edge "usePeople" "getPeople" "calls" ]).

(** ** Further vocabulary: the scraper *)

(** The double quote. *)
Definition quote : ascii := ascii_of_nat 34.

(** What a character adds to the bracket counter of
    [_split_parameters], and the counter after a text. *)
Definition bracket_delta (c : ascii) : Z :=
  if one_of "<[" c then 1%Z else if one_of ">]" c then (-1)%Z else 0%Z.

Fixpoint bracket_depth (s : str) : Z :=
  match s with
  | [] => 0%Z
  | c :: s' => (bracket_delta c + bracket_depth s')%Z
  end.

(** No comma of [s] stands where the counter is zero. *)
Definition no_top_level_comma (s : str) : Prop :=
  forall pre post, s = pre ++ ","%char :: post -> bracket_depth pre <> 0%Z.

(** The same as a test: [d] is the counter at the start of [s]. *)
Fixpoint has_top_level_comma (d : Z) (s : str) : bool :=
  match s with
  | [] => false
  | c :: s' =>
      (ascii_eqb c "," && (d =? 0)%Z) || has_top_level_comma (d + bracket_delta c) s'
  end.

(** White space, possibly none, and at least some. *)
Definition is_blank (s : str) : bool := forallb is_space s.

Definition is_spacing (s : str) : bool :=
  match s with
  | [] => false
  | _ :: _ => forallb is_space s
  end.

(** A dotted name, [[A-Za-z0-9._]+]. *)
Definition is_namespace_name (N : str) : bool :=
  match N with
  | [] => false
  | _ :: _ => forallb CSharpParser.namespace_char N
  end.

(** A non-empty text without quotes. *)
Definition is_unquoted (s : str) : bool :=
  match s with
  | [] => false
  | _ :: _ => forallb (fun a => negb (CSharpParser.is_quote a)) s
  end.

(** The name of a type as the navigation pattern has it, [[A-Za-z0-9_]+]. *)
Definition is_type_name (T : str) : bool :=
  match T with
  | [] => false
  | _ :: _ => forallb CSharpParser.ident_char T
  end.

(** [T[0].isupper()] *)
Definition starts_upper (T : str) : bool :=
  match T with
  | a :: _ => isupper_char a
  | [] => false
  end.

(** A character of a parameter type that is neither white space nor a
    comma. *)
Definition plain_type_char (a : ascii) : bool :=
  CSharpParser.record_type_char a && negb (is_space a) && negb (ascii_eqb a ",").

(** A parameter type of such characters, such as [string?] or
    [List<int>], other than the word [required]. *)
Definition is_plain_type (T : str) : bool :=
  match T with
  | [] => false
  | _ :: _ => forallb plain_type_char T && negb (str_eqb T (txt "required"))
  end.

(** The characters between the parentheses of [C(T N)]. *)
Definition param_char (a : ascii) : bool :=
  CSharpParser.record_type_char a && negb (ascii_eqb a ",").

(** The endpoints that [extract_endpoints] finds for one attribute name. *)
Definition endpoints_of (content http_method : str) : list CSharpParser.endpoint :=
  flat_map (CSharpParser.endpoint_of_match content http_method)
           (finditer (CSharpParser.http_attribute_pattern http_method) content).

Definition verbs : list str :=
  [txt "GET"; txt "POST"; txt "PUT"; txt "PATCH"; txt "DELETE"; txt "HEAD";
   txt "OPTIONS"].

(** ** Further vocabulary: the verifier *)

(** A graph with the four required sections and one controller, and one
    with one component. *)
Definition one_controller_graph (controller_name : str)
           (c : ContractVerifier.controller) : ContractVerifier.graph :=
  ContractVerifier.Graph (Some [(controller_name, c)]) (Some []) (Some []) (Some [])
                         None.

Definition one_component_graph (component_name : str)
           (c : ContractVerifier.component) : ContractVerifier.graph :=
  ContractVerifier.Graph (Some []) (Some []) (Some [(component_name, c)]) (Some [])
                         None.

(** [endpoint.get("route", "")] *)
Definition route_of (ep : ContractVerifier.endpoint) : str :=
  match ContractVerifier.ep_route ep with
  | Some r => r
  | None => []
  end.

(** What check 1 records for one controller, check 3 for one endpoint and
    for one controller, and check 4 for one component. *)
Definition envelope_finding (kv : str * ContractVerifier.controller)
  : list ContractVerifier.ContractViolation :=
  if negb (Dict.mem (txt "response_envelope")
             (ContractVerifier.get_or_empty (ContractVerifier.patterns (snd kv))))
  then [ ContractVerifier.Violation (txt "Check 1") (txt "FAIL") (fst kv)
           (txt "Missing response_envelope documentation in patterns") ]
  else [].

Definition route_finding (controller_name : str) (ep : ContractVerifier.endpoint)
  : list ContractVerifier.ContractViolation :=
  if contains (txt "{id}") (route_of ep)
  then [ ContractVerifier.Violation (txt "Check 3") (txt "FAIL")
           (controller_name ++ txt "."
              ++ ContractVerifier.show_opt (ContractVerifier.ep_name ep))
           (txt "Route uses {id} instead of {idKey}: " ++ route_of ep) ]
  else [].

Definition route_findings (kv : str * ContractVerifier.controller)
  : list ContractVerifier.ContractViolation :=
  flat_map (route_finding (fst kv))
           (ContractVerifier.get_or_empty (ContractVerifier.endpoints (snd kv))).

Definition direct_call_finding (kv : str * ContractVerifier.component)
  : list ContractVerifier.ContractViolation :=
  match ContractVerifier.apiCallsDirectly (snd kv) with
  | Some true =>
      [ ContractVerifier.Violation (txt "Check 4") (txt "FAIL") (fst kv)
          (txt "Component makes direct API calls instead of using hooks") ]
  | _ => []
  end.

(** The name that [_find_matching_type] compares without regard to case:
    the DTO name without a [Dto] suffix. *)
Definition base_name (dto_name : str) : str :=
  if endswith (txt "Dto") dto_name
  then firstn (length dto_name - 3) dto_name
  else dto_name.

(** [set_order] arranges the elements it is given. *)
Definition arranges (set_order : list str -> list str) : Prop :=
  forall l x, In x (set_order l) <-> In x l.

(** The properties that [_compare_properties] does not look for. *)
Definition not_compared (prop : str * ContractVerifier.value) : bool :=
  str_in (fst prop) [txt "Id"; txt "IdKey"; txt "Guid";
                     txt "CreatedDateTime"; txt "ModifiedDateTime"]
  || ContractVerifier.value_in (snd prop)
       [txt "Stream"; txt "FileStream"; txt "IFormFile"].

(** Some key of [type_props] is [name] up to the case of its letters. *)
Definition has_property (type_props : dict ContractVerifier.value) (name : str) : bool :=
  existsb (fun ts_prop => str_eqb (lower ts_prop) (lower name)) (Dict.keys type_props).

(** What the first loop of check 5 records for one DTO. *)
Definition alignment_findings (set_order : list str -> list str)
           (types : dict ContractVerifier.frontend_type)
           (kv : str * ContractVerifier.dto)
  : list ContractVerifier.ContractViolation :=
  if ContractVerifier.skipped_dto (fst kv) then []
  else
    match ContractVerifier.nonempty
            (ContractVerifier._find_matching_type set_order (fst kv) (Dict.keys types))
    with
    | None =>
        [ ContractVerifier.Violation (txt "Check 5") (txt "FAIL") (fst kv)
            (txt "No corresponding frontend type found") ]
    | Some matching_type =>
        map (fun mismatch =>
               ContractVerifier.Violation (txt "Check 5") (txt "FAIL")
                 (fst kv ++ txt " ↔ " ++ matching_type) mismatch)
            (ContractVerifier._compare_properties (fst kv)
               (ContractVerifier.get_or_empty (ContractVerifier.dto_properties (snd kv)))
               (ContractVerifier.properties_of types matching_type))
    end.

(** What the second loop of check 5 records for one frontend type. *)
Definition warning_findings (set_order : list str -> list str)
           (dtos : dict ContractVerifier.dto) (type_name : str)
  : list ContractVerifier.ContractViolation :=
  if startswith (txt "_") type_name || contains (txt "Enum") type_name then []
  else
    match ContractVerifier.nonempty
            (ContractVerifier._find_matching_type set_order type_name (Dict.keys dtos))
    with
    | None =>
        [ ContractVerifier.Violation (txt "Check 5") (txt "WARN") type_name
            (txt "Frontend type has no corresponding backend DTO (may be frontend-only)") ]
    | Some _ => []
    end.

(* ===================================================================== *)
(** * Facts about text *)
(* ===================================================================== *)

Lemma ascii_eqb_eq (a b : ascii) : ascii_eqb a b = true <-> a = b.
Proof. unfold ascii_eqb. apply Ascii.eqb_eq. Qed.

Lemma ascii_eqb_sym (a b : ascii) : ascii_eqb a b = ascii_eqb b a.
Proof. unfold ascii_eqb. apply Ascii.eqb_sym. Qed.

Lemma str_eqb_eq (s t : str) : str_eqb s t = true <-> s = t.
Proof.
  revert t. induction s as [|a s IH]; intros [|b t]; simpl; split;
    try congruence; try reflexivity.
  - rewrite andb_true_iff, ascii_eqb_eq, IH. intros [-> ->]. reflexivity.
  - intros E. injection E as -> ->.
    rewrite andb_true_iff, ascii_eqb_eq, IH. split; reflexivity.
Qed.

Lemma str_eqb_refl (s : str) : str_eqb s s = true.
Proof. apply str_eqb_eq. reflexivity. Qed.

Lemma lower_char_not_upper (a : ascii) : is_upper_az (lower_char a) = false.
Proof. destruct a as [[] [] [] [] [] [] [] []]; reflexivity. Qed.

Lemma firstn_split_at (A : Type) (s : list A) (i j : nat) :
  i <= j -> firstn j s = firstn i s ++ firstn (j - i) (skipn i s).
Proof.
  revert s j. induction i as [|i IH]; intros s j Hij.
  - simpl. rewrite Nat.sub_0_r. reflexivity.
  - destruct j as [|j]; [lia|]. destruct s as [|a s]; simpl.
    + rewrite firstn_nil. reflexivity.
    + f_equal. apply IH. lia.
Qed.

(* ===================================================================== *)
(** * Facts about the matcher *)
(* ===================================================================== *)

Module ReFacts.

(** One step of a repetition of a one-character item. *)
Lemma star_cls_unfold (A : Type) (g : bool) (p : ascii -> bool) (s : str) (c : caps)
      (k : str -> caps -> option A) :
  rmatch (Star g (Cls p)) s c k
  = match s with
    | a :: s' =>
        if p a then
          if g then
            match rmatch (Star g (Cls p)) s' c k with
            | Some x => Some x
            | None => k s c
            end
          else
            match k s c with
            | Some x => Some x
            | None => rmatch (Star g (Cls p)) s' c k
            end
        else k s c
    | [] => k s c
    end.
Proof.
  destruct s as [|a s']; [reflexivity|].
  change (rmatch (Star g (Cls p)) (a :: s') c k)
    with (star_loop (fun s1 c1 k1 => rmatch (Cls p) s1 c1 k1) g k
            (S (length s')) (a :: s') c).
  change (rmatch (Star g (Cls p)) s' c k)
    with (star_loop (fun s1 c1 k1 => rmatch (Cls p) s1 c1 k1) g k
            (length s') s' c).
  set (loop := star_loop (fun s1 c1 k1 => rmatch (Cls p) s1 c1 k1) g k).
  assert (E : loop (S (length s')) (a :: s') c
              = let again :=
                  fun (_ : unit) =>
                    rmatch (Cls p) (a :: s') c
                      (fun s2 c2 =>
                         if length s2 <? length (a :: s') then loop (length s') s2 c2
                         else None) in
                if g then
                  match again tt with
                  | Some x => Some x
                  | None => k (a :: s') c
                  end
                else
                  match k (a :: s') c with
                  | Some x => Some x
                  | None => again tt
                  end) by reflexivity.
  rewrite E. cbn [rmatch length]. destruct (p a) eqn:Ep.
  - replace (length s' <? S (length s')) with true
      by (symmetry; apply Nat.ltb_lt; lia).
    reflexivity.
  - destruct g; [reflexivity|]. destruct (k (a :: s') c); reflexivity.
Qed.

(** The equations of the matcher. *)
Lemma rmatch_eps (A : Type) (s : str) (c : caps) (k : str -> caps -> option A) :
  rmatch Eps s c k = k s c.
Proof. reflexivity. Qed.

Lemma rmatch_cls (A : Type) (p : ascii -> bool) (a : ascii) (s : str) (c : caps)
      (k : str -> caps -> option A) :
  rmatch (Cls p) (a :: s) c k = if p a then k s c else None.
Proof. reflexivity. Qed.

Lemma rmatch_cls_nil (A : Type) (p : ascii -> bool) (c : caps)
      (k : str -> caps -> option A) :
  rmatch (Cls p) [] c k = None.
Proof. reflexivity. Qed.

Lemma rmatch_cat (A : Type) (r1 r2 : regex) (s : str) (c : caps)
      (k : str -> caps -> option A) :
  rmatch (Cat r1 r2) s c k = rmatch r1 s c (fun s' c' => rmatch r2 s' c' k).
Proof. reflexivity. Qed.

Lemma rmatch_alt (A : Type) (r1 r2 : regex) (s : str) (c : caps)
      (k : str -> caps -> option A) :
  rmatch (Alt r1 r2) s c k
  = match rmatch r1 s c k with
    | Some x => Some x
    | None => rmatch r2 s c k
    end.
Proof. reflexivity. Qed.

Lemma rmatch_grp (A : Type) (i : nat) (r : regex) (s : str) (c : caps)
      (k : str -> caps -> option A) :
  rmatch (Grp i r) s c k
  = rmatch r s c (fun s' c' => k s' ((i, firstn (length s - length s') s) :: c')).
Proof. reflexivity. Qed.

(** A literal matches itself. *)
Lemma rmatch_lit (A : Type) (l s : str) (c : caps) (k : str -> caps -> option A) :
  rmatch (lit_str l) (l ++ s) c k = k s c.
Proof.
  induction l as [|a l IH]; [reflexivity|].
  cbn [lit_str rmatch app chr]. rewrite (proj2 (ascii_eqb_eq a a) eq_refl). exact IH.
Qed.

(** A greedy repetition takes the whole run when what follows accepts
    that. *)
Lemma star_greedy_run (A : Type) (p : ascii -> bool) (run rest : str) (c : caps)
      (k : str -> caps -> option A) (x : A) :
  forallb p run = true -> stops p rest -> k rest c = Some x ->
  rmatch (Star true (Cls p)) (run ++ rest) c k = Some x.
Proof.
  intros Hrun Hstop Hk. induction run as [|a run IH].
  - rewrite star_cls_unfold. simpl. destruct rest as [|b rest]; [exact Hk|].
    simpl in Hstop. rewrite Hstop. exact Hk.
  - simpl in Hrun. apply andb_true_iff in Hrun. destruct Hrun as [Ha Hrun].
    rewrite star_cls_unfold. cbn [app]. rewrite Ha, (IH Hrun). reflexivity.
Qed.

Lemma star_greedy_fails (A : Type) (p : ascii -> bool) (s : str) (c : caps)
      (k : str -> caps -> option A) :
  fails_along p (fun s' => k s' c) s ->
  rmatch (Star true (Cls p)) s c k = None.
Proof.
  induction s as [|a s IH]; intros [Hk Hrest]; rewrite star_cls_unfold.
  - exact Hk.
  - destruct (p a); [|exact Hk]. rewrite (IH Hrest). exact Hk.
Qed.

(** A lazy repetition moves on through a run as long as what follows
    fails. *)
Lemma star_lazy_skip (A : Type) (p : ascii -> bool) (run rest : str) (c : caps)
      (k : str -> caps -> option A) :
  forallb p run = true ->
  (forall i, i < length run -> k (skipn i run ++ rest) c = None) ->
  rmatch (Star false (Cls p)) (run ++ rest) c k
  = rmatch (Star false (Cls p)) rest c k.
Proof.
  induction run as [|a run IH]; intros Hrun Hk; [reflexivity|].
  simpl in Hrun. apply andb_true_iff in Hrun. destruct Hrun as [Ha Hrun].
  rewrite star_cls_unfold. cbn [app]. rewrite Ha.
  assert (H0 := Hk 0 ltac:(simpl; lia)). cbn [skipn app] in H0. rewrite H0.
  apply IH; [exact Hrun|]. intros i Hi. apply (Hk (S i)). simpl. lia.
Qed.

Lemma firstn_app_minus (A : Type) (s t : list A) :
  firstn (length (s ++ t) - length t) (s ++ t) = s.
Proof.
  rewrite length_app. replace (length s + length t - length t) with (length s + 0) by lia.
  rewrite firstn_app_2. simpl. apply app_nil_r.
Qed.

End ReFacts.

(* ===================================================================== *)
(** * The matcher accepts what the pattern stands for *)
(* ===================================================================== *)

Module Soundness.

Lemma rmatch_star (A : Type) (g : bool) (r : regex) (s : str) (c : caps)
      (k : str -> caps -> option A) :
  rmatch (Star g r) s c k
  = star_loop (fun s' c' k' => rmatch r s' c' k') g k (length s) s c.
Proof. reflexivity. Qed.

Lemma star_loop_sound (A : Type) (g : bool) (r : regex)
      (k : str -> caps -> option A) (x : A) :
  accepts A r ->
  forall fuel s c,
    star_loop (fun s c k => rmatch r s c k) g k fuel s c = Some x ->
    exists w s' c', s = w ++ s' /\ denotes (Star g r) w /\ k s' c' = Some x.
Proof.
  intros Hr. induction fuel as [|fuel IH]; intros s c H.
  - exists [], s, c. repeat split; [constructor|exact H].
  - cbn [star_loop] in H.
    assert (Again : rmatch r s c
                      (fun s' c' =>
                         if length s' <? length s
                         then star_loop (fun s c k => rmatch r s c k) g k fuel s' c'
                         else None) = Some x ->
                    exists w s' c', s = w ++ s' /\ denotes (Star g r) w /\ k s' c' = Some x).
    { intros Ha. destruct (Hr _ _ _ _ Ha) as [w1 [s1 [c1 [E [D1 Hk]]]]].
      destruct (length s1 <? length s); [|discriminate].
      destruct (IH _ _ Hk) as [w2 [s2 [c2 [E2 [D2 Hk2]]]]].
      exists (w1 ++ w2), s2, c2. repeat split.
      - rewrite E, E2, app_assoc. reflexivity.
      - constructor; assumption.
      - exact Hk2. }
    assert (Stop : k s c = Some x ->
                   exists w s' c', s = w ++ s' /\ denotes (Star g r) w /\ k s' c' = Some x).
    { intros Hk. exists [], s, c. repeat split; [constructor|exact Hk]. }
    destruct g.
    + destruct (rmatch r s c _) eqn:E.
      * apply Again. exact H.
      * apply Stop. exact H.
    + destruct (k s c) eqn:E.
      * apply Stop. exact H.
      * apply Again. exact H.
Qed.

Theorem rmatch_sound (A : Type) (r : regex) : accepts A r.
Proof.
  induction r as [|p|r1 IH1 r2 IH2|r1 IH1 r2 IH2|g r IH|i r IH];
    intros s c k x H.
  - exists [], s, c. repeat split; [constructor|exact H].
  - destruct s as [|a s]; [discriminate|]. cbn [rmatch] in H.
    destruct (p a) eqn:Ep; [|discriminate].
    exists [a], s, c. repeat split; [constructor; exact Ep|exact H].
  - cbn [rmatch] in H.
    destruct (IH1 _ _ _ _ H) as [w1 [s1 [c1 [E1 [D1 H1]]]]].
    destruct (IH2 _ _ _ _ H1) as [w2 [s2 [c2 [E2 [D2 H2]]]]].
    exists (w1 ++ w2), s2, c2. repeat split.
    + rewrite E1, E2, app_assoc. reflexivity.
    + constructor; assumption.
    + exact H2.
  - cbn [rmatch] in H. destruct (rmatch r1 s c k) eqn:E.
    + injection H as ->.
      destruct (IH1 _ _ _ _ E) as [w [s' [c' [Es [D Hk]]]]].
      exists w, s', c'. repeat split; [exact Es|apply DAltL; exact D|exact Hk].
    + destruct (IH2 _ _ _ _ H) as [w [s' [c' [Es [D Hk]]]]].
      exists w, s', c'. repeat split; [exact Es|apply DAltR; exact D|exact Hk].
  - rewrite rmatch_star in H. exact (@star_loop_sound A g r k x IH _ _ _ H).
  - cbn [rmatch] in H.
    destruct (IH _ _ _ _ H) as [w [s' [c' [Es [D Hk]]]]].
    exists w, s', ((i, firstn (length s - length s') s) :: c').
    repeat split; [exact Es|constructor; exact D|exact Hk].
Qed.

End Soundness.

(* ===================================================================== *)
(** * The bounds of the loops are never reached *)
(* ===================================================================== *)

Module FuelFacts.

Import Soundness.

(** The matcher only looks at what its continuation returns. *)
Lemma rmatch_ext (A : Type) (r : regex) :
  forall (s : str) (c : caps) (k1 k2 : str -> caps -> option A),
    (forall s' c', k1 s' c' = k2 s' c') ->
    rmatch r s c k1 = rmatch r s c k2.
Proof.
  induction r as [|p|r1 IH1 r2 IH2|r1 IH1 r2 IH2|g r IH|i r IH]; intros s c k1 k2 E.
  - apply E.
  - cbn [rmatch]. destruct s as [|a s]; [reflexivity|]. destruct (p a); [apply E|reflexivity].
  - cbn [rmatch]. apply IH1. intros s' c'. apply IH2. exact E.
  - cbn [rmatch]. rewrite (IH1 s c k1 k2 E), (IH2 s c k1 k2 E). reflexivity.
  - rewrite !rmatch_star. generalize (length s). intros fuel.
    revert s c. induction fuel as [|fuel IHf]; intros s c.
    + apply E.
    + cbn [star_loop].
      rewrite (IH s c
                 (fun s' c' =>
                    if length s' <? length s
                    then star_loop (fun s1 c1 k' => rmatch r s1 c1 k') g k1 fuel s' c'
                    else None)
                 (fun s' c' =>
                    if length s' <? length s
                    then star_loop (fun s1 c1 k' => rmatch r s1 c1 k') g k2 fuel s' c'
                    else None)).
      * rewrite (E s c). reflexivity.
      * intros s' c'. destruct (length s' <? length s); [apply IHf|reflexivity].
  - cbn [rmatch]. apply IH. intros s' c'. apply E.
Qed.

Lemma rmatch_none (A : Type) (r : regex) (s : str) (c : caps)
      (k : str -> caps -> option A) :
  (forall s' c', k s' c' = None) -> rmatch r s c k = None.
Proof.
  intros Hk. destruct (rmatch r s c k) as [x|] eqn:E; [|reflexivity].
  destruct (@rmatch_sound A r s c k x E) as [w [s' [c' [_ [_ H]]]]].
  rewrite Hk in H. discriminate.
Qed.

(** The loop of a repetition never uses up its fuel: any fuel that is at
    least the length of the input gives the same result. *)
Lemma star_loop_fuel (A : Type) (g : bool) (r : regex) (k : str -> caps -> option A) :
  forall f1 f2 s c,
    length s <= f1 -> length s <= f2 ->
    star_loop (fun s1 c1 k' => rmatch r s1 c1 k') g k f1 s c
    = star_loop (fun s1 c1 k' => rmatch r s1 c1 k') g k f2 s c.
Proof.
  assert (Z : forall f s c,
             length s = 0 ->
             star_loop (fun s1 c1 k' => rmatch r s1 c1 k') g k f s c = k s c).
  { intros [|f] s c Hs; [reflexivity|]. cbn [star_loop].
    rewrite rmatch_none.
    - destruct g; [reflexivity|]. destruct (k s c); reflexivity.
    - intros s' c'. rewrite Hs. reflexivity. }
  induction f1 as [|f1 IH]; intros f2 s c H1 H2.
  - rewrite !Z by lia. reflexivity.
  - destruct f2 as [|f2]; [rewrite !Z by lia; reflexivity|].
    cbn [star_loop].
    rewrite (@rmatch_ext A r s c
               (fun s' c' =>
                  if length s' <? length s
                  then star_loop (fun s1 c1 k' => rmatch r s1 c1 k') g k f1 s' c'
                  else None)
               (fun s' c' =>
                  if length s' <? length s
                  then star_loop (fun s1 c1 k' => rmatch r s1 c1 k') g k f2 s' c'
                  else None)).
    + reflexivity.
    + intros s' c'. destruct (length s' <? length s) eqn:E; [|reflexivity].
      apply Nat.ltb_lt in E. apply IH; lia.
Qed.

Lemma denotes_nonempty (r : regex) (w : str) :
  denotes r w -> nullable r = false -> w <> [].
Proof.
  induction 1; cbn [nullable]; intros Hn; try discriminate.
  - apply andb_false_iff in Hn. intros E. apply app_eq_nil in E. destruct E as [E1 E2].
    destruct Hn as [Hn|Hn]; [apply (IHdenotes1 Hn E1)|apply (IHdenotes2 Hn E2)].
  - apply orb_false_iff in Hn. apply IHdenotes. apply Hn.
  - apply orb_false_iff in Hn. apply IHdenotes. apply Hn.
  - apply IHdenotes. exact Hn.
Qed.

(** A match at [pos] covers a text that the pattern stands for. *)
Lemma match_at_span (r : regex) (pos : nat) (s : str) (m : rmatch_obj) :
  match_at r pos s = Some m ->
  exists w s', s = w ++ s' /\ denotes r w
               /\ m_start m = pos /\ m_end m = pos + length w.
Proof.
  unfold match_at. intros H.
  destruct (@rmatch_sound _ r s [] _ m H) as [w [s' [c' [E [D Hk]]]]].
  injection Hk as <-. exists w, s'. repeat split; try assumption.
  cbn [m_end]. rewrite E, length_app. lia.
Qed.

Lemma search_from_span (r : regex) (s : str) :
  forall pos m,
    search_from r pos s = Some m ->
    exists w, denotes r w /\ pos <= m_start m
              /\ m_end m = m_start m + length w
              /\ m_end m <= pos + length s.
Proof.
  induction s as [|a s IH]; intros pos m H; cbn [search_from] in H.
  - destruct (match_at r pos []) as [m'|] eqn:E; [|discriminate].
    injection H as ->.
    destruct (match_at_span _ _ _ E) as [w [s' [Es [D [Hs He]]]]].
    exists w. repeat split; try assumption; try lia.
    apply (f_equal (@length ascii)) in Es. rewrite length_app in Es. simpl in Es.
    simpl. lia.
  - destruct (match_at r pos (a :: s)) as [m'|] eqn:E.
    + injection H as ->.
      destruct (match_at_span _ _ _ E) as [w [s' [Es [D [Hs He]]]]].
      exists w. repeat split; try assumption; try lia.
      apply (f_equal (@length ascii)) in Es. rewrite length_app in Es. lia.
    + destruct (IH _ _ H) as [w [D [Hs [He Hb]]]].
      exists w. repeat split; try assumption; try lia. simpl. lia.
Qed.

(** [finditer] never uses up its fuel for a pattern that cannot match the
    empty text: any fuel above the length of the text gives the same
    matches. *)
Lemma finditer_from_fuel (r : regex) :
  nullable r = false ->
  forall f1 f2 pos s,
    length s < f1 -> length s < f2 ->
    finditer_from f1 r pos s = finditer_from f2 r pos s.
Proof.
  intros Hn. induction f1 as [|f1 IH]; intros f2 pos s H1 H2; [lia|].
  destruct f2 as [|f2]; [lia|]. cbn [finditer_from].
  destruct (search_from r pos s) as [m|] eqn:E; [|reflexivity].
  destruct (search_from_span _ _ _ E) as [w [D [Hs [He Hb]]]].
  assert (Hw : length w <> 0).
  { intros Hw. apply (denotes_nonempty D Hn). destruct w; [reflexivity|discriminate]. }
  destruct (Nat.eqb_spec (m_end m) (m_start m)); [lia|].
  f_equal. apply IH; rewrite length_skipn; lia.
Qed.

(** [replace] never uses up its fuel either. *)
Lemma replace_go_fuel (old new : str) :
  old <> [] ->
  forall f1 f2 s,
    length s <= f1 -> length s <= f2 ->
    replace_go f1 old new s = replace_go f2 old new s.
Proof.
  intros Hold. induction f1 as [|f1 IH]; intros f2 s H1 H2.
  - destruct s; [|simpl in H1; lia]. destruct f2; reflexivity.
  - destruct f2 as [|f2].
    + destruct s; [reflexivity|simpl in H2; lia].
    + cbn [replace_go]. destruct s as [|a s]; [reflexivity|].
      destruct (startswith old (a :: s)).
      * f_equal. apply IH; rewrite length_skipn; simpl in *;
          destruct old; [congruence| |congruence|]; simpl; lia.
      * f_equal. apply IH; simpl in *; lia.
Qed.

(** No pattern of the scripts matches the empty text. *)
Lemma patterns_not_nullable :
  nullable CSharpParser.property_pattern = false
  /\ nullable CSharpParser.method_pattern = false
  /\ nullable CSharpParser.primary_constructor_pattern = false
  /\ nullable CSharpParser.param_type_pattern = false
  /\ nullable CSharpParser.camel_pass1 = false
  /\ nullable CSharpParser.camel_pass2 = false
  /\ nullable GraphMerger.placeholder = false
  /\ forall class_name, nullable (CSharpParser.class_header_pattern class_name) = false.
Proof. repeat split. Qed.

End FuelFacts.

(* ===================================================================== *)
(** * Facts about the parameter pattern *)
(* ===================================================================== *)

Module DependencyFacts.

Import Soundness CSharpParser.

Lemma denotes_star_cls (g : bool) (p : ascii -> bool) (w : str) :
  denotes (Star g (Cls p)) w -> forallb p w = true.
Proof.
  intros D. remember (Star g (Cls p)) as r eqn:Er.
  induction D; try discriminate.
  - reflexivity.
  - injection Er as -> ->. inversion D1; subst. simpl.
    rewrite H0. apply IHD2. reflexivity.
Qed.

(** A run [\s+] ends with white space. *)
Lemma denotes_ws_plus (w : str) :
  denotes (Plus true ws) w -> exists init sp, w = init ++ [sp] /\ is_space sp = true.
Proof.
  intros D. unfold Plus, ws in D. inversion D as [| |r1 r2 w1 w2 D1 D2| | | | |]; subst.
  inversion D1; subst. apply denotes_star_cls in D2.
  destruct (@exists_last _ (a :: w2)) as [init [sp E]]; [discriminate|].
  exists init, sp. split; [exact E|].
  assert (Hall : forallb is_space (a :: w2) = true) by (simpl; rewrite H0; exact D2).
  rewrite forallb_forall in Hall. apply Hall. cbn [app] in E. rewrite E.
  apply in_or_app. right. left. reflexivity.
Qed.

(** What the parameter pattern matches ends with white space and a
    lower-case letter or an underscore. *)
Lemma denotes_param_type_pattern (w : str) :
  denotes param_type_pattern w ->
  exists pre sp c,
    w = pre ++ [sp; c] /\ is_space sp = true
    /\ (is_lower_az c || ascii_eqb c "_") = true.
Proof.
  unfold param_type_pattern. cbn [seq]. intros D.
  inversion D as [| |r1 r2 w1 w2 D1 D2| | | | |]; subst. clear D D1.
  inversion D2 as [| |r1 r2 w3 w4 D3 D4| | | | |]; subst. clear D2 D3.
  inversion D4 as [| |r1 r2 w5 w6 D5 D6| | | | |]; subst. clear D4.
  inversion D6 as [| |r1 r2 w7 w8 D7 D8| | | | |]; subst. clear D6.
  inversion D7; subst. inversion D8; subst.
  destruct (denotes_ws_plus D5) as [init [sp [-> Hsp]]].
  exists (w1 ++ w3 ++ init), sp, a. split; [|split; assumption].
  rewrite app_nil_r, <- !app_assoc. reflexivity.
Qed.

(** A parameter yields a dependency only when, in it, white space is
    followed by a lower-case letter or an underscore. *)
Lemma dependency_needs_lower_case_name (param : str) :
  dependency_of_param param <> [] -> space_then_lower (strip param).
Proof.
  unfold dependency_of_param. destruct (strip param) as [|a p] eqn:Ep; [congruence|].
  destruct (match_at param_type_pattern 0 (a :: p)) as [m|] eqn:Em; [|congruence].
  intros _. unfold match_at in Em.
  destruct (@rmatch_sound _ _ _ _ _ _ Em) as [w [s' [c' [E [D _]]]]].
  destruct (denotes_param_type_pattern D) as [pre [sp [c [-> [Hsp Hc]]]]].
  exists pre, sp, c, s'. split; [|split; assumption].
  rewrite E, <- app_assoc. reflexivity.
Qed.

End DependencyFacts.

(* ===================================================================== *)
(** * Facts about the property pattern *)
(* ===================================================================== *)

Module PropertyFacts.

Import ReFacts CSharpParser.

Lemma property_pattern_parts :
  property_pattern
  = Cat (lit "public") (Cat (Plus true ws) (Cat (Opt (keyword "required")) type_part)).
Proof. reflexivity. Qed.

Lemma ident_start_token (a : ascii) : ident_start a = true -> token_char a = true.
Proof. destruct a as [[] [] [] [] [] [] [] []]; vm_compute; congruence. Qed.

Lemma token_char_dot (a : ascii) : token_char a = true -> dot a = true.
Proof. destruct a as [[] [] [] [] [] [] [] []]; vm_compute; congruence. Qed.

Lemma token_char_spec (a : ascii) :
  token_char a = true -> is_space a = false /\ one_of "{;" a = false.
Proof.
  unfold token_char. rewrite andb_true_iff, !negb_true_iff. tauto.
Qed.

(** What follows the name, [\s*[{;]], fails all along a type token that
    is followed by a blank and another token. *)
Lemma after_name_fails (A : Type) (r : str) (cps : str -> caps)
      (k : str -> caps -> option A) :
  stops is_space r -> stops (one_of "{;") r ->
  forall T,
    forallb token_char T = true ->
    fails_along ident_char
      (fun s' => rmatch (seq [Star true ws; Cls (one_of "{;")]) s' (cps s') k)
      (T ++ " "%char :: r).
Proof.
  intros Hs Hb. induction T as [|t T IH]; intros HT.
  - cbn [app fails_along seq]. split; [|reflexivity].
    rewrite rmatch_cat. unfold ws. rewrite star_cls_unfold.
    change (is_space " ") with true. cbv iota.
    rewrite star_cls_unfold. destruct r as [|b r'].
    + rewrite rmatch_cat, rmatch_cls_nil. rewrite rmatch_cat, rmatch_cls. reflexivity.
    + simpl in Hs, Hb. rewrite Hs. rewrite rmatch_cat, rmatch_cls, Hb.
      rewrite rmatch_cat, rmatch_cls. reflexivity.
  - simpl in HT. apply andb_true_iff in HT. destruct HT as [Ht HT].
    apply token_char_spec in Ht. destruct Ht as [Hts Htb].
    cbn [app fails_along seq]. split.
    + rewrite rmatch_cat. unfold ws. rewrite star_cls_unfold, Hts.
      rewrite rmatch_cat, rmatch_cls, Htb. reflexivity.
    + destruct (ident_char t); [apply IH; exact HT|exact I].
Qed.

(** The name part cannot match at a type token that is followed by a blank
    and another token: no [{] or [;] is in reach. *)
Lemma name_part_fails_at_token (A : Type) (T r : str) (c : caps)
      (k : str -> caps -> option A) :
  forallb token_char T = true ->
  stops is_space r -> stops (one_of "{;") r ->
  rmatch name_part (T ++ " "%char :: r) c k = None.
Proof.
  intros HT Hs Hb. unfold name_part, identifier. cbn [seq].
  rewrite rmatch_cat, rmatch_grp, rmatch_cat.
  destruct T as [|t T].
  - cbn [app]. rewrite rmatch_cls. reflexivity.
  - cbn [app]. rewrite rmatch_cls. destruct (ident_start t); [|reflexivity].
    apply star_greedy_fails.
    simpl in HT. apply andb_true_iff in HT. destruct HT as [_ HT].
    exact (@after_name_fails A r
             (fun s' => (2, firstn (length (t :: T ++ " "%char :: r) - length s')
                                   (t :: T ++ " "%char :: r)) :: c)
             k Hs Hb T HT).
Qed.

(** [\s+] needs white space. *)
Lemma ws_plus_fails (A : Type) (r : regex) (s : str) (c : caps)
      (k : str -> caps -> option A) :
  stops is_space s -> rmatch (Cat (Plus true ws) r) s c k = None.
Proof.
  intros Hs. unfold Plus, ws. rewrite !rmatch_cat. destruct s as [|a s].
  - apply rmatch_cls_nil.
  - simpl in Hs. rewrite rmatch_cls, Hs. reflexivity.
Qed.

(** At an identifier that is followed by [ {], the name part takes the
    identifier as group 2 and matches to the end. *)
Lemma name_part_matches (A : Type) (N : str) (c : caps)
      (k : str -> caps -> option A) (x : A) :
  is_identifier N = true ->
  k [] ((2, N) :: c) = Some x ->
  rmatch name_part (N ++ txt " {") c k = Some x.
Proof.
  intros HN Hk. destruct N as [|n N]; [discriminate|].
  simpl in HN. apply andb_true_iff in HN. destruct HN as [Hn HN].
  unfold name_part, identifier. cbn [seq].
  rewrite rmatch_cat, rmatch_grp, rmatch_cat. cbn [app].
  rewrite rmatch_cls, Hn.
  apply star_greedy_run; [exact HN|reflexivity|].
  rewrite rmatch_cat. unfold ws, txt. cbn [list_ascii_of_string].
  rewrite star_cls_unfold. change (is_space " ") with true. cbv iota.
  rewrite star_cls_unfold. change (is_space "{") with false. cbv iota.
  rewrite rmatch_cat, rmatch_cls. change (one_of "{;" "{") with true. cbv iota.
  rewrite rmatch_eps.
  change (n :: N ++ [" "%char; "{"%char]) with ((n :: N) ++ [" "%char; "{"%char]).
  rewrite firstn_app_minus, Hk. reflexivity.
Qed.

(** The type part takes [X] as group 1 when [X] is followed by a blank, an
    identifier and [ {], and nothing shorter than [X] will do. *)
Lemma type_part_matches (A : Type) (X N : str) (c : caps)
      (k : str -> caps -> option A) (x : A) :
  X <> [] -> forallb dot X = true ->
  no_early_end X (" "%char :: N ++ txt " {") ->
  is_identifier N = true ->
  k [] ((2, N) :: (1, X) :: c) = Some x ->
  rmatch type_part (X ++ " "%char :: N ++ txt " {") c k = Some x.
Proof.
  intros HX Hdot Hearly HN Hk. destruct X as [|x0 X]; [congruence|].
  simpl in Hdot. apply andb_true_iff in Hdot. destruct Hdot as [Hx0 Hdot].
  unfold type_part, Plus at 1. rewrite rmatch_cat, rmatch_grp, rmatch_cat.
  cbn [app]. rewrite rmatch_cls, Hx0.
  rewrite star_lazy_skip.
  - rewrite star_cls_unfold. change (dot " ") with true. cbv iota.
    assert (E : rmatch (Cat (Plus true ws) name_part) (" "%char :: N ++ txt " {")
                  ((1, firstn (length (x0 :: X ++ " "%char :: N ++ txt " {")
                               - length (" "%char :: N ++ txt " {"))
                              (x0 :: X ++ " "%char :: N ++ txt " {")) :: c) k
                = Some x).
    { unfold Plus, ws. rewrite !rmatch_cat, rmatch_cls.
      change (is_space " ") with true. cbv iota.
      rewrite star_cls_unfold.
      destruct N as [|n N']; [discriminate|]. cbn [app].
      assert (Hn : is_space n = false).
      { simpl in HN. apply andb_true_iff in HN. destruct HN as [Hn _].
        apply ident_start_token, token_char_spec in Hn. tauto. }
      rewrite Hn.
      apply (name_part_matches (n :: N')); [exact HN|].
      pose proof (firstn_app_minus (x0 :: X) (" "%char :: n :: N' ++ txt " {")) as E.
      cbn [app] in E. rewrite E. exact Hk. }
    rewrite E. reflexivity.
  - exact Hdot.
  - intros i Hi.
    apply (Hearly A (S i)); simpl; lia.
Qed.

Lemma skipn_head (T : str) (i : nat) :
  i < length T -> exists t T', skipn i T = t :: T' /\ In t T.
Proof.
  revert i. induction T as [|a T IH]; intros i Hi; [simpl in Hi; lia|].
  destruct i as [|i].
  - exists a, T. split; [reflexivity|left; reflexivity].
  - destruct (IH i) as [t [T' [E Hin]]]; [simpl in Hi; lia|].
    exists t, T'. split; [exact E|right; exact Hin].
Qed.

Lemma token_char_in (T : str) (t : ascii) :
  forallb token_char T = true -> In t T -> is_space t = false.
Proof.
  intros HT Hin. rewrite forallb_forall in HT.
  apply token_char_spec. apply HT. exact Hin.
Qed.

(** Inside a single token the rest of the pattern cannot start: there is
    no white space. *)
Lemma no_early_end_token (T rest : str) :
  forallb token_char T = true -> no_early_end T rest.
Proof.
  intros HT A i c k _ Hi.
  destruct (skipn_head T Hi) as [t [T' [E Hin]]]. rewrite E. cbn [app].
  apply ws_plus_fails. simpl. apply (token_char_in T); assumption.
Qed.

(** Inside a modifier, a blank and a type token the rest of the pattern
    cannot start either: at the blank the name part meets the type token,
    which is followed by neither [{] nor [;]. *)
Lemma no_early_end_modifier (M T r : str) :
  forallb token_char M = true -> forallb token_char T = true -> T <> [] ->
  stops is_space r -> stops (one_of "{;") r ->
  no_early_end (M ++ " "%char :: T) (" "%char :: r).
Proof.
  intros HM HT HTne Hs Hb A i c k _ Hi.
  rewrite skipn_app.
  destruct (Nat.lt_ge_cases i (length M)) as [Hlt|Hge].
  - destruct (skipn_head M Hlt) as [t [M' [E Hin]]]. rewrite E. cbn [app].
    apply ws_plus_fails. simpl. apply (token_char_in M); assumption.
  - rewrite skipn_all2 by exact Hge. cbn [app].
    rewrite length_app in Hi. simpl in Hi.
    destruct (i - length M) as [|j] eqn:Ej.
    + cbn [skipn app]. unfold Plus, ws. rewrite !rmatch_cat, rmatch_cls.
      change (is_space " ") with true. cbv iota.
      rewrite star_cls_unfold.
      destruct T as [|t T']; [congruence|]. cbn [app].
      rewrite (token_char_in (t :: T') t HT (or_introl eq_refl)).
      apply (name_part_fails_at_token (t :: T')); assumption.
    + cbn [skipn].
      destruct (@skipn_head T j) as [t [T' [E Hin]]]; [lia|]. rewrite E. cbn [app].
      apply ws_plus_fails. simpl. apply (token_char_in T); assumption.
Qed.

(** The keyword [required] is not there when the text starts with another
    letter than [r]. *)
Lemma required_absent (A : Type) (a : ascii) (s : str) (c : caps)
      (k : str -> caps -> option A) :
  ascii_eqb "r" a = false ->
  rmatch (keyword "required") (a :: s) c k = None.
Proof.
  intros Ha. unfold keyword, lit, txt. cbn [list_ascii_of_string lit_str].
  rewrite !rmatch_cat. unfold chr. rewrite rmatch_cls, Ha. reflexivity.
Qed.

(** [public], a blank, then the optional keyword and the type part. *)
Lemma property_pattern_after_public (rest : str) (k : str -> caps -> option rmatch_obj) :
  stops is_space rest ->
  rmatch property_pattern (txt "public" ++ " "%char :: rest) [] k
  = rmatch (Cat (Opt (keyword "required")) type_part) rest [] k.
Proof.
  intros Hs. rewrite property_pattern_parts, rmatch_cat. unfold lit at 1.
  rewrite rmatch_lit. unfold Plus, ws. rewrite !rmatch_cat, rmatch_cls.
  change (is_space " ") with true. cbv iota.
  rewrite star_cls_unfold. destruct rest as [|a rest]; [reflexivity|].
  simpl in Hs. rewrite Hs. reflexivity.
Qed.

Lemma forallb_token_dot (T : str) :
  forallb token_char T = true -> forallb dot T = true.
Proof.
  rewrite !forallb_forall. intros H a Ha. apply token_char_dot, H, Ha.
Qed.

Lemma token_head (T : str) :
  is_token T = true ->
  T <> [] /\ forallb token_char T = true /\ stops is_space T.
Proof.
  destruct T as [|t T]; [discriminate|]. intros H. unfold is_token in H.
  split; [discriminate|]. split; [exact H|].
  simpl. apply (token_char_in (t :: T)); [exact H|left; reflexivity].
Qed.

Lemma identifier_head (N : str) :
  is_identifier N = true ->
  stops is_space (N ++ txt " {") /\ stops (one_of "{;") (N ++ txt " {").
Proof.
  destruct N as [|n N]; [discriminate|]. intros H. simpl in H.
  apply andb_true_iff in H. destruct H as [H _].
  apply ident_start_token, token_char_spec in H. exact H.
Qed.

(** [public], a modifier that does not start with [r], a type token, an
    identifier and [ {]: the pattern matches all of it, with the modifier
    and the type as group 1. *)
Lemma property_pattern_with_modifier (M T N : str)
      (k : str -> caps -> option rmatch_obj) (x : rmatch_obj) :
  is_token M = true -> stops (ascii_eqb "r") M ->
  is_token T = true -> is_identifier N = true ->
  k [] [(2, N); (1, M ++ " "%char :: T)] = Some x ->
  rmatch property_pattern
    (txt "public" ++ " "%char :: (M ++ " "%char :: T) ++ " "%char :: N ++ txt " {") [] k
  = Some x.
Proof.
  intros HM Hr HT HN Hk.
  destruct (token_head M HM) as [HMne [HMall HMs]].
  destruct (token_head T HT) as [HTne [HTall HTs]].
  destruct (identifier_head N HN) as [HNs HNb].
  rewrite property_pattern_after_public
    by (destruct M; [congruence|exact HMs]).
  rewrite rmatch_cat. unfold Opt. rewrite rmatch_alt.
  destruct M as [|m M']; [congruence|]. cbn [app].
  rewrite required_absent by exact Hr.
  rewrite rmatch_eps.
  apply (type_part_matches (X := (m :: M') ++ " "%char :: T)).
  - discriminate.
  - rewrite forallb_app. rewrite (forallb_token_dot _ HMall). simpl.
    apply forallb_token_dot. exact HTall.
  - apply no_early_end_modifier; assumption.
  - exact HN.
  - exact Hk.
Qed.

(** [public required], a type token, an identifier and [ {]: the pattern
    matches all of it, with the type alone as group 1. *)
Lemma property_pattern_with_required (T N : str)
      (k : str -> caps -> option rmatch_obj) (x : rmatch_obj) :
  is_token T = true -> is_identifier N = true ->
  k [] [(2, N); (1, T)] = Some x ->
  rmatch property_pattern
    (txt "public" ++ " "%char :: txt "required" ++ " "%char :: T ++ " "%char :: N ++ txt " {")
    [] k
  = Some x.
Proof.
  intros HT HN Hk.
  destruct (token_head T HT) as [HTne [HTall HTs]].
  rewrite property_pattern_after_public by reflexivity.
  rewrite rmatch_cat. unfold Opt. rewrite rmatch_alt.
  unfold keyword at 1. rewrite rmatch_cat. unfold lit at 1. rewrite rmatch_lit.
  unfold Plus, ws. rewrite !rmatch_cat, rmatch_cls.
  change (is_space " ") with true. cbv iota.
  rewrite star_cls_unfold.
  destruct T as [|t T']; [congruence|]. cbn [app].
  simpl in HTs. rewrite HTs.
  change (t :: T' ++ " "%char :: N ++ txt " {")
    with ((t :: T') ++ " "%char :: N ++ txt " {").
  rewrite (@type_part_matches _ (t :: T') N [] k x).
  - reflexivity.
  - discriminate.
  - apply forallb_token_dot. exact HTall.
  - apply no_early_end_token. exact HTall.
  - exact HN.
  - exact Hk.
Qed.

Lemma lstrip_stops (p : ascii -> bool) (s : str) : stops p s -> lstrip_by p s = s.
Proof. destruct s as [|a s]; [reflexivity|]. simpl. intros ->. reflexivity. Qed.

(** Nothing is stripped from a text that neither starts nor ends with
    white space. *)
Lemma strip_unchanged (s : str) :
  stops is_space s -> stops is_space (rev s) -> strip s = s.
Proof.
  intros H1 H2. unfold strip, strip_by, rstrip_by.
  rewrite (lstrip_stops _ _ H1), (lstrip_stops _ _ H2). apply rev_involutive.
Qed.

Lemma token_rev_stops (Y T : str) :
  is_token T = true -> stops is_space (rev (Y ++ T)).
Proof.
  intros HT. destruct (token_head T HT) as [HTne [HTall _]].
  rewrite rev_app_distr.
  destruct (rev T) as [|z l] eqn:E.
  - apply (f_equal (@rev ascii)) in E. rewrite rev_involutive in E. simpl in E. congruence.
  - simpl. apply (token_char_in T); [exact HTall|].
    apply in_rev. rewrite E. left. reflexivity.
Qed.

(** A text that the property pattern matches from beginning to end holds
    one property. *)
Lemma extract_properties_whole (content X N : str) :
  content <> [] ->
  match_at property_pattern 0 content
  = Some (whole_match content [(2, N); (1, X)]) ->
  extract_properties content
  = if negb (str_in (strip X) not_a_type) then [(N, strip X)] else [].
Proof.
  intros Hne Hm. unfold extract_properties, finditer.
  destruct content as [|a content]; [congruence|].
  cbn [finditer_from search_from]. rewrite Hm.
  unfold whole_match. cbn [m_end m_start length Nat.add Nat.sub Nat.eqb].
  cbn [skipn]. rewrite skipn_all.
  assert (E : forall fuel pos, finditer_from fuel property_pattern pos [] = []).
  { intros [|fuel] pos; reflexivity. }
  rewrite E. cbn [fold_left group_str group m_caps group_of Nat.eqb].
  destruct (negb _); reflexivity.
Qed.

Lemma extract_properties_with_modifier (M T N : str) :
  is_token M = true -> stops (ascii_eqb "r") M ->
  is_token T = true -> is_identifier N = true ->
  str_in (M ++ " "%char :: T) not_a_type = false ->
  extract_properties
    (txt "public" ++ " "%char :: (M ++ " "%char :: T) ++ " "%char :: N ++ txt " {")
  = [(N, M ++ " "%char :: T)].
Proof.
  intros HM Hr HT HN Hnot.
  rewrite (@extract_properties_whole _ (M ++ " "%char :: T) N).
  - rewrite strip_unchanged.
    + rewrite Hnot. reflexivity.
    + destruct (token_head M HM) as [HMne [_ HMs]].
      destruct M; [congruence|exact HMs].
    + change (M ++ " "%char :: T) with (M ++ [" "%char] ++ T).
      rewrite app_assoc. apply token_rev_stops. exact HT.
  - discriminate.
  - unfold match_at. apply property_pattern_with_modifier; try assumption.
    reflexivity.
Qed.

Lemma extract_properties_with_required (T N : str) :
  is_token T = true -> is_identifier N = true ->
  str_in T not_a_type = false ->
  extract_properties
    (txt "public" ++ " "%char :: txt "required" ++ " "%char :: T ++ " "%char :: N ++ txt " {")
  = [(N, T)].
Proof.
  intros HT HN Hnot.
  rewrite (@extract_properties_whole _ T N).
  - rewrite strip_unchanged.
    + rewrite Hnot. reflexivity.
    + apply token_head. exact HT.
    + apply (token_rev_stops []). exact HT.
  - discriminate.
  - unfold match_at. apply property_pattern_with_required; try assumption.
    reflexivity.
Qed.

End PropertyFacts.

(* ===================================================================== *)
(** * Facts about the placeholder pattern *)
(* ===================================================================== *)

Module RouteFacts.

Import ReFacts GraphMerger.

Lemma placeholder_matches (a R : str) (pos : nat) :
  is_parameter_name a = true ->
  match_at placeholder pos ("{"%char :: a ++ "}"%char :: R)
  = Some (MatchObj pos (pos + (length a + 2)) []).
Proof.
  intros Ha. destruct a as [|a0 a]; [discriminate|].
  unfold is_parameter_name in Ha. simpl in Ha.
  apply andb_true_iff in Ha. destruct Ha as [Ha0 Ha].
  unfold match_at, placeholder. cbn [seq].
  rewrite rmatch_cat. unfold chr at 1. rewrite rmatch_cls.
  change (ascii_eqb "{" "{") with true. cbv iota.
  unfold Plus. rewrite !rmatch_cat. cbn [app]. rewrite rmatch_cls, Ha0.
  rewrite (@star_greedy_run _ (none_of "}") a ("}"%char :: R) _ _
             (MatchObj pos (pos + (length (a0 :: a) + 2)) [])).
  - reflexivity.
  - exact Ha.
  - reflexivity.
  - rewrite rmatch_cat. unfold chr. rewrite rmatch_cls.
    change (ascii_eqb "}" "}") with true. cbv iota. rewrite rmatch_eps.
    f_equal. f_equal. cbn [length]. rewrite length_app. cbn [length]. lia.
Qed.

Lemma placeholder_needs_brace (s : str) (pos : nat) :
  stops (ascii_eqb "{") s -> match_at placeholder pos s = None.
Proof.
  intros Hs. unfold match_at, placeholder. cbn [seq]. rewrite rmatch_cat.
  unfold chr at 1. destruct s as [|b s]; [reflexivity|].
  unfold stops in Hs. rewrite rmatch_cls, Hs. reflexivity.
Qed.

Lemma none_of_brace (b : ascii) : none_of "{" b = true -> ascii_eqb "{" b = false.
Proof.
  unfold none_of, one_of, txt. cbn [list_ascii_of_string existsb].
  rewrite orb_false_r, negb_true_iff.
  intros H. rewrite (ascii_eqb_sym "{" b). exact H.
Qed.

(** The search runs over a text without [{]. *)
Lemma search_skips_brace_free (L s : str) (pos : nat) :
  brace_free L = true ->
  search_from placeholder pos (L ++ s) = search_from placeholder (pos + length L) s.
Proof.
  revert pos. induction L as [|b L IH]; intros pos HL.
  - simpl. rewrite Nat.add_0_r. reflexivity.
  - simpl in HL. apply andb_true_iff in HL. destruct HL as [Hb HL].
    cbn [app search_from].
    rewrite placeholder_needs_brace by (apply none_of_brace; exact Hb).
    rewrite IH by exact HL. f_equal. simpl. lia.
Qed.

Lemma search_brace_free (R : str) (pos : nat) :
  brace_free R = true -> search_from placeholder pos R = None.
Proof.
  intros HR. rewrite <- (app_nil_r R), search_skips_brace_free by exact HR.
  reflexivity.
Qed.

End RouteFacts.

(* ===================================================================== *)
(** * Facts about substitution *)
(* ===================================================================== *)

Module SubFacts.

Import ReFacts Soundness FuelFacts.

(** The substitution passes over a character at which the pattern does
    not match. *)
Lemma sub_go_skip (r : regex) (repl : rmatch_obj -> str) (a : ascii) (s : str)
      (pos fuel : nat) :
  match_at r pos (a :: s) = None ->
  sub_go (finditer_from fuel r pos (a :: s)) repl pos (a :: s)
  = a :: sub_go (finditer_from fuel r (S pos) s) repl (S pos) s.
Proof.
  intros Hnone. destruct fuel as [|fuel]; [reflexivity|].
  cbn [finditer_from search_from]. rewrite Hnone.
  destruct (search_from r (S pos) s) as [m|] eqn:E; [|reflexivity].
  destruct (search_from_span _ _ _ E) as [w [_ [Hs [He _]]]].
  cbn [sub_go].
  replace (m_start m - pos) with (S (m_start m - S pos)) by lia.
  replace (m_end m - pos) with (S (m_end m - S pos)) by lia.
  cbn [firstn skipn app]. f_equal. f_equal. f_equal.
  destruct (m_end m =? m_start m).
  - replace (S (m_end m) - pos) with (S (S (m_end m) - S pos)) by lia. reflexivity.
  - replace (m_end m - pos) with (S (m_end m - S pos)) by lia. reflexivity.
Qed.

(** At a match that is not empty the replacement is written and the
    substitution goes on behind the match. *)
Lemma sub_go_match (r : regex) (repl : rmatch_obj -> str) (s : str)
      (pos fuel : nat) (m : rmatch_obj) :
  match_at r pos s = Some m -> m_start m = pos -> pos < m_end m ->
  sub_go (finditer_from (S fuel) r pos s) repl pos s
  = repl m
      ++ sub_go (finditer_from fuel r (m_end m) (skipn (m_end m - pos) s))
                repl (m_end m) (skipn (m_end m - pos) s).
Proof.
  intros Hm Hs He. cbn [finditer_from].
  assert (E : search_from r pos s = Some m).
  { destruct s; cbn [search_from]; rewrite Hm; reflexivity. }
  rewrite E. destruct (Nat.eqb_spec (m_end m) (m_start m)); [lia|].
  cbn [sub_go]. rewrite Hs, Nat.sub_diag. reflexivity.
Qed.

Lemma sub_go_nil (r : regex) (repl : rmatch_obj -> str) (pos fuel : nat) :
  nullable r = false ->
  sub_go (finditer_from fuel r pos []) repl pos [] = [].
Proof.
  intros Hn. destruct fuel as [|fuel]; [reflexivity|].
  cbn [finditer_from search_from].
  destruct (match_at r pos []) as [m|] eqn:E; [|reflexivity].
  destruct (match_at_span _ _ _ E) as [w [s' [Es [D _]]]].
  exfalso. apply (denotes_nonempty D Hn).
  symmetry in Es. apply app_eq_nil in Es. apply Es.
Qed.

End SubFacts.

(* ===================================================================== *)
(** * Facts about the two substitutions of [camel_to_snake] *)
(* ===================================================================== *)

Module SnakeFacts.

Import ReFacts Soundness FuelFacts SubFacts CSharpParser.

Lemma upper_not_lower_or_digit (b : ascii) :
  is_upper_az b = true -> lower_or_digit b = false.
Proof.
  unfold is_upper_az, lower_or_digit, is_lower_az, is_digit, between.
  intros H. apply andb_true_iff in H. destruct H as [H1 H2].
  apply Nat.leb_le in H1. apply Nat.leb_le in H2.
  apply orb_false_iff. split; apply andb_false_iff.
  - left. apply Nat.leb_gt. lia.
  - right. apply Nat.leb_gt. lia.
Qed.

Lemma upper_not_lower (b : ascii) : is_upper_az b = true -> is_lower_az b = false.
Proof.
  intros H. apply upper_not_lower_or_digit in H.
  unfold lower_or_digit in H. apply orb_false_iff in H. apply H.
Qed.

(** ** The second substitution *)

Lemma pass2_matches (a b : ascii) (t : str) (pos : nat) :
  lower_or_digit a = true -> is_upper_az b = true ->
  match_at camel_pass2 pos (a :: b :: t)
  = Some (MatchObj pos (pos + 2) [(2, [b]); (1, [a])]).
Proof.
  intros Ha Hb. unfold match_at, camel_pass2.
  rewrite rmatch_cat, rmatch_grp, rmatch_cls.
  fold (lower_or_digit a). rewrite Ha.
  rewrite rmatch_grp, rmatch_cls, Hb.
  cbn [length]. f_equal. f_equal.
  - lia.
  - rewrite !Nat.sub_succ_l by lia. rewrite !Nat.sub_diag. reflexivity.
Qed.

Lemma pass2_fails (s : str) (pos : nat) :
  match s with
  | a :: b :: _ => lower_or_digit a && is_upper_az b
  | _ => false
  end = false ->
  match_at camel_pass2 pos s = None.
Proof.
  intros H. unfold match_at, camel_pass2.
  rewrite rmatch_cat, rmatch_grp.
  destruct s as [|a [|b t]]; [reflexivity| |].
  - rewrite rmatch_cls. destruct (_ || _); reflexivity.
  - rewrite rmatch_cls. fold (lower_or_digit a).
    destruct (lower_or_digit a); [|reflexivity].
    rewrite rmatch_grp, rmatch_cls. simpl in H. rewrite H. reflexivity.
Qed.

Lemma pass2_sub_go (n : nat) :
  forall s pos fuel,
    length s <= n -> length s <= fuel ->
    sub_go (finditer_from fuel camel_pass2 pos s) underscore_between pos s
    = after_pass2 s.
Proof.
  induction n as [|n IH]; intros s pos fuel Hn Hf.
  - destruct s; [|simpl in Hn; lia]. apply sub_go_nil. reflexivity.
  - destruct s as [|a rest]; [apply sub_go_nil; reflexivity|].
    cbn [after_pass2].
    destruct rest as [|b t].
    + rewrite sub_go_skip by (apply pass2_fails; reflexivity).
      f_equal. apply sub_go_nil. reflexivity.
    + destruct (lower_or_digit a && is_upper_az b) eqn:E.
      * apply andb_true_iff in E. destruct E as [Ha Hb].
        destruct fuel as [|fuel]; [simpl in Hf; lia|].
        rewrite (@sub_go_match _ underscore_between _ _ fuel _
                   (@pass2_matches a b t pos Ha Hb))
          by (cbn [m_start m_end]; lia).
        cbn [m_end]. replace (pos + 2 - pos) with 2 by lia. cbn [skipn].
        rewrite IH by (simpl in *; lia).
        cbn [after_pass2]. rewrite (@upper_not_lower_or_digit b Hb).
        cbn [andb]. destruct t; reflexivity.
      * rewrite sub_go_skip by (apply pass2_fails; exact E).
        f_equal. apply IH; simpl in *; lia.
Qed.

Lemma sub_pass2 (s : str) :
  sub camel_pass2 underscore_between s = after_pass2 s.
Proof.
  unfold sub, finditer. apply (pass2_sub_go (n := length s)); lia.
Qed.

(** ** The first substitution *)

Lemma pass1_matches (a b : ascii) (run t : str) (pos : nat) :
  dot a = true -> is_upper_az b = true ->
  run <> [] -> forallb is_lower_az run = true -> stops is_lower_az t ->
  match_at camel_pass1 pos (a :: b :: run ++ t)
  = Some (MatchObj pos (pos + (2 + length run)) [(2, b :: run); (1, [a])]).
Proof.
  intros Ha Hb Hne Hrun Ht. destruct run as [|c run]; [congruence|].
  simpl in Hrun. apply andb_true_iff in Hrun. destruct Hrun as [Hc Hrun].
  unfold match_at, camel_pass1.
  rewrite rmatch_cat, rmatch_grp, rmatch_cls, Ha.
  rewrite rmatch_grp, rmatch_cat, rmatch_cls, Hb.
  unfold Plus. rewrite rmatch_cat. cbn [app]. rewrite rmatch_cls, Hc.
  rewrite (@star_greedy_run _ is_lower_az run t _ _
             (MatchObj pos (pos + (2 + length (c :: run))) [(2, b :: c :: run); (1, [a])])).
  - reflexivity.
  - exact Hrun.
  - exact Ht.
  - f_equal. f_equal.
    + cbn [length]. rewrite !length_app. lia.
    + f_equal.
      * f_equal.
        replace (length (b :: c :: run ++ t) - length t) with (length (b :: c :: run))
          by (cbn [length]; rewrite length_app; lia).
        change (b :: c :: run ++ t) with ((b :: c :: run) ++ t).
        rewrite firstn_app, Nat.sub_diag, firstn_all. cbn [firstn]. apply app_nil_r.
      * f_equal. f_equal. cbn [length].
        rewrite Nat.sub_succ_l by lia. rewrite Nat.sub_diag. reflexivity.
Qed.

Lemma pass1_fails (a : ascii) (rest : str) (pos : nat) :
  dot a && starts_word rest = false ->
  match_at camel_pass1 pos (a :: rest) = None.
Proof.
  intros H. unfold match_at, camel_pass1.
  rewrite rmatch_cat, rmatch_grp, rmatch_cls.
  destruct (dot a); [|reflexivity]. cbn [andb] in H.
  rewrite rmatch_grp, rmatch_cat.
  destruct rest as [|b [|c t]]; [reflexivity| |].
  - rewrite rmatch_cls. destruct (is_upper_az b); reflexivity.
  - rewrite rmatch_cls. destruct (is_upper_az b) eqn:Hb; [|reflexivity].
    unfold Plus. rewrite rmatch_cat, rmatch_cls.
    cbn [starts_word] in H. rewrite Hb in H. cbn [andb] in H.
    rewrite H. reflexivity.
Qed.

(** A text splits into its longest start of lower-case letters and what
    follows. *)
Lemma lower_run (s : str) :
  exists run t,
    s = run ++ t /\ forallb is_lower_az run = true /\ stops is_lower_az t.
Proof.
  induction s as [|a s [run [t [E [Hrun Ht]]]]].
  - exists [], []. repeat split.
  - destruct (is_lower_az a) eqn:Ea.
    + exists (a :: run), t. subst s. repeat split; [|exact Ht].
      simpl. rewrite Ea. exact Hrun.
    + exists [], (a :: s). repeat split. exact Ea.
Qed.

Lemma taken_run (run t : str) :
  run <> [] -> forallb is_lower_az run = true -> stops is_lower_az t ->
  after_pass1 true (run ++ t) = run ++ after_pass1 false t.
Proof.
  induction run as [|x run IH]; intros Hne Hrun Ht; [congruence|].
  simpl in Hrun. apply andb_true_iff in Hrun. destruct Hrun as [Hx Hrun].
  cbn [app after_pass1 negb andb orb].
  destruct run as [|y run].
  - cbn [app]. destruct t as [|b t]; [reflexivity|].
    simpl in Ht. cbn [starts_lower]. rewrite Ht. reflexivity.
  - cbn [app starts_lower]. simpl in Hrun.
    apply andb_true_iff in Hrun. destruct Hrun as [Hy Hrun]. rewrite Hy.
    f_equal. apply IH; [discriminate| |exact Ht].
    simpl. rewrite Hy. exact Hrun.
Qed.

Lemma after_pass1_cons (taken : bool) (a : ascii) (rest : str) :
  after_pass1 taken (a :: rest)
  = if negb taken && dot a && starts_word rest
    then a :: "_"%char
           :: after_pass1 (negb taken && dot a && starts_word rest
                           || taken && starts_lower rest) rest
    else a :: after_pass1 (negb taken && dot a && starts_word rest
                           || taken && starts_lower rest) rest.
Proof. reflexivity. Qed.

(** What the first substitution makes of a match. *)
Lemma after_pass1_word (a b : ascii) (run t : str) :
  dot a = true -> is_upper_az b = true ->
  run <> [] -> forallb is_lower_az run = true -> stops is_lower_az t ->
  after_pass1 false (a :: b :: run ++ t)
  = a :: "_"%char :: b :: run ++ after_pass1 false t.
Proof.
  intros Ha Hb Hne Hrun Ht.
  assert (Hc : starts_lower (run ++ t) = true).
  { destruct run as [|c run]; [congruence|]. simpl in Hrun.
    apply andb_true_iff in Hrun. apply Hrun. }
  assert (Hw : starts_word (b :: run ++ t) = true).
  { destruct run as [|c run]; [congruence|]. cbn [app starts_word].
    cbn [app starts_lower] in Hc. rewrite Hb, Hc. reflexivity. }
  rewrite after_pass1_cons, Ha, Hw. cbn [negb andb orb]. f_equal. f_equal.
  rewrite after_pass1_cons, Hc. cbn [negb andb orb]. f_equal.
  apply taken_run; assumption.
Qed.

Lemma pass1_sub_go (n : nat) :
  forall s pos fuel,
    length s <= n -> length s <= fuel ->
    sub_go (finditer_from fuel camel_pass1 pos s) underscore_between pos s
    = after_pass1 false s.
Proof.
  induction n as [|n IH]; intros s pos fuel Hn Hf.
  - destruct s; [|simpl in Hn; lia]. apply sub_go_nil. reflexivity.
  - destruct s as [|a rest]; [apply sub_go_nil; reflexivity|].
    destruct (dot a && starts_word rest) eqn:E.
    + apply andb_true_iff in E. destruct E as [Ha Hw].
      destruct rest as [|b [|c t']]; try discriminate.
      cbn [starts_word] in Hw. apply andb_true_iff in Hw. destruct Hw as [Hb Hc].
      destruct (lower_run t') as [run [t [Et [Hrun Ht]]]]. subst t'.
      destruct fuel as [|fuel]; [simpl in Hf; lia|].
      assert (Hrun' : forallb is_lower_az (c :: run) = true)
        by (simpl; rewrite Hc; exact Hrun).
      assert (Hne : c :: run <> []) by discriminate.
      change (c :: run ++ t) with ((c :: run) ++ t).
      rewrite (@sub_go_match _ underscore_between _ _ fuel _
                 (@pass1_matches a b (c :: run) t pos Ha Hb Hne Hrun' Ht))
        by (cbn [m_start m_end]; lia).
      rewrite (@after_pass1_word a b (c :: run) t Ha Hb Hne Hrun' Ht).
      cbn [m_end].
      replace (pos + (2 + length (c :: run)) - pos) with (S (S (length (c :: run)))) by lia.
      cbn [skipn].
      rewrite skipn_app, skipn_all, Nat.sub_diag. cbn [skipn app].
      rewrite IH
        by (simpl in *; rewrite ?length_app in *; lia).
      reflexivity.
    + rewrite sub_go_skip by (apply pass1_fails; exact E).
      rewrite after_pass1_cons. cbn [negb andb orb]. rewrite E.
      f_equal. apply IH; simpl in *; lia.
Qed.

Lemma sub_pass1 (s : str) :
  sub camel_pass1 underscore_between s = after_pass1 false s.
Proof.
  unfold sub, finditer. apply (pass1_sub_go (n := length s)); lia.
Qed.

(** ** The two substitutions together *)

Lemma after_pass1_head (taken : bool) (b : ascii) (t : str) :
  exists rest, after_pass1 taken (b :: t) = b :: rest.
Proof.
  cbn [after_pass1]. destruct (negb taken && dot b && starts_word t); eexists; reflexivity.
Qed.

Lemma after_pass2_cons (a b : ascii) (t : str) :
  after_pass2 (a :: b :: t)
  = if lower_or_digit a && is_upper_az b
    then a :: "_"%char :: after_pass2 (b :: t)
    else a :: after_pass2 (b :: t).
Proof. reflexivity. Qed.

Lemma with_underscores_cons (a : ascii) (rest : str) :
  with_underscores (a :: rest)
  = if word_boundary a rest then a :: "_"%char :: with_underscores rest
    else a :: with_underscores rest.
Proof. reflexivity. Qed.

Lemma after_both (s : str) :
  forall taken, taken_char taken s ->
    after_pass2 (after_pass1 taken s) = with_underscores s.
Proof.
  induction s as [|a rest IH]; intros taken Inv; [reflexivity|].
  rewrite after_pass1_cons, with_underscores_cons.
  set (starts := negb taken && dot a && starts_word rest).
  set (next_taken := starts || (taken && starts_lower rest)).
  assert (Inv' : taken_char next_taken rest).
  { intros Hn. destruct rest as [|b t]; [exact I|].
    unfold next_taken, starts in Hn.
    apply orb_true_iff in Hn. destruct Hn as [Hn|Hn].
    - apply andb_true_iff in Hn. destruct Hn as [_ Hw].
      destruct t as [|c t]; [discriminate|]. cbn [starts_word] in Hw.
      apply andb_true_iff in Hw. right. cbn [starts_lower]. exact Hw.
    - apply andb_true_iff in Hn. left. apply Hn. }
  specialize (IH next_taken Inv').
  destruct rest as [|b t].
  { unfold starts. cbn [starts_word word_boundary]. rewrite andb_false_r. reflexivity. }
  destruct (after_pass1_head next_taken b t) as [Y EY].
  rewrite EY in *.
  destruct starts eqn:Es.
  - (* a match starts at a *)
    unfold starts in Es. apply andb_true_iff in Es. destruct Es as [Es Hw].
    apply andb_true_iff in Es. destruct Es as [_ Hd].
    destruct t as [|c t]; [discriminate|].
    cbn [starts_word] in Hw. apply andb_true_iff in Hw. destruct Hw as [Hb Hc].
    cbn [word_boundary]. rewrite Hb, Hd, Hc, orb_true_r. cbn [andb].
    rewrite after_pass2_cons.
    replace (lower_or_digit a && is_upper_az "_") with false
      by (rewrite andb_false_r; reflexivity).
    rewrite after_pass2_cons.
    replace (lower_or_digit "_" && is_upper_az b) with false by reflexivity.
    rewrite IH. reflexivity.
  - rewrite after_pass2_cons, IH.
    assert (B : lower_or_digit a && is_upper_az b = word_boundary a (b :: t)).
    { cbn [word_boundary]. rewrite andb_comm.
      destruct (is_upper_az b) eqn:Hb; [|reflexivity]. cbn [andb].
      destruct (lower_or_digit a) eqn:Ha; [reflexivity|]. cbn [orb].
      destruct (dot a) eqn:Hd; [|reflexivity]. cbn [andb].
      destruct t as [|c t]; [reflexivity|].
      destruct (is_lower_az c) eqn:Hc; [|reflexivity].
      unfold starts in Es. cbn [starts_word] in Es.
      rewrite Hb, Hc in Es. cbn [andb] in Es. rewrite !andb_true_r in Es.
      apply negb_false_iff in Es. specialize (Inv Es). cbn in Inv.
      destruct Inv as [Hl|[Hu Hl]].
      - unfold lower_or_digit in Ha. rewrite Hl in Ha. discriminate.
      - rewrite (@upper_not_lower b Hb) in Hl. discriminate. }
    rewrite B. reflexivity.
Qed.

Lemma camel_to_snake_marks (name : str) :
  camel_to_snake name = lower (with_underscores name).
Proof.
  unfold camel_to_snake. rewrite sub_pass1, sub_pass2.
  rewrite after_both; [reflexivity|]. intros H. discriminate.
Qed.

(** The decision at a character before a boundary does not look past
    the boundary. *)
Lemma boundary_before (z a b : ascii) (x y : str) :
  word_boundary a (b :: y) = true ->
  word_boundary z (x ++ a :: b :: y) = word_boundary z (x ++ [a]).
Proof.
  intros H. destruct x as [|q [|q2 x]]; [|reflexivity|reflexivity].
  cbn [app word_boundary]. cbn [word_boundary] in H.
  apply andb_true_iff in H. destruct H as [Hb _].
  rewrite (@upper_not_lower b Hb). reflexivity.
Qed.

Lemma with_underscores_split (x : str) (a b : ascii) (y : str) :
  word_boundary a (b :: y) = true ->
  with_underscores (x ++ a :: b :: y)
  = with_underscores (x ++ [a]) ++ "_"%char :: with_underscores (b :: y).
Proof.
  intros H. induction x as [|z x IH].
  - cbn [app]. rewrite with_underscores_cons, H. reflexivity.
  - cbn [app]. rewrite !with_underscores_cons.
    rewrite (@boundary_before z a b x y H), IH.
    destruct (word_boundary z (x ++ [a])); reflexivity.
Qed.

Lemma camel_to_snake_split (x : str) (a b : ascii) (y : str) :
  word_boundary a (b :: y) = true ->
  camel_to_snake (x ++ a :: b :: y)
  = camel_to_snake (x ++ [a]) ++ "_"%char :: camel_to_snake (b :: y).
Proof.
  intros H. rewrite !camel_to_snake_marks, (@with_underscores_split x a b y H).
  unfold lower. rewrite map_app. reflexivity.
Qed.

End SnakeFacts.

(* ===================================================================== *)
(** * Every placeholder of a route *)
(* ===================================================================== *)

Module PlaceholderFacts.

Import ReFacts Soundness FuelFacts SubFacts GraphMerger RouteFacts.

Lemma sub_go_brace_free (repl : rmatch_obj -> str) (L s : str) :
  forall pos fuel,
    brace_free L = true ->
    sub_go (finditer_from fuel placeholder pos (L ++ s)) repl pos (L ++ s)
    = L ++ sub_go (finditer_from fuel placeholder (pos + length L) s)
                  repl (pos + length L) s.
Proof.
  induction L as [|b L IH]; intros pos fuel HL.
  - cbn [app length]. rewrite Nat.add_0_r. reflexivity.
  - simpl in HL. apply andb_true_iff in HL. destruct HL as [Hb HL].
    cbn [app]. rewrite sub_go_skip
      by (apply placeholder_needs_brace; apply none_of_brace; exact Hb).
    rewrite IH by exact HL. cbn [length].
    replace (S pos + length L) with (pos + S (length L)) by lia. reflexivity.
Qed.

Lemma skipn_placeholder (a tail : str) :
  skipn (length a + 2) ("{"%char :: a ++ "}"%char :: tail) = tail.
Proof.
  replace (length a + 2) with (S (length a + 1)) by lia. cbn [skipn].
  replace (a ++ "}"%char :: tail) with ((a ++ ["}"%char]) ++ tail)
    by (rewrite <- app_assoc; reflexivity).
  replace (length a + 1) with (length (a ++ ["}"%char]))
    by (rewrite length_app; reflexivity).
  rewrite skipn_app, skipn_all, Nat.sub_diag. reflexivity.
Qed.

(** Every placeholder of a route is replaced. *)
Lemma route_sub_go (rest : list (str * str)) :
  forall L pos fuel,
    route_parts L rest = true -> length rest <= fuel ->
    sub_go (finditer_from fuel placeholder pos (route_text L rest))
           (fun _ => txt "{param}") pos (route_text L rest)
    = route_text L (renamed rest).
Proof.
  induction rest as [|[a R] rest IH]; intros L pos fuel Hok Hf;
    unfold route_parts in Hok; apply andb_true_iff in Hok; destruct Hok as [HL Hrest].
  - cbn [route_text renamed map].
    destruct fuel as [|fuel]; [reflexivity|].
    cbn [finditer_from]. rewrite search_brace_free by exact HL. reflexivity.
  - cbn [forallb fst snd] in Hrest.
    apply andb_true_iff in Hrest. destruct Hrest as [HaR Hrest].
    apply andb_true_iff in HaR. destruct HaR as [Ha HR].
    cbn [route_text renamed map snd].
    rewrite sub_go_brace_free by exact HL.
    destruct fuel as [|fuel]; [simpl in Hf; lia|].
    rewrite (@sub_go_match _ (fun _ => txt "{param}") _ _ fuel _
               (@placeholder_matches a (route_text R rest) (pos + length L) Ha))
      by (cbn [m_start m_end]; lia).
    cbn [m_end].
    replace (pos + length L + (length a + 2) - (pos + length L)) with (length a + 2) by lia.
    rewrite skipn_placeholder.
    rewrite IH.
    + reflexivity.
    + unfold route_parts. rewrite HR, Hrest. reflexivity.
    + simpl in Hf. lia.
Qed.

Lemma placeholders_lt (L : str) (rest : list (str * str)) :
  length rest <= length (route_text L rest).
Proof.
  revert L. induction rest as [|[a R] rest IH]; intros L; cbn [route_text length].
  - lia.
  - rewrite length_app. cbn [length]. rewrite length_app. cbn [length].
    specialize (IH R). lia.
Qed.

Lemma route_to_pattern_all (L : str) (rest : list (str * str)) :
  route_parts L rest = true ->
  route_to_pattern (route_text L rest) = route_text L (renamed rest).
Proof.
  intros Hok. unfold route_to_pattern, sub, finditer.
  apply route_sub_go; [exact Hok|].
  pose proof (placeholders_lt L rest). lia.
Qed.

(** ** A route is read in one way only *)

Lemma brace_free_head (L L' x y : str) :
  brace_free L = true -> brace_free L' = true ->
  L ++ "{"%char :: x = L' ++ "{"%char :: y -> L = L' /\ x = y.
Proof.
  revert L'. induction L as [|b L IH]; intros [|b' L'] HL HL' E; cbn [app] in E.
  - injection E as E. split; [reflexivity|exact E].
  - injection E as E1 E2. subst b'. discriminate HL'.
  - injection E as E1 E2. subst b. discriminate HL.
  - injection E as E1 E2. subst b'.
    simpl in HL, HL'. apply andb_true_iff in HL, HL'.
    destruct (IH L' (proj2 HL) (proj2 HL') E2) as [-> ->]. split; reflexivity.
Qed.

Lemma brace_free_whole (L L' y : str) :
  brace_free L = true -> L <> L' ++ "{"%char :: y.
Proof.
  intros HL E. subst L. unfold brace_free in HL. rewrite forallb_app in HL.
  apply andb_true_iff in HL. destruct HL as [_ HL]. discriminate HL.
Qed.

Lemma renamed_unique (r : list (str * str)) :
  forall L L' r',
    brace_free L = true -> forallb (fun p => brace_free (snd p)) r = true ->
    brace_free L' = true -> forallb (fun p => brace_free (snd p)) r' = true ->
    route_text L (renamed r) = route_text L' (renamed r') ->
    L = L' /\ map snd r = map snd r'.
Proof.
  induction r as [|[a R] r IH]; intros L L' [|[a' R'] r'] HL Hr HL' Hr' E;
    cbn [renamed map route_text snd] in E.
  - split; [exact E|reflexivity].
  - exfalso. exact (brace_free_whole _ _ HL E).
  - exfalso. symmetry in E. exact (brace_free_whole _ _ HL' E).
  - destruct (brace_free_head _ _ _ _ HL HL' E) as [-> E'].
    cbn [forallb snd] in Hr, Hr'.
    apply andb_true_iff in Hr, Hr'. destruct Hr as [HR Hr]. destruct Hr' as [HR' Hr'].
    cbn [txt list_ascii_of_string app] in E'. injection E' as E'.
    destruct (IH R R' r' HR Hr HR' Hr' E') as [-> Em].
    split; [reflexivity|]. cbn [map snd]. rewrite Em. reflexivity.
Qed.

Lemma renamed_same (r r' : list (str * str)) :
  map snd r = map snd r' -> renamed r = renamed r'.
Proof.
  revert r'. induction r as [|p r IH]; intros [|p' r'] E; try discriminate.
  - reflexivity.
  - cbn [map] in E. injection E as E1 E2. cbn [renamed map].
    rewrite E1. f_equal. apply IH. exact E2.
Qed.

Lemma route_parts_texts (L : str) (rest : list (str * str)) :
  route_parts L rest = true ->
  brace_free L = true /\ forallb (fun p => brace_free (snd p)) rest = true.
Proof.
  unfold route_parts. intros H. apply andb_true_iff in H. destruct H as [HL H].
  split; [exact HL|].
  rewrite forallb_forall in *. intros p Hp. specialize (H p Hp).
  apply andb_true_iff in H. apply H.
Qed.

End PlaceholderFacts.

(* ===================================================================== *)
(** * Facts about substrings *)
(* ===================================================================== *)

Lemma startswith_inv (p s : str) :
  startswith p s = true -> exists r, s = p ++ r.
Proof.
  revert s. induction p as [|a p IH]; intros s H.
  - exists s. reflexivity.
  - destruct s as [|b s]; [discriminate|]. simpl in H.
    apply andb_true_iff in H. destruct H as [Hab H].
    apply ascii_eqb_eq in Hab. subst b.
    destruct (IH s H) as [r ->]. exists r. reflexivity.
Qed.

Lemma startswith_app (p r : str) : startswith p (p ++ r) = true.
Proof.
  induction p as [|a p IH]; [reflexivity|].
  simpl. rewrite IH, (proj2 (ascii_eqb_eq a a) eq_refl). reflexivity.
Qed.

Lemma contains_inv (p s : str) :
  contains p s = true -> exists l r, s = l ++ p ++ r.
Proof.
  induction s as [|a s IH]; intros H.
  - simpl in H. rewrite orb_false_r in H.
    destruct (startswith_inv _ _ H) as [r E]. exists [], r. exact E.
  - simpl in H. apply orb_true_iff in H. destruct H as [H|H].
    + destruct (startswith_inv p (a :: s) H) as [r E]. exists [], r. exact E.
    + destruct (IH H) as [l [r ->]]. exists (a :: l), r. reflexivity.
Qed.

Lemma contains_intro (l p r : str) : contains p (l ++ p ++ r) = true.
Proof.
  induction l as [|a l IH].
  - simpl. destruct (p ++ r) eqn:E; simpl; rewrite <- E, startswith_app; reflexivity.
  - simpl. rewrite IH. apply orb_true_r.
Qed.

(** A text that holds no [p] holds none in its last characters. *)
Lemma contains_slice (p s : str) (i j : nat) :
  i <= j -> contains p (firstn j s) = false -> contains p (slice s i j) = false.
Proof.
  intros Hij Hno. destruct (contains p (slice s i j)) eqn:E; [|reflexivity].
  destruct (contains_inv _ _ E) as [l [r Elr]].
  rewrite (firstn_split_at s Hij) in Hno. unfold slice in Elr. rewrite Elr in Hno.
  replace (firstn i s ++ l ++ p ++ r) with ((firstn i s ++ l) ++ p ++ r) in Hno
    by (rewrite <- app_assoc; reflexivity).
  rewrite contains_intro in Hno. discriminate.
Qed.

(* ===================================================================== *)
(** * Facts about the balanced scan *)
(* ===================================================================== *)

Section Balanced.

Variables opening closing : ascii.
Hypothesis distinct : ascii_eqb opening closing = false.

Lemma occurrences_nil (d : ascii) : occurrences d [] = 0.
Proof. reflexivity. Qed.

Lemma occurrences_cons (d a : ascii) (s : str) :
  occurrences d (a :: s) = (if ascii_eqb d a then 1 else 0) + occurrences d s.
Proof. unfold occurrences. simpl. destruct (ascii_eqb d a); reflexivity. Qed.

Lemma occurrences_app (d : ascii) (s t : str) :
  occurrences d (s ++ t) = occurrences d s + occurrences d t.
Proof. unfold occurrences. rewrite filter_app, length_app. reflexivity. Qed.

(** The loop runs through [s1] as long as the depth stays positive before
    each of its characters. *)
Lemma scan_balanced_app (s1 s2 : str) :
  forall count pos,
    (forall n, n < length s1 ->
       occurrences closing (firstn n s1) < count + occurrences opening (firstn n s1)) ->
    CSharpParser.scan_balanced opening closing (s1 ++ s2) count pos
    = CSharpParser.scan_balanced opening closing s2
        (count + occurrences opening s1 - occurrences closing s1)
        (pos + length s1).
Proof.
  induction s1 as [|a s1 IH]; intros count pos Hpos.
  - simpl. f_equal; unfold occurrences; simpl; lia.
  - assert (H0 : 0 < count).
    { specialize (Hpos 0). simpl in Hpos. unfold occurrences in Hpos.
      simpl in Hpos. lia. }
    simpl. destruct (0 <? count) eqn:E; [|apply Nat.ltb_ge in E; lia].
    rewrite IH.
    + rewrite !(occurrences_cons _ a).
      rewrite (ascii_eqb_sym opening a), (ascii_eqb_sym closing a).
      destruct (ascii_eqb a opening) eqn:Eo.
      * apply ascii_eqb_eq in Eo. subst a.
        rewrite distinct. f_equal; lia.
      * destruct (ascii_eqb a closing); f_equal; lia.
    + intros n Hn. specialize (Hpos (S n)). simpl in Hpos.
      rewrite !(occurrences_cons _ a) in Hpos.
      rewrite (ascii_eqb_sym opening a), (ascii_eqb_sym closing a) in Hpos.
      destruct (ascii_eqb a opening) eqn:Eo.
      * apply ascii_eqb_eq in Eo. subst a. rewrite distinct in Hpos. lia.
      * destruct (ascii_eqb a closing); lia.
Qed.

Lemma scan_balanced_stops (s : str) (pos : nat) :
  CSharpParser.scan_balanced opening closing s 0 pos = (0, pos).
Proof. destruct s; reflexivity. Qed.

(** Started after an opening delimiter that is followed by a balanced
    [inner] and a closing delimiter, the loop stops just after that
    closing delimiter with the counter at zero. *)
Lemma scan_balanced_finds_partner (inner post : str) (pos : nat) :
  balanced opening closing inner ->
  CSharpParser.scan_balanced opening closing (inner ++ closing :: post) 1 pos
  = (0, pos + length inner + 1).
Proof.
  intros [Hnever Hall].
  replace (inner ++ closing :: post) with ((inner ++ [closing]) ++ post)
    by (rewrite <- app_assoc; reflexivity).
  rewrite scan_balanced_app.
  - assert (Ec : 1 + occurrences opening (inner ++ [closing])
                 - occurrences closing (inner ++ [closing]) = 0).
    { rewrite !occurrences_app, !(occurrences_cons _ closing), distinct.
      replace (ascii_eqb closing closing) with true
        by (symmetry; apply ascii_eqb_eq; reflexivity).
      rewrite !occurrences_nil. lia. }
    rewrite Ec, scan_balanced_stops, length_app. simpl length. f_equal. lia.
  - intros n Hn. rewrite length_app in Hn. simpl in Hn.
    rewrite firstn_app.
    replace (n - length inner) with 0 by lia. simpl. rewrite app_nil_r.
    specialize (Hnever n). lia.
Qed.

(** Started after an opening delimiter that is never closed, the loop runs
    to the end of the text and leaves the counter positive. *)
Lemma scan_balanced_runs_out (rest : str) (pos : nat) :
  never_closed opening closing rest ->
  exists count, count <> 0 /\
    CSharpParser.scan_balanced opening closing rest 1 pos = (count, pos + length rest).
Proof.
  intros Hnever.
  exists (1 + occurrences opening rest - occurrences closing rest). split.
  - specialize (Hnever (length rest) (le_n _)). rewrite firstn_all in Hnever. lia.
  - rewrite <- (app_nil_r rest) at 1. rewrite scan_balanced_app.
    + reflexivity.
    + intros n Hn. specialize (Hnever n). lia.
Qed.

End Balanced.

Lemma skipn_past (A : Type) (pre : list A) (a : A) (rest : list A) :
  skipn (length pre + 1) (pre ++ a :: rest) = rest.
Proof.
  replace (pre ++ a :: rest) with ((pre ++ [a]) ++ rest)
    by (rewrite <- app_assoc; reflexivity).
  replace (length pre + 1) with (length (pre ++ [a]))
    by (rewrite length_app; reflexivity).
  rewrite skipn_app, skipn_all, Nat.sub_diag. reflexivity.
Qed.

Lemma slice_inner (pre : str) (a : ascii) (inner rest : str) :
  slice (pre ++ a :: inner ++ rest) (length pre + 1)
        (length pre + 1 + length inner + 1 - 1) = inner.
Proof.
  unfold slice. rewrite skipn_past.
  replace (length pre + 1 + length inner + 1 - 1 - (length pre + 1))
    with (length inner + 0) by lia.
  rewrite firstn_app_2. simpl. apply app_nil_r.
Qed.

Lemma nth_error_at (pre : str) (a : ascii) (rest : str) :
  nth_error (pre ++ a :: rest) (length pre) = Some a.
Proof. rewrite nth_error_app2, Nat.sub_diag by lia. reflexivity. Qed.

(* ===================================================================== *)
(** * Facts about the verifier *)
(* ===================================================================== *)

Module VerifierFacts.

Import ContractVerifier.

Lemma violations_print (line : str) (st : state) :
  violations (print line st) = violations st.
Proof. reflexivity. Qed.

Lemma violations_print_each (lines : list str) (st : state) :
  violations (print_each lines st) = violations st.
Proof.
  revert st. induction lines as [|l lines IH]; intros st; simpl.
  - reflexivity.
  - unfold print_each in IH. rewrite IH. reflexivity.
Qed.

(** The lines are written behind what was printed before. *)
Lemma print_each_writes (lines : list str) (st : state) :
  stdout (print_each lines st) = stdout st ++ lines.
Proof.
  revert st. induction lines as [|l lines IH]; intros st.
  - symmetry. apply app_nil_r.
  - unfold print_each in *. cbn [fold_left]. rewrite IH.
    cbn [print stdout]. rewrite <- app_assoc. reflexivity.
Qed.

Lemma violations_print_results (key name : str) (st : state) :
  violations (_print_results key name st) = violations st.
Proof.
  unfold _print_results. destruct (violations_of key st); [reflexivity|].
  destruct (10 <? _); simpl; rewrite ?violations_print_each; reflexivity.
Qed.

Lemma record_all_app (key : str) (vs ws : list ContractViolation) (st : state) :
  record_all key (vs ++ ws) st = record_all key ws (record_all key vs st).
Proof. unfold record_all. apply fold_left_app. Qed.

(** A loop that records some violations for each element records, in the
    end, the violations of all elements in order. *)
Lemma fold_record_all (A : Type) (key : str) (F : A -> list ContractViolation)
      (xs : list A) (st : state) :
  fold_left (fun st x => record_all key (F x) st) xs st
  = record_all key (flat_map F xs) st.
Proof.
  revert st. induction xs as [|x xs IH]; intros st; simpl.
  - reflexivity.
  - rewrite IH, record_all_app. reflexivity.
Qed.

Lemma get_append_at (key k : str) (v : ContractViolation)
      (d : dict (list ContractViolation)) :
  Dict.get (append_at key v d) k
  = if str_eqb key k
    then option_map (fun l => l ++ [v]) (Dict.get d k)
    else Dict.get d k.
Proof.
  induction d as [|[k' l] d IH]; simpl.
  - destruct (str_eqb key k); reflexivity.
  - destruct (str_eqb key k') eqn:E1; simpl; destruct (str_eqb k k') eqn:E2.
    + apply str_eqb_eq in E1, E2. subst. rewrite str_eqb_refl. reflexivity.
    + exact IH.
    + apply str_eqb_eq in E2. subst. rewrite E1. reflexivity.
    + exact IH.
Qed.

Lemma violations_of_record (key k : str) (v : ContractViolation) (st : state) :
  Dict.mem k (violations st) = true ->
  violations_of k (record key v st)
  = if str_eqb key k then violations_of k st ++ [v] else violations_of k st.
Proof.
  unfold Dict.mem, violations_of, record. simpl. rewrite get_append_at.
  destruct (Dict.get (violations st) k); [|discriminate].
  intros _. destruct (str_eqb key k); reflexivity.
Qed.

Lemma mem_record (key k : str) (v : ContractViolation) (st : state) :
  Dict.mem k (violations (record key v st)) = Dict.mem k (violations st).
Proof.
  unfold Dict.mem, record. simpl. rewrite get_append_at.
  destruct (str_eqb key k); destruct (Dict.get (violations st) k); reflexivity.
Qed.

Lemma violations_of_record_all (key : str) (vs : list ContractViolation) (st : state) :
  Dict.mem key (violations st) = true ->
  violations_of key (record_all key vs st) = violations_of key st ++ vs.
Proof.
  revert st. induction vs as [|v vs IH]; intros st Hmem.
  - simpl. rewrite app_nil_r. reflexivity.
  - change (record_all key (v :: vs) st) with (record_all key vs (record key v st)).
    rewrite IH by (rewrite mem_record; exact Hmem).
    rewrite violations_of_record by exact Hmem.
    rewrite str_eqb_refl, <- app_assoc. reflexivity.
Qed.

Lemma fold_left_ext (A B : Type) (f g : A -> B -> A) (l : list B) (a : A) :
  (forall a x, f a x = g a x) -> fold_left f l a = fold_left g l a.
Proof.
  intros E. revert a. induction l as [|x l IH]; intros a; simpl.
  - reflexivity.
  - rewrite E. apply IH.
Qed.

(** Check 2 prints its heading, records [integer_id_violations g] and
    prints its results. *)
Lemma check_2_records (g : graph) (st : state) :
  check_no_integer_ids_in_dtos g st
  = _print_results (txt "check_2") (txt "Integer IDs in DTOs")
      (record_all (txt "check_2") (integer_id_violations g)
         (print (dashes 50) (print (nl ++ txt "Check 2: No Integer IDs in DTOs") st))).
Proof.
  unfold check_no_integer_ids_in_dtos, integer_id_violations.
  rewrite <- fold_record_all. f_equal.
  apply fold_left_ext. intros a kv. apply fold_record_all.
Qed.



(** The summary's exit code. *)
Lemma summarize_exit_code (st : state) :
  fst (_summarize st) = if 0 <? blocking_violations st then 1%Z else 0%Z.
Proof. unfold _summarize. destruct (0 <? blocking_violations st); reflexivity. Qed.

End VerifierFacts.

Module SummaryFacts.

Import ContractVerifier VerifierFacts.

Lemma keys_record (key : str) (v : ContractViolation) (st : state) :
  Dict.keys (violations (record key v st)) = Dict.keys (violations st).
Proof.
  unfold record, append_at, Dict.keys. simpl. rewrite map_map.
  apply map_ext. intros [k l]. simpl. destruct (str_eqb key k); reflexivity.
Qed.

Lemma keys_record_all (key : str) (vs : list ContractViolation) (st : state) :
  Dict.keys (violations (record_all key vs st)) = Dict.keys (violations st).
Proof.
  revert st. induction vs as [|v vs IH]; intros st.
  - reflexivity.
  - change (record_all key (v :: vs) st) with (record_all key vs (record key v st)).
    rewrite IH. apply keys_record.
Qed.

(** A loop whose body keeps the keys of [self.violations] keeps them. *)
Lemma keys_fold (A : Type) (step : state -> A -> state) (xs : list A) (st : state) :
  (forall st x, Dict.keys (violations (step st x)) = Dict.keys (violations st)) ->
  Dict.keys (violations (fold_left step xs st)) = Dict.keys (violations st).
Proof.
  intros Hstep. revert st. induction xs as [|x xs IH]; intros st; simpl.
  - reflexivity.
  - rewrite IH. apply Hstep.
Qed.

Lemma keys_check_1 (g : graph) (st : state) :
  Dict.keys (violations (check_response_envelopes g st)) = Dict.keys (violations st).
Proof.
  unfold check_response_envelopes. rewrite violations_print_results, keys_fold.
  - reflexivity.
  - intros s kv. destruct (negb _); [apply keys_record|reflexivity].
Qed.

Lemma keys_check_2 (g : graph) (st : state) :
  Dict.keys (violations (check_no_integer_ids_in_dtos g st)) = Dict.keys (violations st).
Proof.
  rewrite check_2_records, violations_print_results, keys_record_all. reflexivity.
Qed.

Lemma keys_check_3 (g : graph) (st : state) :
  Dict.keys (violations (check_idkey_routes g st)) = Dict.keys (violations st).
Proof.
  unfold check_idkey_routes. rewrite violations_print_results, keys_fold.
  - reflexivity.
  - intros s kv. apply keys_fold. intros s' ep.
    destruct (contains _ _); [apply keys_record|reflexivity].
Qed.

Lemma keys_check_4 (g : graph) (st : state) :
  Dict.keys (violations (check_hook_wrapping g st)) = Dict.keys (violations st).
Proof.
  unfold check_hook_wrapping. rewrite violations_print_results, keys_fold.
  - reflexivity.
  - intros s kv. destruct (match apiCallsDirectly _ with Some b => b | None => false end);
      [apply keys_record|reflexivity].
Qed.

Lemma keys_align_dto (set_order : list str -> list str) (types : dict frontend_type)
      (names : list str) (al : alignment) (kv : str * dto) :
  Dict.keys (violations (al_state (align_dto set_order types names al kv)))
  = Dict.keys (violations (al_state al)).
Proof.
  unfold align_dto. destruct (skipped_dto _); [reflexivity|].
  destruct (nonempty _).
  - destruct (_compare_properties _ _ _); [reflexivity|].
    cbn [al_state]. apply keys_record_all.
  - cbn [al_state]. apply keys_record.
Qed.

Lemma keys_check_5 (set_order : list str -> list str) (g : graph) (st : state) :
  Dict.keys (violations (check_type_alignment set_order g st)) = Dict.keys (violations st).
Proof.
  unfold check_type_alignment. destruct (get_or_empty (types g)) as [|t ts].
  - reflexivity.
  - rewrite violations_print_results.
    set (st0 := print (dashes 50) (print _ st)).
    change (Dict.keys (violations st)) with (Dict.keys (violations st0)).
    set (al := fold_left (align_dto set_order (t :: ts) (Dict.keys (t :: ts)))
                         (Dict.items (get_or_empty (dtos g))) (Alignment st0 [] [])).
    set (stw := fold_left (warn_type set_order (get_or_empty (dtos g)))
                          (set_order (Dict.keys (t :: ts))) (al_state al)).
    assert (E : Dict.keys (violations stw) = Dict.keys (violations st0)).
    { unfold stw. rewrite keys_fold.
      - unfold al. set (al0 := Alignment st0 [] []).
        change (Dict.keys (violations st0)) with (Dict.keys (violations (al_state al0))).
        generalize al0. clear.
        induction (Dict.items (get_or_empty (dtos g))) as [|kv kvs IH]; intros al0; simpl.
        + reflexivity.
        + rewrite IH. apply keys_align_dto.
      - intros s x. unfold warn_type. destruct (_ || _); [reflexivity|].
        destruct (nonempty _); [reflexivity|apply keys_record]. }
    destruct (dtos_without_types al); destruct (property_mismatches al); exact E.
Qed.

Lemma keys_at_summary (set_order : list str -> list str) (g : graph) :
  Dict.keys (violations (state_at_summary set_order g)) = check_keys.
Proof.
  unfold state_at_summary, run_checks.
  rewrite keys_check_5, keys_check_4, keys_check_3, keys_check_2, keys_check_1.
  reflexivity.
Qed.

(** With the five lists in place, [_summarize] counts the FAIL findings of
    the five checks. *)
Lemma blocking_by_check (st : state) :
  Dict.keys (violations st) = check_keys ->
  blocking_violations st = fail_findings st.
Proof.
  unfold blocking_violations, count_severity, fail_findings, fails_of, violations_of.
  destruct (violations st) as [|[k1 l1] [|[k2 l2] [|[k3 l3] [|[k4 l4] [|[k5 l5] [|]]]]]];
    try discriminate.
  intros E. injection E as -> -> -> -> ->. simpl. lia.
Qed.

Lemma main_parsed (set_order : list str -> list str) (graph_path : str) (g : graph) :
  controllers g <> None -> dtos g <> None -> components g <> None -> hooks g <> None ->
  fst (main set_order graph_path (Parsed g))
  = if 0 <? fail_findings (state_at_summary set_order g) then 1%Z else 0%Z.
Proof.
  intros Hc Hd Hk Hh. unfold main, load_graph, required_sections.
  destruct (controllers g); [|congruence]. destruct (dtos g); [|congruence].
  destruct (components g); [|congruence]. destruct (hooks g); [|congruence].
  cbn [find snd negb].
  rewrite <- blocking_by_check by apply keys_at_summary.
  rewrite <- VerifierFacts.summarize_exit_code.
  unfold verify_all, state_at_summary.
  destruct (_summarize _) as [code st']. reflexivity.
Qed.

End SummaryFacts.

(* ===================================================================== *)
(** * The scraper *)
(* ===================================================================== *)

(** C1, as the code has it.  A dependency is only reported for a
    parameter in which white space is followed by a lower-case letter or
    an underscore, the start of the parameter's name.  So for the record
    whose second parameter is named [Svc] the dependencies are not
    [["string"]] and hold neither [string] nor [IService]; with the
    parameter named [svc], [IService] is reported and [string] is not. *)
Theorem dependencies_need_lower_case_parameter_name :
  (forall content d,
     In d (CSharpParser.extract_constructor_dependencies content) ->
     exists m param,
       search CSharpParser.primary_constructor_pattern content = Some m
       /\ In param (CSharpParser._split_parameters (group_str m 1))
       /\ In d (CSharpParser.dependency_of_param param)
       /\ space_then_lower (strip param))
  /\ CSharpParser.extract_constructor_dependencies record_with_Svc <> [txt "string"]
  /\ ~ In (txt "string") (CSharpParser.extract_constructor_dependencies record_with_Svc)
  /\ ~ In (txt "IService") (CSharpParser.extract_constructor_dependencies record_with_Svc)
  /\ In (txt "IService") (CSharpParser.extract_constructor_dependencies record_with_svc)
  /\ ~ In (txt "string") (CSharpParser.extract_constructor_dependencies record_with_svc).
Proof.
  split.
  { intros content d Hd. unfold CSharpParser.extract_constructor_dependencies in Hd.
    destruct (search CSharpParser.primary_constructor_pattern content) as [m|];
      [|contradiction].
    apply in_flat_map in Hd. destruct Hd as [param [Hp Hd]].
    exists m, param. repeat split; try assumption.
    apply DependencyFacts.dependency_needs_lower_case_name.
    intros E. rewrite E in Hd. contradiction. }
  assert (E1 : CSharpParser.extract_constructor_dependencies record_with_Svc
               = [txt "required"]) by (vm_compute; reflexivity).
  assert (E2 : CSharpParser.extract_constructor_dependencies record_with_svc
               = [txt "required"; txt "IService"]) by (vm_compute; reflexivity).
  rewrite E1, E2. split; [|split; [|split; [|split]]].
  - discriminate.
  - intros [H|[]]. discriminate H.
  - intros [H|[]]. discriminate H.
  - right. left. reflexivity.
  - intros [H|[H|[]]]; discriminate H.
Qed.

(** The first part at the record with [svc] and the dependency [IService]. *)
Lemma dependencies_witness :
  In (txt "IService") (CSharpParser.extract_constructor_dependencies record_with_svc)
  /\ exists m param,
       search CSharpParser.primary_constructor_pattern record_with_svc = Some m
       /\ In param (CSharpParser._split_parameters (group_str m 1))
       /\ In (txt "IService") (CSharpParser.dependency_of_param param)
       /\ space_then_lower (strip param).
Proof.
  assert (H : In (txt "IService")
                 (CSharpParser.extract_constructor_dependencies record_with_svc))
    by (vm_compute; right; left; reflexivity).
  split; [exact H|].
  exact (proj1 dependencies_need_lower_case_parameter_name
               record_with_svc (txt "IService") H).
Defined.

(** C1 as the specification words it does not hold: the dependencies of
    the record with [Svc] are not [["IService"]]. *)
Lemma dependencies_of_record_not_IService :
  CSharpParser.extract_constructor_dependencies record_with_Svc <> [txt "IService"].
Proof. vm_compute. discriminate. Qed.

(** C2, as the code has it.  For a declaration [public M T N {] with a
    type token [T] and an identifier [N], a modifier does not prevent the
    match: with [virtual] or [override] the property [N] is recorded and
    the modifier is part of its type string; with [required] the property
    is recorded with the type [T] alone, unless [T] is one of the words
    that are never taken for a type. *)
Theorem modifier_does_not_prevent_match :
  forall T N,
    is_token T = true -> is_identifier N = true ->
    CSharpParser.extract_properties
      (txt "public virtual " ++ T ++ txt " " ++ N ++ txt " {")
    = [(N, txt "virtual " ++ T)]
    /\ CSharpParser.extract_properties
         (txt "public override " ++ T ++ txt " " ++ N ++ txt " {")
       = [(N, txt "override " ++ T)]
    /\ (str_in T CSharpParser.not_a_type = false ->
        CSharpParser.extract_properties
          (txt "public required " ++ T ++ txt " " ++ N ++ txt " {")
        = [(N, T)]).
Proof.
  intros T N HT HN. split; [|split].
  - apply (PropertyFacts.extract_properties_with_modifier (txt "virtual") T N);
      try assumption; reflexivity.
  - apply (PropertyFacts.extract_properties_with_modifier (txt "override") T N);
      try assumption; reflexivity.
  - intros Hnot. apply (PropertyFacts.extract_properties_with_required T N); assumption.
Qed.

(** The statement at the type [Person] and the name [Owner]. *)
Lemma modifier_does_not_prevent_match_witness :
  is_token (txt "Person") = true /\ is_identifier (txt "Owner") = true
  /\ CSharpParser.extract_properties (txt "public virtual Person Owner {")
     = [(txt "Owner", txt "virtual Person")].
Proof.
  split; [reflexivity|]. split; [reflexivity|].
  apply (proj1 (modifier_does_not_prevent_match (txt "Person") (txt "Owner")
                  eq_refl eq_refl)).
Defined.

(** C2 as the specification words it does not hold: the declaration
    [public virtual Person Owner {] is matched and a property is recorded
    for it. *)
Lemma virtual_property_is_recorded :
  CSharpParser.extract_properties (txt "public virtual Person Owner {") <> [].
Proof. vm_compute. discriminate. Qed.

(** C3. A method extracted from a match of the method pattern has
    [is_async] false whenever [async] does not occur in the (at most) 50
    characters before the start of the match, and so whenever it does not
    occur anywhere before the match.  Every extracted method comes from
    such a match; the window is the end of the text before the match and
    holds nothing of the matched signature; the signature
    [public async Task<string> AsyncMethod(] at the start of a text is
    extracted with [is_async] false. *)
Theorem is_async_false_without_async_in_lookback :
  (forall content m meth,
     In m (finditer CSharpParser.method_pattern content) ->
     contains (txt "async") (slice content (m_start m - 50) (m_start m)) = false ->
     In meth (CSharpParser.method_of_match content m) ->
     CSharpParser.is_async meth = false)
  /\ (forall content m meth,
        In m (finditer CSharpParser.method_pattern content) ->
        contains (txt "async") (firstn (m_start m) content) = false ->
        In meth (CSharpParser.method_of_match content m) ->
        CSharpParser.is_async meth = false)
  /\ (forall content meth,
        In meth (CSharpParser.extract_methods content) ->
        exists m, In m (finditer CSharpParser.method_pattern content)
                  /\ In meth (CSharpParser.method_of_match content m))
  /\ (forall content m,
        exists before,
          firstn (m_start m) content = before ++ CSharpParser.lookback content m)
  /\ CSharpParser.extract_methods async_sample
     = [CSharpParser.Method (txt "AsyncMethod") (txt "Task<string>") false].
Proof.
  assert (W : forall content m meth,
             contains (txt "async") (slice content (m_start m - 50) (m_start m)) = false ->
             In meth (CSharpParser.method_of_match content m) ->
             CSharpParser.is_async meth = false).
  { intros content m meth Hwin Hin.
    unfold CSharpParser.method_of_match, CSharpParser.lookback in Hin.
    rewrite Hwin in Hin.
    destruct (negb _) in Hin; simpl in Hin; [|contradiction].
    destruct Hin as [<-|[]]. reflexivity. }
  split; [|split; [|split; [|split]]].
  - intros content m meth _. apply W.
  - intros content m meth _ Hno. apply W.
    apply contains_slice; [lia|exact Hno].
  - intros content meth Hin. unfold CSharpParser.extract_methods in Hin.
    apply in_flat_map in Hin. exact Hin.
  - intros content m. exists (firstn (m_start m - 50) content).
    unfold CSharpParser.lookback, slice. apply firstn_split_at. lia.
  - vm_compute. reflexivity.
Qed.

(** The first part at the sample text and its one match. *)
Lemma is_async_false_witness :
  In async_sample_match (finditer CSharpParser.method_pattern async_sample)
  /\ contains (txt "async")
       (slice async_sample (m_start async_sample_match - 50)
              (m_start async_sample_match)) = false
  /\ CSharpParser.is_async
       (CSharpParser.Method (txt "AsyncMethod") (txt "Task<string>") false) = false.
Proof.
  split; [vm_compute; left; reflexivity|].
  split; [vm_compute; reflexivity|].
  apply (proj1 is_async_false_without_async_in_lookback
               async_sample async_sample_match).
  - vm_compute. left. reflexivity.
  - vm_compute. reflexivity.
  - vm_compute. left. reflexivity.
Defined.

(** C8, as the code has it.  Each balanced scanner starts at its own
    opening delimiter and returns the text strictly between that delimiter
    and its partner, nested pairs included: [_extract_balanced_parens]
    when [start_pos] is the position of a parenthesis, the brace loop of
    [extract_class_body] from the position just after the brace that ends
    the class header.  At a position that holds no parenthesis
    [_extract_balanced_parens] returns the empty string.  When the text
    ends before the depth is back at zero the parenthesis scanner returns
    the empty string and the brace loop [None]. *)
Theorem balanced_extraction :
  (forall pre inner post,
     balanced "(" ")" inner ->
     CSharpParser._extract_balanced_parens (pre ++ "("%char :: inner ++ ")"%char :: post)
                                          (length pre) = inner)
  /\ (forall pre inner post,
        balanced "{" "}" inner ->
        CSharpParser.body_from (pre ++ "{"%char :: inner ++ "}"%char :: post)
                               (length pre + 1) = Some inner)
  /\ (forall content start_pos,
        nth_error content start_pos <> Some "("%char ->
        CSharpParser._extract_balanced_parens content start_pos = [])
  /\ CSharpParser.extract_class_body (txt "class Outer { a { b } c }") (txt "Outer")
     = Some (txt " a { b } c ")
  /\ CSharpParser._extract_balanced_parens (txt "( a ( b ) c )") 0 = txt " a ( b ) c "
  /\ (forall pre rest,
        never_closed "(" ")" rest ->
        CSharpParser._extract_balanced_parens (pre ++ "("%char :: rest) (length pre) = [])
  /\ (forall pre rest,
        never_closed "{" "}" rest ->
        CSharpParser.body_from (pre ++ "{"%char :: rest) (length pre + 1) = None).
Proof.
  split; [|split; [|split; [|split; [|split; [|split]]]]].
  - intros pre inner post Hbal.
    unfold CSharpParser._extract_balanced_parens.
    rewrite nth_error_at. simpl negb. cbv iota.
    rewrite skipn_past.
    rewrite (scan_balanced_finds_partner (opening := "(") (closing := ")"))
      by (reflexivity || exact Hbal).
    simpl Nat.eqb. cbv iota beta.
    apply (slice_inner pre "(" inner (")"%char :: post)).
  - intros pre inner post Hbal.
    unfold CSharpParser.body_from.
    rewrite skipn_past.
    rewrite (scan_balanced_finds_partner (opening := "{") (closing := "}"))
      by (reflexivity || exact Hbal).
    simpl Nat.eqb. cbv iota beta. f_equal.
    apply (slice_inner pre "{" inner ("}"%char :: post)).
  - intros content start_pos Hno.
    unfold CSharpParser._extract_balanced_parens.
    destruct (nth_error content start_pos) as [a|]; [|reflexivity].
    destruct (ascii_eqb a "(") eqn:E; [|reflexivity].
    apply ascii_eqb_eq in E. subst a. congruence.
  - vm_compute. reflexivity.
  - vm_compute. reflexivity.
  - intros pre rest Hnever.
    unfold CSharpParser._extract_balanced_parens.
    rewrite nth_error_at. simpl negb. cbv iota.
    rewrite skipn_past.
    destruct (scan_balanced_runs_out (opening := "(") (closing := ")")
                eq_refl (length pre + 1) Hnever) as [count [Hc ->]].
    destruct count; [congruence|reflexivity].
  - intros pre rest Hnever.
    unfold CSharpParser.body_from.
    rewrite skipn_past.
    destruct (scan_balanced_runs_out (opening := "{") (closing := "}")
                eq_refl (length pre + 1) Hnever) as [count [Hc ->]].
    destruct count; [congruence|reflexivity].
Qed.

(** C8 as the specification words it does not hold: on [{ a { b } c }]
    from position 0 the one scanner that takes a position returns the
    empty string, since no parenthesis stands there. *)
Lemma parens_scanner_needs_parenthesis :
  CSharpParser._extract_balanced_parens (txt "{ a { b } c }") 0 = []
  /\ CSharpParser._extract_balanced_parens (txt "{ a { b } c }") 0
     <> txt " a { b } c ".
Proof. split; [reflexivity|]. vm_compute. discriminate. Qed.

(** The first part at [( a ( b ) c )]. *)
Lemma balanced_extraction_witness :
  balanced "(" ")" (txt " a ( b ) c ")
  /\ CSharpParser._extract_balanced_parens (txt "( a ( b ) c )") 0 = txt " a ( b ) c ".
Proof.
  assert (B : balanced "(" ")" (txt " a ( b ) c ")).
  { split; [|reflexivity].
    intros n Hn.
    do 12 (destruct n as [|n]; [vm_compute; lia|]).
    simpl in Hn. lia. }
  split; [exact B|].
  exact (proj1 balanced_extraction [] (txt " a ( b ) c ") [] B).
Defined.

(** C9. [camel_to_snake] is the lower-case form of the name with an
    underscore before every capital letter [A-Z] that follows a
    lower-case letter or a digit (a word boundary), or that follows any
    character but a newline and is itself followed by a lower-case letter
    (the last capital of an acronym, which starts the next word), and
    nowhere else.  The texts on the two sides of such a place are
    converted on their own.  So [HTTPSConnection] gets its underscore at
    the acronym boundary, [GroupMember], [personID] and [GroupMemberRole]
    at their word boundaries, [Address1] stays in one piece, and the
    result never holds a capital letter [A-Z]. *)
Theorem camel_to_snake_boundaries :
  (forall name,
     CSharpParser.camel_to_snake name = lower (with_underscores name))
  /\ (forall x a b y,
        word_boundary a (b :: y) = true ->
        CSharpParser.camel_to_snake (x ++ a :: b :: y)
        = CSharpParser.camel_to_snake (x ++ [a])
            ++ "_"%char :: CSharpParser.camel_to_snake (b :: y))
  /\ CSharpParser.camel_to_snake (txt "HTTPSConnection") = txt "https_connection"
  /\ CSharpParser.camel_to_snake (txt "Address1") = txt "address1"
  /\ CSharpParser.camel_to_snake (txt "GroupMember") = txt "group_member"
  /\ CSharpParser.camel_to_snake (txt "personID") = txt "person_id"
  /\ CSharpParser.camel_to_snake (txt "GroupMemberRole") = txt "group_member_role"
  /\ forall name a,
       In a (CSharpParser.camel_to_snake name) -> is_upper_az a = false.
Proof.
  split; [exact SnakeFacts.camel_to_snake_marks|].
  split; [exact SnakeFacts.camel_to_snake_split|].
  do 5 (split; [vm_compute; reflexivity|]).
  intros name a Ha. unfold CSharpParser.camel_to_snake, lower in Ha.
  apply in_map_iff in Ha. destruct Ha as [b [<- _]].
  apply lower_char_not_upper.
Qed.

(** The second part at [personID], between [n] and [I]. *)
Lemma camel_to_snake_witness :
  word_boundary "n" (txt "ID") = true
  /\ CSharpParser.camel_to_snake (txt "personID")
     = txt "person" ++ "_"%char :: txt "id".
Proof.
  split; [reflexivity|].
  exact (proj1 (proj2 camel_to_snake_boundaries)
               (txt "perso") "n"%char "I"%char (txt "D") eq_refl).
Defined.

(* ===================================================================== *)
(** * The merger *)
(* ===================================================================== *)

(** C5. For two graphs that each have an edge list, the merged edge list
    is the backend's edges followed by the frontend's, nothing dropped and
    nothing merged, and [stats.total_edges] is the sum of the two
    lengths.  A graph without [edges] adds nothing.  An edge that both
    graphs have stands twice in the result. *)
Theorem merge_concatenates_edges :
  (forall (now : str) (backend : GraphMerger.backend_graph)
          (frontend : GraphMerger.frontend_graph)
          (backend_edges frontend_edges : list GraphMerger.json),
     GraphMerger.b_edges backend = Some backend_edges ->
     GraphMerger.f_edges frontend = Some frontend_edges ->
     let merged := snd (GraphMerger.merge now backend frontend) in
     fst (GraphMerger.merge now backend frontend) = true
     /\ GraphMerger.edges merged = backend_edges ++ frontend_edges
     /\ length (GraphMerger.edges merged)
        = length backend_edges + length frontend_edges
     /\ GraphMerger.total_edges (GraphMerger.merged_stats merged)
        = length backend_edges + length frontend_edges)
  /\ (forall now backend frontend frontend_edges,
        GraphMerger.b_edges backend = None ->
        GraphMerger.f_edges frontend = Some frontend_edges ->
        GraphMerger.edges (snd (GraphMerger.merge now backend frontend))
        = frontend_edges)
  /\ (forall now backend frontend backend_edges,
        GraphMerger.b_edges backend = Some backend_edges ->
        GraphMerger.f_edges frontend = None ->
        GraphMerger.edges (snd (GraphMerger.merge now backend frontend))
        = backend_edges)
  /\ (forall now backend frontend,
        GraphMerger.b_edges backend = None ->
        GraphMerger.f_edges frontend = None ->
        GraphMerger.edges (snd (GraphMerger.merge now backend frontend)) = [])
  /\ (forall now,
        GraphMerger.edges
          (snd (GraphMerger.merge now backend_with_edges frontend_with_edges))
        = [ sample_edge "PeopleController" "PersonService" "depends_on";
            sample_edge "PersonService" "PersonDto" "returns";
            sample_edge "PersonService" "PersonDto" "returns";
            sample_edge "usePeople" "getPeople" "calls" ]).
Proof.
  split; [|split; [|split; [|split]]].
  - intros now backend frontend backend_edges frontend_edges Hb Hf.
    unfold GraphMerger.merge. cbn [fst snd GraphMerger.edges GraphMerger.merged_stats
                                    GraphMerger.total_edges].
    rewrite Hb, Hf. cbn [GraphMerger.get_or_empty app].
    rewrite length_app. repeat split; reflexivity.
  - intros now backend frontend frontend_edges Hb Hf.
    unfold GraphMerger.merge. cbn [snd GraphMerger.edges].
    rewrite Hb, Hf. reflexivity.
  - intros now backend frontend backend_edges Hb Hf.
    unfold GraphMerger.merge. cbn [snd GraphMerger.edges].
    rewrite Hb, Hf. cbn [GraphMerger.get_or_empty app]. apply app_nil_r.
  - intros now backend frontend Hb Hf.
    unfold GraphMerger.merge. cbn [snd GraphMerger.edges].
    rewrite Hb, Hf. reflexivity.
  - intros now. reflexivity.
Qed.

(** The first part at the two graphs with an edge in common. *)
Lemma merge_concatenates_edges_witness :
  GraphMerger.edges
    (snd (GraphMerger.merge [] backend_with_edges frontend_with_edges))
  = [ sample_edge "PeopleController" "PersonService" "depends_on";
      sample_edge "PersonService" "PersonDto" "returns" ]
    ++ [ sample_edge "PersonService" "PersonDto" "returns";
         sample_edge "usePeople" "getPeople" "calls" ]
  /\ GraphMerger.total_edges
       (GraphMerger.merged_stats
          (snd (GraphMerger.merge [] backend_with_edges frontend_with_edges)))
     = 2 + 2.
Proof.
  destruct (proj1 merge_concatenates_edges [] backend_with_edges frontend_with_edges
                  _ _ eq_refl eq_refl) as [_ [E [_ T]]].
  split; [exact E|exact T].
Defined.

Lemma route_to_pattern_of_equal (a b : str) :
  str_eqb a b = true ->
  str_eqb (GraphMerger.route_to_pattern a) (GraphMerger.route_to_pattern b) = true.
Proof. intros E. apply str_eqb_eq in E. subst b. apply str_eqb_refl. Qed.

(** C7. Two routes match exactly when their normal forms ([//] replaced by
    [/], outer slashes stripped) are equal once every placeholder is
    replaced by [{param}].  In a route written as texts without [{]
    around any number of placeholders, every placeholder becomes
    [{param}] whatever its name.  So two routes with the same texts
    around their placeholders match whatever the parameters are called,
    and two such routes that match have the same texts: nothing but the
    names is ignored.  [{id}] and [{idKey}] match, also with a second
    parameter behind them; [people] and [groups] do not. *)
Theorem routes_match_up_to_parameter_names :
  (forall backend_route frontend_route,
     GraphMerger._routes_match backend_route frontend_route
     = str_eqb
         (GraphMerger.route_to_pattern (GraphMerger.normalize_route backend_route))
         (GraphMerger.route_to_pattern (GraphMerger.normalize_route frontend_route)))
  /\ (forall L rest,
        route_parts L rest = true ->
        GraphMerger.route_to_pattern (route_text L rest) = route_text L (renamed rest))
  /\ (forall backend_route frontend_route L backend_rest frontend_rest,
        route_parts L backend_rest = true -> route_parts L frontend_rest = true ->
        GraphMerger.normalize_route backend_route = route_text L backend_rest ->
        GraphMerger.normalize_route frontend_route = route_text L frontend_rest ->
        map snd backend_rest = map snd frontend_rest ->
        GraphMerger._routes_match backend_route frontend_route = true)
  /\ (forall backend_route frontend_route L L' backend_rest frontend_rest,
        route_parts L backend_rest = true -> route_parts L' frontend_rest = true ->
        GraphMerger.normalize_route backend_route = route_text L backend_rest ->
        GraphMerger.normalize_route frontend_route = route_text L' frontend_rest ->
        GraphMerger._routes_match backend_route frontend_route = true ->
        L = L' /\ map snd backend_rest = map snd frontend_rest)
  /\ GraphMerger.normalize_route (txt "/api//v1/people/{id}/")
     = txt "api/v1/people/{id}"
  /\ GraphMerger._routes_match (txt "/api/v1/people/{id}")
                              (txt "/api/v1/people/{idKey}") = true
  /\ GraphMerger._routes_match (txt "/api/people/{id}/notes/{noteId}")
                              (txt "/api/people/{idKey}/notes/{noteKey}") = true
  /\ GraphMerger._routes_match (txt "/api/v1/people") (txt "/api/v1/groups") = false.
Proof.
  assert (M : forall b f,
             GraphMerger._routes_match b f
             = str_eqb
                 (GraphMerger.route_to_pattern (GraphMerger.normalize_route b))
                 (GraphMerger.route_to_pattern (GraphMerger.normalize_route f))).
  { intros b f. unfold GraphMerger._routes_match.
    destruct (str_eqb (GraphMerger.normalize_route b) (GraphMerger.normalize_route f)) eqn:E.
    - symmetry. apply route_to_pattern_of_equal. exact E.
    - reflexivity. }
  split; [exact M|]. split; [exact PlaceholderFacts.route_to_pattern_all|].
  split; [|split].
  - intros br fr L rb rf Hb Hf Eb Ef Em.
    rewrite M, Eb, Ef, !PlaceholderFacts.route_to_pattern_all by assumption.
    rewrite (@PlaceholderFacts.renamed_same rb rf Em). apply str_eqb_refl.
  - intros br fr L L' rb rf Hb Hf Eb Ef Hm.
    rewrite M, Eb, Ef, !PlaceholderFacts.route_to_pattern_all in Hm by assumption.
    apply str_eqb_eq in Hm.
    destruct (@PlaceholderFacts.route_parts_texts L rb Hb) as [HL Hr].
    destruct (@PlaceholderFacts.route_parts_texts L' rf Hf) as [HL' Hr'].
    exact (@PlaceholderFacts.renamed_unique rb L L' rf HL Hr HL' Hr' Hm).
  - do 3 (split; [vm_compute; reflexivity|]). vm_compute. reflexivity.
Qed.

(** The second part at a route with two placeholders. *)
Lemma routes_match_witness :
  route_parts (txt "api/people/") [(txt "id", txt "/notes/"); (txt "noteId", [])] = true
  /\ GraphMerger.route_to_pattern (txt "api/people/{id}/notes/{noteId}")
     = txt "api/people/{param}/notes/{param}".
Proof.
  split; [reflexivity|].
  exact (proj1 (proj2 routes_match_up_to_parameter_names)
               (txt "api/people/") [(txt "id", txt "/notes/"); (txt "noteId", [])]
               eq_refl).
Defined.

(* ===================================================================== *)
(** * The verifier *)
(* ===================================================================== *)

Import ContractVerifier.

(** C4. The verifier exits with 2 when there is no graph file, when
    [json.load] rejects the file with a [JSONDecodeError], and when the
    object in the file lacks one of the sections [controllers], [dtos],
    [components], [hooks].  With the four sections there, in the shape the
    checks read, it exits with 0 when the five checks recorded no FAIL
    finding, whatever they recorded as WARN, and with 1 when they recorded
    at least one: a graph with one WARN finding exits with 0, a graph with
    one FAIL finding with 1.  An array without the names of the sections
    also exits with 2.  But a file that cannot be read as text, and a file
    that holds [null], a truth value or a number, end the run with an
    exception that nothing catches: the exit status is 1, nothing is
    printed and no check has run.  A string that holds the four names
    passes the test of the sections and ends the run in the same way at
    the start of check 1. *)
Theorem verifier_exit_code :
  (forall (set_order : list str -> list str) (graph_path : str),
     main set_order graph_path NoFile
     = (2%Z, [txt "ERROR: Graph file not found: " ++ path_str (path_str graph_path)])
     /\ (forall error,
           main set_order graph_path (BadJson error)
           = (2%Z, [txt "ERROR: Invalid JSON in " ++ path_str (path_str graph_path)
                      ++ txt ": " ++ error]))
     /\ (forall g,
           controllers g = None \/ dtos g = None
           \/ components g = None \/ hooks g = None ->
           fst (main set_order graph_path (Parsed g)) = 2%Z)
     /\ (forall g,
           controllers g <> None -> dtos g <> None ->
           components g <> None -> hooks g <> None ->
           (fail_findings (state_at_summary set_order g) = 0 ->
            fst (main set_order graph_path (Parsed g)) = 0%Z)
           /\ (0 < fail_findings (state_at_summary set_order g) ->
               fst (main set_order graph_path (Parsed g)) = 1%Z)))
  /\ (forall graph_path,
        warning_violations (state_at_summary (fun names => names) graph_with_warning) = 1
        /\ fail_findings (state_at_summary (fun names => names) graph_with_warning) = 0
        /\ fst (main (fun names => names) graph_path (Parsed graph_with_warning)) = 0%Z)
  /\ (forall set_order graph_path,
        fail_findings (state_at_summary set_order graph_with_failure) = 1
        /\ fst (main set_order graph_path (Parsed graph_with_failure)) = 1%Z)
  /\ (forall (set_order : list str -> list str) (graph_path : str),
        (forall exception,
           main set_order graph_path (Unreadable exception) = (1%Z, []))
        /\ main set_order graph_path (NotAnObject TNull) = (1%Z, [])
        /\ (forall b, main set_order graph_path (NotAnObject (TBool b)) = (1%Z, []))
        /\ (forall literal,
              main set_order graph_path (NotAnObject (TNumber literal)) = (1%Z, []))
        /\ main set_order graph_path (NotAnObject (TArray []))
           = (2%Z, [txt "ERROR: Graph missing required section: controllers"])
        /\ main set_order graph_path
             (NotAnObject (TString (txt "controllers dtos components hooks")))
           = (1%Z,
              [ equals 70; txt "KOINON RMS CONTRACT VERIFICATION"; equals 70;
                nl ++ txt "Check 1: Response Envelope Documentation"; dashes 50 ])).
Proof.
  split; [|split; [|split]].
  - intros set_order graph_path.
    split; [reflexivity|]. split; [reflexivity|]. split.
    + intros g H. unfold main, load_graph, required_sections.
      destruct (controllers g); [|reflexivity].
      destruct (dtos g); [|reflexivity].
      destruct (components g); [|reflexivity].
      destruct (hooks g); [|reflexivity].
      destruct H as [H|[H|[H|H]]]; discriminate H.
    + intros g Hc Hd Hk Hh.
      rewrite (SummaryFacts.main_parsed set_order graph_path g Hc Hd Hk Hh).
      split; intros H.
      * rewrite H. reflexivity.
      * destruct (0 <? _) eqn:E; [reflexivity|]. apply Nat.ltb_ge in E. lia.
  - intros graph_path. split; [vm_compute; reflexivity|].
    split; [vm_compute; reflexivity|].
    rewrite SummaryFacts.main_parsed by discriminate.
    vm_compute. reflexivity.
  - intros set_order graph_path. split; [vm_compute; reflexivity|].
    rewrite SummaryFacts.main_parsed by discriminate.
    vm_compute. reflexivity.
  - intros set_order graph_path. repeat split.
Qed.

(** The last general part at a graph in which nothing is found. *)
Lemma verifier_exit_code_witness :
  controllers graph_without_types <> None
  /\ fail_findings (state_at_summary (fun names => names) graph_without_types) = 0
  /\ fst (main (fun names => names) (txt "graph-baseline.json")
             (Parsed graph_without_types)) = 0%Z.
Proof.
  split; [discriminate|]. split; [vm_compute; reflexivity|].
  apply (proj2 (proj2 (proj2 (proj1 verifier_exit_code (fun names => names)
                                (txt "graph-baseline.json"))))
               graph_without_types);
    try discriminate.
  vm_compute. reflexivity.
Defined.



(** C10. When the graph has no [types] section, or an empty one, check 5
    prints its heading and three lines of information and returns: it
    records nothing, so the findings of check 5 and the numbers of FAIL
    and of WARN findings are what they were before it, and so is the
    exit code of a summary.  The exit code of the verifier is then the
    one that checks 1 to 4 alone give.  A DTO for which check 5 records a
    FAIL finding when some frontend type is there gets none when there
    are no frontend types. *)
Theorem check_5_without_types_records_nothing :
  (forall (set_order : list str -> list str) (g : graph),
     types g = None \/ types g = Some [] ->
     (forall st,
        stdout (check_type_alignment set_order g st) = stdout st ++ no_types_lines g
        /\ violations (check_type_alignment set_order g st) = violations st
        /\ violations_of (txt "check_5") (check_type_alignment set_order g st)
           = violations_of (txt "check_5") st
        /\ blocking_violations (check_type_alignment set_order g st)
           = blocking_violations st
        /\ warning_violations (check_type_alignment set_order g st)
           = warning_violations st
        /\ fst (_summarize (check_type_alignment set_order g st)) = fst (_summarize st))
     /\ (forall graph_path,
           controllers g <> None -> dtos g <> None ->
           components g <> None -> hooks g <> None ->
           fst (main set_order graph_path (Parsed g))
           = fst (_summarize (state_before_check_5 g))))
  /\ violations_of (txt "check_5")
       (check_type_alignment (fun names => names) graph_with_other_type init)
     = [ Violation (txt "Check 5") (txt "FAIL") (txt "PersonDto")
           (txt "No corresponding frontend type found");
         Violation (txt "Check 5") (txt "WARN") (txt "Other")
           (txt "Frontend type has no corresponding backend DTO (may be frontend-only)") ]
  /\ violations_of (txt "check_5")
       (check_type_alignment (fun names => names) graph_with_dto_only init)
     = [].
Proof.
  split; [|split; [vm_compute; reflexivity|vm_compute; reflexivity]].
  intros set_order g H.
  assert (P : forall st,
             check_type_alignment set_order g st = print_each (no_types_lines g) st).
  { intros st. unfold check_type_alignment. destruct H as [-> | ->]; reflexivity. }
  assert (V : forall st, violations (check_type_alignment set_order g st) = violations st).
  { intros st. rewrite P. apply VerifierFacts.violations_print_each. }
  assert (S : forall st,
             fst (_summarize (check_type_alignment set_order g st)) = fst (_summarize st)).
  { intros st. rewrite !VerifierFacts.summarize_exit_code.
    unfold blocking_violations, count_severity. rewrite V. reflexivity. }
  split.
  - intros st. split; [rewrite P; apply VerifierFacts.print_each_writes|].
    split; [apply V|].
    unfold violations_of, blocking_violations, warning_violations, count_severity.
    rewrite V.
    split; [reflexivity|]. split; [reflexivity|]. split; [reflexivity|]. apply S.
  - intros graph_path Hc Hd Hk Hh. unfold main, load_graph, required_sections.
    destruct (controllers g); [|congruence]. destruct (dtos g); [|congruence].
    destruct (components g); [|congruence]. destruct (hooks g); [|congruence].
    cbn [find snd negb]. unfold verify_all.
    rewrite <- (S (state_before_check_5 _)).
    unfold run_checks, state_before_check_5.
    destruct (_summarize _) as [code st']. reflexivity.
Qed.

(** The first part at the graph with one DTO and the initial state. *)
Lemma check_5_without_types_witness :
  (types graph_with_dto_only = None \/ types graph_with_dto_only = Some [])
  /\ stdout (check_type_alignment (fun names => names) graph_with_dto_only init)
     = [ nl ++ txt "Check 5: Type Alignment (Frontend ↔ Backend)";
         dashes 50;
         txt "  [INFO] Frontend types not yet generated in graph";
         txt "         Backend has 1 DTOs";
         txt "         Run 'npm run graph:frontend' to generate frontend type information." ]
  /\ violations (check_type_alignment (fun names => names) graph_with_dto_only init)
     = violations init.
Proof.
  split; [left; reflexivity|].
  destruct (proj1 (proj1 check_5_without_types_records_nothing (fun names => names)
                         graph_with_dto_only (or_introl eq_refl)) init)
    as [Hout [Hv _]].
  split; [exact Hout|exact Hv].
Defined.

(* ===================================================================== *)
(** * Further facts about text *)
(* ===================================================================== *)

Import ReFacts Soundness FuelFacts PropertyFacts.

Lemma str_eqb_sym (s t : str) : str_eqb s t = str_eqb t s.
Proof.
  destruct (str_eqb s t) eqn:E1, (str_eqb t s) eqn:E2; try reflexivity.
  - apply str_eqb_eq in E1. subst. rewrite str_eqb_refl in E2. discriminate.
  - apply str_eqb_eq in E2. subst. rewrite str_eqb_refl in E1. discriminate.
Qed.

Lemma firstn_exact (A : Type) (s t : list A) : firstn (length s) (s ++ t) = s.
Proof.
  rewrite firstn_app, Nat.sub_diag, firstn_all. cbn [firstn]. apply app_nil_r.
Qed.

Lemma skipn_split (A : Type) (s : list A) (n : nat) :
  s = firstn n s ++ skipn n s.
Proof. symmetry. apply firstn_skipn. Qed.

Lemma endswith_app (x p : str) : endswith p (x ++ p) = true.
Proof.
  unfold endswith. rewrite length_app.
  replace (length x + length p - length p) with (length x) by lia.
  rewrite skipn_app, skipn_all, Nat.sub_diag. cbn [skipn app].
  rewrite str_eqb_refl, andb_true_r. apply Nat.leb_le. lia.
Qed.

(** ** Dictionaries *)

Module DictFacts.

Lemma get_set (V : Type) (k k' : str) (v : V) (d : dict V) :
  Dict.get (Dict.set k v d) k' = if str_eqb k' k then Some v else Dict.get d k'.
Proof.
  induction d as [|[k0 v0] d IH]; cbn [Dict.set Dict.get].
  - reflexivity.
  - destruct (str_eqb k k0) eqn:E; cbn [Dict.get].
    + apply str_eqb_eq in E. subst k0. destruct (str_eqb k' k); reflexivity.
    + destruct (str_eqb k' k0) eqn:E0.
      * apply str_eqb_eq in E0. subst k0. rewrite str_eqb_sym, E. reflexivity.
      * exact IH.
Qed.

Lemma in_set (V : Type) (k k' : str) (v v' : V) (d : dict V) :
  In (k, v) (Dict.set k' v' d) -> (k = k' /\ v = v') \/ In (k, v) d.
Proof.
  induction d as [|[k0 v0] d IH]; cbn [Dict.set].
  - intros [E|[]]. injection E as <- <-. left. split; reflexivity.
  - destruct (str_eqb k' k0) eqn:E.
    + apply str_eqb_eq in E. subst k0. intros [H|H].
      * injection H as <- <-. left. split; reflexivity.
      * right. right. exact H.
    + intros [H|H]; [right; left; exact H|].
      destruct (IH H) as [H'|H']; [left; exact H'|right; right; exact H'].
Qed.

Lemma mem_keys (V : Type) (k : str) (d : dict V) :
  Dict.mem k d = true <-> In k (Dict.keys d).
Proof.
  unfold Dict.mem, Dict.keys. induction d as [|[k0 v0] d IH]; cbn [Dict.get map fst].
  - split; [discriminate|intros []].
  - destruct (str_eqb k k0) eqn:E.
    + apply str_eqb_eq in E. subst. split; [left; reflexivity|reflexivity].
    + rewrite IH. split; [right; assumption|].
      intros [H|H]; [|exact H]. subst. rewrite str_eqb_refl in E. discriminate.
Qed.

End DictFacts.

Import DictFacts.

Module UpdateFacts.

Lemma keys_set (V : Type) (k : str) (v : V) (d : dict V) :
  Dict.keys (Dict.set k v d)
  = if Dict.mem k d then Dict.keys d else Dict.keys d ++ [k].
Proof.
  unfold Dict.keys, Dict.mem. induction d as [|[k0 v0] d IH]; cbn [Dict.set Dict.get map].
  - reflexivity.
  - destruct (str_eqb k k0) eqn:E; cbn [map fst].
    + reflexivity.
    + rewrite IH. destruct (Dict.get d k); reflexivity.
Qed.

(** Assigning to a key keeps the keys of a dictionary distinct. *)
Lemma set_nodup (V : Type) (k : str) (v : V) (d : dict V) :
  NoDup (Dict.keys d) -> NoDup (Dict.keys (Dict.set k v d)).
Proof.
  intros H. rewrite keys_set. destruct (Dict.mem k d) eqn:E; [exact H|].
  apply NoDup_app; [exact H|repeat constructor; intros []|].
  intros x Hx [<-|[]]. apply mem_keys in Hx. congruence.
Qed.

Lemma get_absent (V : Type) (d : dict V) (k : str) :
  ~ In k (Dict.keys d) -> Dict.get d k = None.
Proof.
  intros H. destruct (Dict.get d k) eqn:E; [|reflexivity].
  exfalso. apply H. apply mem_keys. unfold Dict.mem. rewrite E. reflexivity.
Qed.

(** [update] gives the values of [other] to its keys and leaves the other
    keys alone. *)
Lemma get_update (V : Type) (other : dict V) :
  NoDup (Dict.keys other) ->
  forall (d : dict V) (k : str),
    Dict.get (Dict.update other d) k
    = match Dict.get other k with
      | Some v => Some v
      | None => Dict.get d k
      end.
Proof.
  unfold Dict.update.
  induction other as [|[k0 v0] other IH]; intros Hnd d k; cbn [fold_left Dict.get fst snd].
  - reflexivity.
  - cbn [Dict.keys map fst] in Hnd. inversion Hnd as [|x l Hx Hl]; subst.
    rewrite (IH Hl), get_set.
    destruct (str_eqb k k0) eqn:E.
    + apply str_eqb_eq in E. subst k0. rewrite (get_absent _ _ Hx). reflexivity.
    + reflexivity.
Qed.

End UpdateFacts.

(** ** Lines and pieces *)

Module LineFacts.

Lemma split_on_cons (sep : ascii) (s : str) :
  exists piece pieces, split_on sep s = piece :: pieces.
Proof.
  induction s as [|a s IH]; simpl.
  - eauto.
  - destruct (ascii_eqb a sep); [eauto|].
    destruct IH as (piece & pieces & ->). eauto.
Qed.

Lemma join_cons (sep piece : str) (p : str) (ps : list str) :
  join sep (piece :: p :: ps) = piece ++ sep ++ join sep (p :: ps).
Proof. reflexivity. Qed.

(** Splitting and joining again gives the text back. *)
Lemma join_split_on (sep : ascii) (s : str) : join [sep] (split_on sep s) = s.
Proof.
  induction s as [|a s IH]; [reflexivity|].
  cbn [split_on].
  destruct (split_on_cons sep s) as (piece & pieces & E).
  rewrite E in *.
  destruct (ascii_eqb a sep) eqn:Ea.
  - apply ascii_eqb_eq in Ea. subst a.
    rewrite join_cons. rewrite IH. reflexivity.
  - destruct pieces as [|p ps].
    + cbn [join] in *. subst. reflexivity.
    + rewrite join_cons in *. rewrite <- IH. reflexivity.
Qed.

Lemma startswith_before (p x y : str) (n : ascii) :
  ~ In n p -> startswith p (x ++ n :: y) = true -> startswith p x = true.
Proof.
  revert x. induction p as [|b p IH]; intros x Hn H; [destruct x; reflexivity|].
  destruct x as [|a x]; simpl in *.
  - apply andb_true_iff in H. destruct H as [H _].
    apply ascii_eqb_eq in H. subst. exfalso. apply Hn. left. reflexivity.
  - apply andb_true_iff in H. destruct H as [H1 H2].
    rewrite H1. simpl. apply IH; [|exact H2].
    intros Hin. apply Hn. right. exact Hin.
Qed.

Lemma contains_nil_false (p : str) : contains p [] = false -> p <> [].
Proof. intros H ->. discriminate. Qed.

(** A text that is not in either part is not in the whole when the
    separator is not in it. *)
Lemma contains_around (p x y : str) (n : ascii) :
  ~ In n p -> contains p x = false -> contains p y = false ->
  contains p (x ++ n :: y) = false.
Proof.
  intros Hn. induction x as [|a x IH]; intros Hx Hy.
  - cbn [app]. cbn [contains]. rewrite Hy, orb_false_r.
    destruct (startswith p (n :: y)) eqn:E; [|reflexivity].
    destruct p as [|b p]; [discriminate|]. simpl in E.
    apply andb_true_iff in E. destruct E as [E _]. apply ascii_eqb_eq in E.
    subst. exfalso. apply Hn. left. reflexivity.
  - cbn [app contains] in *. apply orb_false_iff in Hx. destruct Hx as [Hs Hx].
    rewrite (IH Hx Hy), orb_false_r.
    destruct (startswith p (a :: x ++ n :: y)) eqn:E; [|reflexivity].
    apply (@startswith_before p (a :: x) y n Hn) in E. congruence.
Qed.

Lemma contains_join (p : str) (n : ascii) (ls : list str) :
  ~ In n p -> Forall (fun l => contains p l = false) ls -> ls <> [] ->
  contains p (join [n] ls) = false.
Proof.
  intros Hn H. induction H as [|l ls Hl H IH]; intros Hne; [congruence|].
  destruct ls as [|l' ls']; [exact Hl|].
  rewrite join_cons. cbn [app]. apply contains_around; [exact Hn|exact Hl|].
  apply IH. discriminate.
Qed.

Lemma contains_left (p x y : str) : contains p x = true -> contains p (x ++ y) = true.
Proof.
  intros H. apply contains_inv in H. destruct H as (l & r & ->).
  rewrite <- !app_assoc. apply contains_intro.
Qed.

Lemma contains_right (p x y : str) : contains p y = true -> contains p (x ++ y) = true.
Proof.
  intros H. apply contains_inv in H. destruct H as (l & r & ->).
  rewrite app_assoc. apply contains_intro.
Qed.

Lemma contains_piece (p sep : str) (ls : list str) (l : str) :
  In l ls -> contains p l = true -> contains p (join sep ls) = true.
Proof.
  induction ls as [|x ls IH]; intros Hin Hl; [destruct Hin|].
  destruct ls as [|y ls'].
  - destruct Hin as [->|[]]. exact Hl.
  - rewrite join_cons. destruct Hin as [->|Hin].
    + apply contains_left. exact Hl.
    + apply contains_right, contains_right. apply IH; assumption.
Qed.

(** ** [find] *)

Lemma find_str_absent (p s : str) :
  (find_str p s < 0)%Z <-> contains p s = false.
Proof.
  induction s as [|a s IH]; simpl.
  - destruct (startswith p []); simpl; split; intros; try lia; congruence.
  - destruct (startswith p (a :: s)); simpl.
    + split; intros; [lia|congruence].
    + destruct (find_str p s <? 0)%Z eqn:E.
      * apply Z.ltb_lt in E. split; intros _; [apply IH; exact E|lia].
      * apply Z.ltb_ge in E. split; intros H; [lia|].
        apply IH in H. lia.
Qed.

Lemma startswith_firstn (p s : str) (n : nat) :
  startswith p (firstn n s) = true -> startswith p s = true.
Proof.
  revert s n. induction p as [|b p IH]; intros s n H; [destruct s; reflexivity|].
  destruct n as [|n]; destruct s as [|a s]; simpl in *; try discriminate.
  apply andb_true_iff in H. destruct H as [H1 H2]. rewrite H1. simpl.
  apply (IH _ _ H2).
Qed.

(** What stands before the first occurrence does not contain the text. *)
Lemma find_str_before (p s : str) :
  p <> [] -> (0 <= find_str p s)%Z ->
  contains p (firstn (Z.to_nat (find_str p s)) s) = false.
Proof.
  intros Hp. induction s as [|a s IH]; simpl.
  - destruct p; [congruence|]. simpl. intros; reflexivity.
  - destruct (startswith p (a :: s)) eqn:Es.
    + simpl. intros _. destruct p; [congruence|reflexivity].
    + destruct (find_str p s <? 0)%Z eqn:E; [lia|].
      apply Z.ltb_ge in E. intros _.
      replace (Z.to_nat (find_str p s + 1)) with (S (Z.to_nat (find_str p s))) by lia.
      cbn [firstn contains]. rewrite (IH E), orb_false_r.
      destruct (startswith p (a :: firstn (Z.to_nat (find_str p s)) s)) eqn:E2;
        [|reflexivity].
      apply (startswith_firstn p (a :: s) (S (Z.to_nat (find_str p s)))) in E2.
      congruence.
Qed.

Lemma join_snoc (sep : str) (l : list str) (x : str) :
  l <> [] -> join sep (l ++ [x]) = join sep l ++ sep ++ x.
Proof.
  induction l as [|y l IH]; intros Hne; [congruence|].
  destruct l as [|z l'].
  - reflexivity.
  - assert (E : join sep (z :: l' ++ [x]) = join sep (z :: l') ++ sep ++ x).
    { apply IH. discriminate. }
    cbn [app]. rewrite !join_cons, E, <- !app_assoc. reflexivity.
Qed.

Lemma join_last_char (sep : str) (l : list str) (x : str) (c : ascii) :
  join sep (l ++ [x ++ [c]]) = join sep (l ++ [x]) ++ [c].
Proof.
  destruct l as [|y l]; [reflexivity|].
  rewrite !join_snoc by discriminate. rewrite <- !app_assoc. reflexivity.
Qed.

Lemma join_new_piece (sep : str) (l : list str) (x : str) :
  join sep ((l ++ [x]) ++ [[]]) = join sep (l ++ [x]) ++ sep.
Proof.
  rewrite (@join_snoc sep (l ++ [x]) []).
  - rewrite app_nil_r. reflexivity.
  - destruct l; discriminate.
Qed.

End LineFacts.

(** ** Patterns and substrings *)

Module SubstringFacts.

(** A literal stands for its own text only. *)
Lemma denotes_lit_str (l w : str) : denotes (lit_str l) w -> w = l.
Proof.
  revert w. induction l as [|a l IH]; intros w H; cbn [lit_str] in H.
  - inversion H. reflexivity.
  - inversion H as [| |r1 r2 w1 w2 H1 H2| | | | |]; subst.
    inversion H1 as [|p b Hb| | | | | |]; subst.
    apply ascii_eqb_eq in Hb. subst b. cbn [app]. f_equal. apply IH. exact H2.
Qed.

Lemma contains_within (p pre w post : str) :
  contains p w = true -> contains p (pre ++ w ++ post) = true.
Proof.
  intros H. apply contains_inv in H. destruct H as (l & r & ->).
  replace (pre ++ (l ++ p ++ r) ++ post) with ((pre ++ l) ++ p ++ (r ++ post))
    by (rewrite <- !app_assoc; reflexivity).
  apply contains_intro.
Qed.

(** Every text of a sequence contains the text of each literal item. *)
Lemma denotes_seq_contains (l : str) (rs : list regex) (w : str) :
  In (lit_str l) rs -> denotes (seq rs) w -> contains l w = true.
Proof.
  revert w. induction rs as [|r rs IH]; intros w Hin H; [destruct Hin|].
  cbn [seq] in H. inversion H as [| |r1 r2 w1 w2 H1 H2| | | | |]; subst.
  destruct Hin as [->|Hin].
  - apply denotes_lit_str in H1. subst w1.
    apply (contains_intro [] l w2).
  - apply (contains_within l w1 w2 []) in IH; [|exact Hin|exact H2].
    rewrite app_nil_r in IH. exact IH.
Qed.

(** A match of a search lies in the text. *)
Lemma search_from_within (r : regex) (s : str) :
  forall pos m,
    search_from r pos s = Some m ->
    exists pre w post,
      s = pre ++ w ++ post /\ denotes r w
      /\ m_start m = pos + length pre /\ m_end m = m_start m + length w.
Proof.
  induction s as [|a s IH]; intros pos m H; cbn [search_from] in H.
  - destruct (match_at r pos []) as [m'|] eqn:E; [|discriminate].
    injection H as ->.
    destruct (match_at_span _ _ _ E) as [w [s' [Es [D [Hs He]]]]].
    exists [], w, s'. cbn [app length]. repeat split; try assumption; lia.
  - destruct (match_at r pos (a :: s)) as [m'|] eqn:E.
    + injection H as ->.
      destruct (match_at_span _ _ _ E) as [w [s' [Es [D [Hs He]]]]].
      exists [], w, s'. cbn [app length]. repeat split; try assumption; lia.
    + destruct (IH _ _ H) as (pre & w & post & Es & D & Hs & He).
      exists (a :: pre), w, post. cbn [app length]. rewrite Es.
      repeat split; try assumption; lia.
Qed.

(** A pattern all of whose texts contain [l] is not found in a text
    without [l]. *)
Lemma search_needs (l : str) (r : regex) (s : str) (pos : nat) :
  (forall w, denotes r w -> contains l w = true) ->
  contains l s = false -> search_from r pos s = None.
Proof.
  intros Hr Hs. destruct (search_from r pos s) as [m|] eqn:E; [|reflexivity].
  apply search_from_within in E. destruct E as (pre & w & post & -> & D & _).
  rewrite (contains_within l pre w post (Hr w D)) in Hs. discriminate.
Qed.

Lemma finditer_none (r : regex) (s : str) :
  search r s = None -> finditer r s = [].
Proof.
  unfold finditer, search. intros H. cbn [finditer_from]. rewrite H. reflexivity.
Qed.

(** Matching a literal is a prefix test. *)
Lemma rmatch_lit_str (A : Type) (l : str) :
  forall (s : str) (c : caps) (k : str -> caps -> option A),
    rmatch (lit_str l) s c k
    = if startswith l s then k (skipn (length l) s) c else None.
Proof.
  induction l as [|a l IH]; intros s c k; cbn [lit_str].
  - rewrite rmatch_eps. destruct s; reflexivity.
  - rewrite rmatch_cat. unfold chr. destruct s as [|b s].
    + rewrite rmatch_cls_nil. reflexivity.
    + rewrite rmatch_cls. cbn [startswith length skipn].
      destruct (ascii_eqb a b); [apply IH|reflexivity].
Qed.

Lemma match_at_lit_str (l s : str) (pos : nat) :
  match_at (lit_str l) pos s
  = if startswith l s
    then Some (MatchObj pos (pos + (length s - length (skipn (length l) s))) [])
    else None.
Proof. unfold match_at. apply rmatch_lit_str. Qed.

(** Searching for a literal is the substring test. *)
Lemma found_lit_str (l s : str) :
  CSharpParser.found (lit_str l) s = contains l s.
Proof.
  unfold CSharpParser.found, search. generalize 0 as pos.
  induction s as [|a s IH]; intros pos; cbn [search_from contains];
    rewrite match_at_lit_str.
  - destruct (startswith l []); reflexivity.
  - destruct (startswith l (a :: s)); [reflexivity|]. cbn [orb]. apply IH.
Qed.

Lemma match_at_alt (r1 r2 : regex) (pos : nat) (s : str) :
  match_at (Alt r1 r2) pos s
  = match match_at r1 pos s with
    | Some m => Some m
    | None => match_at r2 pos s
    end.
Proof. unfold match_at. rewrite rmatch_alt. reflexivity. Qed.

Lemma found_alt_lit_str (l1 l2 s : str) :
  CSharpParser.found (Alt (lit_str l1) (lit_str l2)) s
  = contains l1 s || contains l2 s.
Proof.
  unfold CSharpParser.found, search. generalize 0 as pos.
  induction s as [|a s IH]; intros pos; cbn [search_from contains];
    rewrite match_at_alt, !match_at_lit_str.
  - destruct (startswith l1 []), (startswith l2 []); reflexivity.
  - destruct (startswith l1 (a :: s)); [reflexivity|].
    destruct (startswith l2 (a :: s)); cbn [orb];
      [rewrite orb_true_r; reflexivity|].
    apply IH.
Qed.

End SubstringFacts.

Import SubstringFacts.

Module SearchFacts.

(** A pattern all of whose texts have a character in [p] is not found in a
    text without such a character. *)
Lemma search_needs_char (p : ascii -> bool) (r : regex) (s : str) (pos : nat) :
  (forall w, denotes r w -> existsb p w = true) ->
  existsb p s = false -> search_from r pos s = None.
Proof.
  intros Hr Hs. destruct (search_from r pos s) as [m|] eqn:E; [|reflexivity].
  apply search_from_within in E. destruct E as (pre & w & post & -> & D & _).
  rewrite !existsb_app, (Hr w D), orb_true_r in Hs. discriminate.
Qed.

(** A match that covers the whole text is the only one. *)
Lemma finditer_whole (r : regex) (content : str) (c : caps) :
  content <> [] ->
  (forall pos, search_from r pos [] = None) ->
  match_at r 0 content = Some (whole_match content c) ->
  finditer r content = [whole_match content c].
Proof.
  intros Hne Hnil Hm. unfold finditer.
  destruct content as [|a content]; [congruence|].
  cbn [finditer_from search_from]. rewrite Hm.
  unfold whole_match. cbn [m_end m_start length Nat.add Nat.sub Nat.eqb].
  cbn [skipn]. rewrite skipn_all.
  cbn [finditer_from]. rewrite Hnil. reflexivity.
Qed.

(** Before the first occurrence of [l] no suffix starts with [l]. *)
Lemma find_str_first (l s : str) :
  forall n i, find_str l s = Z.of_nat n -> i < n -> startswith l (skipn i s) = false.
Proof.
  induction s as [|a s IH]; intros n i H Hi; cbn [find_str] in H.
  - destruct (startswith l []); lia.
  - destruct (startswith l (a :: s)) eqn:Es; [lia|].
    destruct (find_str l s <? 0)%Z eqn:E; [lia|].
    destruct i as [|i]; [exact Es|].
    cbn [skipn]. apply (IH (n - 1)); lia.
Qed.

(** A pattern that starts with [l] is not found before that occurrence. *)
Lemma search_from_skip (l : str) (r : regex) :
  forall n s pos,
    n <= length s ->
    (forall i, i < n -> startswith l (skipn i s) = false) ->
    search_from (Cat (lit_str l) r) pos s
    = search_from (Cat (lit_str l) r) (pos + n) (skipn n s).
Proof.
  induction n as [|n IH]; intros s pos Hn H.
  - rewrite Nat.add_0_r. reflexivity.
  - destruct s as [|a s]; [simpl in Hn; lia|].
    cbn [search_from skipn].
    unfold match_at at 1. rewrite rmatch_cat, rmatch_lit_str.
    pose proof (H 0 ltac:(lia)) as H0. cbn [skipn] in H0. rewrite H0.
    rewrite (IH s (S pos)).
    + f_equal. lia.
    + simpl in Hn. lia.
    + intros i Hi. apply (H (S i)). lia.
Qed.

Lemma search_at_first (l : str) (r tail : regex) (pre s : str) (m : rmatch_obj) :
  r = Cat (lit_str l) tail ->
  find_str l (pre ++ s) = Z.of_nat (length pre) ->
  match_at r (length pre) s = Some m ->
  search r (pre ++ s) = Some m.
Proof.
  intros -> Hf Hm. unfold search.
  rewrite (@search_from_skip l tail (length pre)).
  - rewrite skipn_app, skipn_all, Nat.sub_diag. cbn [skipn app plus].
    destruct s; cbn [search_from]; rewrite Hm; reflexivity.
  - rewrite length_app. lia.
  - intros i Hi. apply (@find_str_first l (pre ++ s) (length pre) i Hf Hi).
Qed.

(** Greedy runs. *)
Lemma plus_greedy_run (A : Type) (p : ascii -> bool) (run rest : str) (c : caps)
      (k : str -> caps -> option A) (x : A) :
  run <> [] -> forallb p run = true -> stops p rest -> k rest c = Some x ->
  rmatch (Plus true (Cls p)) (run ++ rest) c k = Some x.
Proof.
  intros Hne Hrun Hs Hk. destruct run as [|a run]; [congruence|].
  cbn [forallb] in Hrun. apply andb_true_iff in Hrun. destruct Hrun as [Ha Hrun].
  unfold Plus. rewrite rmatch_cat. cbn [app]. rewrite rmatch_cls, Ha.
  apply star_greedy_run; assumption.
Qed.

Lemma grp_plus_greedy_run (A : Type) (i : nat) (p : ascii -> bool) (run rest : str)
      (c : caps) (k : str -> caps -> option A) (x : A) :
  run <> [] -> forallb p run = true -> stops p rest ->
  k rest ((i, run) :: c) = Some x ->
  rmatch (Grp i (Plus true (Cls p))) (run ++ rest) c k = Some x.
Proof.
  intros Hne Hrun Hs Hk. rewrite rmatch_grp.
  apply plus_greedy_run; try assumption.
  rewrite firstn_app_minus. exact Hk.
Qed.

Lemma stops_app (p q : ascii -> bool) (gap rest : str) :
  forallb q gap = true -> (forall a, q a = true -> p a = false) ->
  stops p rest -> stops p (gap ++ rest).
Proof.
  intros Hg Hq Hs. destruct gap as [|a gap]; [exact Hs|].
  cbn [forallb] in Hg. apply andb_true_iff in Hg. destruct Hg as [Ha _].
  cbn [app stops]. apply Hq. exact Ha.
Qed.

Lemma stops_head (p q : ascii -> bool) (run rest : str) :
  run <> [] -> forallb q run = true -> (forall a, q a = true -> p a = false) ->
  stops p (run ++ rest).
Proof.
  intros Hne Hr Hq. destruct run as [|a run]; [congruence|].
  cbn [forallb] in Hr. apply andb_true_iff in Hr. destruct Hr as [Ha _].
  cbn [app stops]. apply Hq. exact Ha.
Qed.

End SearchFacts.

(* ===================================================================== *)
(** * The scraper: parameters, comments and balanced text *)
(* ===================================================================== *)

Import DictFacts UpdateFacts LineFacts SubstringFacts SearchFacts CSharpParser.

Module ParameterFacts.

Lemma split_step_join (st : split_state) (c : ascii) :
  join (txt ",") (params (split_step st c) ++ [current (split_step st c)])
  = join (txt ",") (params st ++ [current st]) ++ [c].
Proof.
  unfold split_step.
  destruct (one_of "<[" c); [apply join_last_char|].
  destruct (one_of ">]" c); [apply join_last_char|].
  destruct (ascii_eqb c ",") eqn:Ec; cbn [andb].
  - destruct (bracket_count st =? 0)%Z; cbn [params current].
    + apply ascii_eqb_eq in Ec. subst c. apply join_new_piece.
    + apply join_last_char.
  - apply join_last_char.
Qed.

Lemma split_fold_join (s : str) :
  forall st,
    join (txt ",") (params (fold_left split_step s st)
                      ++ [current (fold_left split_step s st)])
    = join (txt ",") (params st ++ [current st]) ++ s.
Proof.
  induction s as [|c s IH]; intros st; cbn [fold_left].
  - rewrite app_nil_r. reflexivity.
  - rewrite IH, split_step_join, <- app_assoc. reflexivity.
Qed.

Lemma split_fold_single (s : str) :
  forall ps cur d,
    (forall pre post, s = pre ++ ","%char :: post -> (d + bracket_depth pre <> 0)%Z) ->
    fold_left split_step s (SplitState ps cur d)
    = SplitState ps (cur ++ s) (d + bracket_depth s).
Proof.
  induction s as [|c s IH]; intros ps cur d H; cbn [fold_left bracket_depth].
  - rewrite app_nil_r, Z.add_0_r. reflexivity.
  - assert (Hstep : split_step (SplitState ps cur d) c
                    = SplitState ps (cur ++ [c]) (d + bracket_delta c)).
    { unfold split_step, bracket_delta. cbn [params current bracket_count].
      destruct (one_of "<[" c); [reflexivity|].
      destruct (one_of ">]" c); [reflexivity|].
      rewrite Z.add_0_r.
      destruct (ascii_eqb c ",") eqn:Ec; [|reflexivity].
      apply ascii_eqb_eq in Ec. subst c.
      specialize (H [] s eq_refl). cbn [bracket_depth] in H.
      destruct (d =? 0)%Z eqn:Ed; [|reflexivity].
      apply Z.eqb_eq in Ed. lia. }
    rewrite Hstep, IH.
    + rewrite <- app_assoc, Z.add_assoc. reflexivity.
    + intros pre post E. specialize (H (c :: pre) post).
      cbn [app bracket_depth] in H. rewrite E in H. specialize (H eq_refl). lia.
Qed.

Lemma split_step_params (ps qs : list str) (cur : str) (d : Z) (c : ascii) :
  split_step (SplitState (ps ++ qs) cur d) c
  = SplitState (ps ++ params (split_step (SplitState qs cur d) c))
               (current (split_step (SplitState qs cur d) c))
               (bracket_count (split_step (SplitState qs cur d) c)).
Proof.
  unfold split_step. cbn [params current bracket_count].
  destruct (one_of "<[" c); [reflexivity|].
  destruct (one_of ">]" c); [reflexivity|].
  destruct (ascii_eqb c "," && (d =? 0)%Z); cbn [params current bracket_count].
  - rewrite <- app_assoc. reflexivity.
  - reflexivity.
Qed.

Lemma split_fold_params (s : str) :
  forall ps qs cur d,
    fold_left split_step s (SplitState (ps ++ qs) cur d)
    = SplitState (ps ++ params (fold_left split_step s (SplitState qs cur d)))
                 (current (fold_left split_step s (SplitState qs cur d)))
                 (bracket_count (fold_left split_step s (SplitState qs cur d))).
Proof.
  induction s as [|c s IH]; intros ps qs cur d; cbn [fold_left]; [reflexivity|].
  rewrite split_step_params.
  destruct (split_step (SplitState qs cur d) c) as [qs' cur' d'].
  cbn [params current bracket_count]. apply IH.
Qed.

Lemma split_step_comma (ps : list str) (cur : str) :
  split_step (SplitState ps cur 0) ","%char = SplitState (ps ++ [cur]) [] 0.
Proof. reflexivity. Qed.

(** The test for a comma outside brackets finds every such comma. *)
Lemma has_top_level_comma_sound (s : str) :
  forall d,
    has_top_level_comma d s = false ->
    forall pre post, s = pre ++ ","%char :: post -> (d + bracket_depth pre <> 0)%Z.
Proof.
  induction s as [|c s IH]; intros d H pre post E.
  - destruct pre; discriminate.
  - cbn [has_top_level_comma] in H. apply orb_false_iff in H. destruct H as [Hc Hs].
    destruct pre as [|a pre]; cbn [app] in E; injection E as -> ->.
    + change (ascii_eqb "," ",") with true in Hc. cbn [andb] in Hc.
      apply Z.eqb_neq in Hc. cbn [bracket_depth]. lia.
    + cbn [bracket_depth]. specialize (IH _ Hs pre post eq_refl). lia.
Qed.

Lemma no_top_level_comma_test (s : str) :
  has_top_level_comma 0 s = false -> no_top_level_comma s.
Proof.
  intros H pre post E.
  pose proof (@has_top_level_comma_sound s 0%Z H pre post E) as N. lia.
Qed.

End ParameterFacts.

Import ParameterFacts.

(** X1. Joining the pieces of [_split_parameters] with commas gives the
    parameter text back, but for one comma at its very end, which is
    dropped together with the empty piece after it. *)
Theorem split_parameters_round_trip :
  forall params_str,
    let pieces := _split_parameters params_str in
    (join (txt ",") pieces = params_str
     \/ join (txt ",") pieces ++ txt "," = params_str)
    /\ (endswith (txt ",") params_str = false ->
        join (txt ",") pieces = params_str).
Proof.
  intros s pieces.
  assert (H : join (txt ",") pieces = s \/ join (txt ",") pieces ++ txt "," = s).
  { subst pieces. unfold _split_parameters.
    pose proof (split_fold_join s (SplitState [] [] 0)) as E.
    cbn [params current app join] in E.
    destruct (current (fold_left split_step s (SplitState [] [] 0))) as [|a cur].
    - destruct (params (fold_left split_step s (SplitState [] [] 0))) as [|p ps].
      + left. exact E.
      + right. rewrite join_snoc in E by discriminate.
        rewrite app_nil_r in E. exact E.
    - left. exact E. }
  split; [exact H|].
  intros He. destruct H as [H|H]; [exact H|].
  rewrite <- H, endswith_app in He. discriminate.
Qed.

(** The second part at a parameter list with a comma inside brackets. *)
Lemma split_parameters_round_trip_witness :
  endswith (txt ",") (txt "IDictionary<string, int> map, int n") = false
  /\ join (txt ",") (_split_parameters (txt "IDictionary<string, int> map, int n"))
     = txt "IDictionary<string, int> map, int n".
Proof.
  split; [reflexivity|].
  exact (proj2 (split_parameters_round_trip (txt "IDictionary<string, int> map, int n"))
               eq_refl).
Defined.

(** X2. [_split_parameters] splits at the commas at which its bracket
    counter is zero and nowhere else: a text without such a comma is one
    piece, and a piece that ends at such a comma, where the counter is
    zero again, is followed by the pieces of the rest.  Nothing is a piece
    of the empty text, the piece after a final comma is dropped, and a
    closing bracket without an opening one, as the arrow of a lambda,
    keeps the commas after it from splitting. *)
Theorem split_parameters_at_top_level_commas :
  (forall s, s <> [] -> no_top_level_comma s -> _split_parameters s = [s])
  /\ (forall a b,
        no_top_level_comma a -> bracket_depth a = 0%Z ->
        _split_parameters (a ++ ","%char :: b) = a :: _split_parameters b)
  /\ _split_parameters [] = []
  /\ _split_parameters (txt "Func<int, int> f, int n,")
     = [txt "Func<int, int> f"; txt " int n"]
  /\ _split_parameters (txt "a => b, int n") = [txt "a => b, int n"].
Proof.
  split; [|split; [|split; [reflexivity|split; reflexivity]]].
  - intros s Hne H. unfold _split_parameters.
    rewrite split_fold_single.
    + cbn [current params app]. destruct s; [congruence|reflexivity].
    + intros pre post E. rewrite Z.add_0_l. exact (H pre post E).
  - intros a b H Hd. unfold _split_parameters.
    rewrite fold_left_app. rewrite split_fold_single.
    + cbn [fold_left app]. rewrite Z.add_0_l, Hd.
      rewrite split_step_comma. cbn [app].
      change [a] with ([a] ++ []).
      rewrite (split_fold_params b [a] [] [] 0). cbn [current params].
      destruct (current (fold_left split_step b (SplitState [] [] 0))); reflexivity.
    + intros pre post E. rewrite Z.add_0_l. exact (H pre post E).
Qed.

(** The first two parts at [Func<int, int> f] and what follows it. *)
Lemma split_parameters_at_top_level_commas_witness :
  no_top_level_comma (txt "Func<int, int> f")
  /\ _split_parameters (txt "Func<int, int> f") = [txt "Func<int, int> f"]
  /\ _split_parameters (txt "Func<int, int> f" ++ ","%char :: txt " int n")
     = [txt "Func<int, int> f"; txt " int n"].
Proof.
  assert (H : no_top_level_comma (txt "Func<int, int> f")).
  { apply no_top_level_comma_test. reflexivity. }
  split; [exact H|]. split.
  - apply (proj1 split_parameters_at_top_level_commas); [discriminate|exact H].
  - rewrite (proj1 (proj2 split_parameters_at_top_level_commas)
               (txt "Func<int, int> f") (txt " int n") H eq_refl).
    reflexivity.
Defined.

Module CommentFacts.

Lemma strip_line_comment_clean (line : str) :
  contains (txt "//") (strip_line_comment line) = false.
Proof.
  unfold strip_line_comment.
  destruct (0 <=? find_str (txt "//") line)%Z eqn:E.
  - apply Z.leb_le in E. apply find_str_before; [discriminate|exact E].
  - apply Z.leb_gt in E. apply find_str_absent. exact E.
Qed.

Lemma strip_line_comment_id (line : str) :
  contains (txt "//") line = false -> strip_line_comment line = line.
Proof.
  intros H. unfold strip_line_comment.
  apply find_str_absent in H.
  destruct (0 <=? find_str (txt "//") line)%Z eqn:E; [|reflexivity].
  apply Z.leb_le in E. lia.
Qed.

Lemma strip_comments_clean (text : str) :
  contains (txt "//") (_strip_comments text) = false.
Proof.
  unfold _strip_comments. apply contains_join.
  - vm_compute. intros [H|[H|[]]]; discriminate.
  - apply Forall_forall. intros l Hl. apply in_map_iff in Hl.
    destruct Hl as (x & <- & _). apply strip_line_comment_clean.
  - destruct (split_on_cons newline text) as (a & b & ->). discriminate.
Qed.

Lemma strip_comments_id (text : str) :
  contains (txt "//") text = false -> _strip_comments text = text.
Proof.
  intros H. unfold _strip_comments.
  rewrite <- (join_split_on newline text) at 2. f_equal.
  rewrite <- (map_id (split_on newline text)) at 2.
  apply map_ext_in. intros l Hl. apply strip_line_comment_id.
  destruct (contains (txt "//") l) eqn:E; [|reflexivity].
  rewrite <- (join_split_on newline text) in H.
  rewrite (contains_piece _ _ _ _ Hl E) in H. discriminate.
Qed.

End CommentFacts.

Import CommentFacts.

(** X3. The result of [_strip_comments] contains no [//]: every line is
    cut at its first [//], also inside a string literal.  A text without
    [//] is returned as it is, so that stripping twice is stripping
    once. *)
Theorem strip_comments_removes_every_marker :
  (forall text, contains (txt "//") (_strip_comments text) = false)
  /\ (forall text, contains (txt "//") text = false -> _strip_comments text = text)
  /\ (forall text, _strip_comments (_strip_comments text) = _strip_comments text)
  /\ _strip_comments (txt "int A, // first" ++ [newline] ++ txt "int B")
     = txt "int A, " ++ [newline] ++ txt "int B"
  /\ _strip_comments (txt "string Url = " ++ [quote] ++ txt "http://x" ++ [quote])
     = txt "string Url = " ++ [quote] ++ txt "http:".
Proof.
  split; [exact strip_comments_clean|].
  split; [exact strip_comments_id|].
  split; [intros text; apply strip_comments_id, strip_comments_clean|].
  split; reflexivity.
Qed.

(** The second part at a text without a comment. *)
Lemma strip_comments_witness :
  contains (txt "//") (txt "int A, int B") = false
  /\ _strip_comments (txt "int A, int B") = txt "int A, int B".
Proof.
  split; [reflexivity|].
  exact (proj1 (proj2 strip_comments_removes_every_marker) (txt "int A, int B") eq_refl).
Defined.

Section BalancedConverse.

Variables opening closing : ascii.
Hypothesis distinct : ascii_eqb opening closing = false.

(** When the loop ends with the counter at zero, it has run through a text
    that closes the [count] delimiters that were open, and just past the
    delimiter that closed the last of them. *)
Lemma scan_balanced_closed (rest : str) :
  forall count pos pos',
    0 < count ->
    CSharpParser.scan_balanced opening closing rest count pos = (0, pos') ->
    exists inner post,
      rest = inner ++ closing :: post
      /\ pos' = pos + length inner + 1
      /\ (forall n, n <= length inner ->
            occurrences closing (firstn n inner)
            < count + occurrences opening (firstn n inner))
      /\ occurrences closing inner + 1 = count + occurrences opening inner.
Proof.
  induction rest as [|a rest IH]; intros count pos pos' Hc H.
  - simpl in H. injection H as H _. lia.
  - cbn [CSharpParser.scan_balanced] in H.
    destruct (0 <? count) eqn:E; [|apply Nat.ltb_ge in E; lia]. clear E.
    destruct (ascii_eqb a opening) eqn:Eo.
    + apply ascii_eqb_eq in Eo. subst a.
      apply IH in H; [|lia]. destruct H as (inner & post & -> & -> & Hn & Hall).
      exists (opening :: inner), post. split; [reflexivity|].
      split; [simpl; lia|]. split.
      * intros [|n] Hle; [rewrite firstn_0, !occurrences_nil; lia|].
        cbn [firstn]. rewrite !occurrences_cons.
        rewrite (ascii_eqb_sym closing opening), distinct.
        replace (ascii_eqb opening opening) with true
          by (symmetry; apply ascii_eqb_eq; reflexivity).
        simpl in Hle. specialize (Hn n). lia.
      * rewrite !occurrences_cons.
        rewrite (ascii_eqb_sym closing opening), distinct.
        replace (ascii_eqb opening opening) with true
          by (symmetry; apply ascii_eqb_eq; reflexivity).
        lia.
    + destruct (ascii_eqb a closing) eqn:Ecl.
      * apply ascii_eqb_eq in Ecl. subst a.
        destruct (Nat.eq_dec (count - 1) 0) as [E0|E0].
        -- rewrite E0, scan_balanced_stops in H. injection H as <-.
           exists [], rest. split; [reflexivity|]. split; [simpl; lia|]. split.
           ++ intros n Hn. rewrite firstn_nil, !occurrences_nil. lia.
           ++ rewrite !occurrences_nil. lia.
        -- apply IH in H; [|lia].
           destruct H as (inner & post & -> & -> & Hn & Hall).
           exists (closing :: inner), post. split; [reflexivity|].
           split; [simpl; lia|]. split.
           ++ intros [|n] Hle; [rewrite firstn_0, !occurrences_nil; lia|].
              cbn [firstn]. rewrite !occurrences_cons, distinct.
              replace (ascii_eqb closing closing) with true
                by (symmetry; apply ascii_eqb_eq; reflexivity).
              simpl in Hle. specialize (Hn n). lia.
           ++ rewrite !occurrences_cons, distinct.
              replace (ascii_eqb closing closing) with true
                by (symmetry; apply ascii_eqb_eq; reflexivity).
              lia.
      * apply IH in H; [|lia].
        destruct H as (inner & post & -> & -> & Hn & Hall).
        exists (a :: inner), post. split; [reflexivity|].
        split; [simpl; lia|]. split.
        -- intros [|n] Hle; [rewrite firstn_0, !occurrences_nil; lia|].
           cbn [firstn]. rewrite !occurrences_cons.
           rewrite (ascii_eqb_sym closing a), (ascii_eqb_sym opening a), Eo, Ecl.
           simpl in Hle. specialize (Hn n). lia.
        -- rewrite !occurrences_cons.
           rewrite (ascii_eqb_sym closing a), (ascii_eqb_sym opening a), Eo, Ecl.
           lia.
Qed.

(** From depth 1 that text is balanced. *)
Lemma scan_balanced_partner (rest : str) (pos pos' : nat) :
  CSharpParser.scan_balanced opening closing rest 1 pos = (0, pos') ->
  exists inner post,
    rest = inner ++ closing :: post
    /\ pos' = pos + length inner + 1
    /\ balanced opening closing inner.
Proof.
  intros H. apply scan_balanced_closed in H; [|lia].
  destruct H as (inner & post & E & Ep & Hn & Hall).
  exists inner, post. split; [exact E|]. split; [exact Ep|]. split.
  - intros n Hle. specialize (Hn n Hle). lia.
  - lia.
Qed.

End BalancedConverse.

(** X4. Whatever [extract_class_body] returns is balanced in braces and
    stands in the content between the end of the header match and a
    closing brace: the scanner never returns a text that closes a brace
    it did not open, nor one that leaves a brace open. *)
Theorem class_body_is_balanced :
  (forall content start_pos body,
     CSharpParser.body_from content start_pos = Some body ->
     balanced "{" "}" body
     /\ exists post,
          content = firstn start_pos content ++ body ++ "}"%char :: post)
  /\ (forall content class_name body,
        CSharpParser.extract_class_body content class_name = Some body ->
        balanced "{" "}" body
        /\ exists m post,
             search (CSharpParser.class_header_pattern class_name) content = Some m
             /\ content = firstn (m_end m) content ++ body ++ "}"%char :: post).
Proof.
  assert (Hbody : forall content start_pos body,
     CSharpParser.body_from content start_pos = Some body ->
     balanced "{" "}" body
     /\ exists post,
          content = firstn start_pos content ++ body ++ "}"%char :: post).
  { intros content start_pos body H. unfold CSharpParser.body_from in H.
    destruct (CSharpParser.scan_balanced "{" "}" (skipn start_pos content) 1 start_pos)
      as [brace_count pos] eqn:Es.
    destruct (brace_count =? 0) eqn:E0; [|discriminate].
    apply Nat.eqb_eq in E0. subst brace_count. injection H as <-.
    apply scan_balanced_partner in Es; [|reflexivity].
    destruct Es as (inner & post & Er & -> & Hb).
    unfold slice. rewrite Er.
    replace (start_pos + length inner + 1 - 1 - start_pos) with (length inner) by lia.
    rewrite firstn_exact. split; [exact Hb|].
    exists post. rewrite <- Er. apply skipn_split. }
  split; [exact Hbody|].
  intros content class_name body H. unfold CSharpParser.extract_class_body in H.
  destruct (search (CSharpParser.class_header_pattern class_name) content) as [m|] eqn:Em;
    [|discriminate].
  apply Hbody in H. destruct H as [Hb [post E]].
  split; [exact Hb|]. exists m, post. split; [reflexivity|exact E].
Qed.

(** The second part at a class with a nested pair of braces. *)
Lemma class_body_is_balanced_witness :
  CSharpParser.extract_class_body (txt "class A { x { y } }") (txt "A")
  = Some (txt " x { y } ")
  /\ balanced "{" "}" (txt " x { y } ").
Proof.
  split; [reflexivity|].
  exact (proj1 (proj2 class_body_is_balanced (txt "class A { x { y } }") (txt "A")
                  (txt " x { y } ") eq_refl)).
Defined.

(** X5. A non-empty result of [_extract_balanced_parens] is balanced in
    parentheses and stands in the content between the parenthesis at
    [start_pos] and a closing parenthesis. *)
Theorem balanced_parens_result :
  forall content start_pos a inner,
    CSharpParser._extract_balanced_parens content start_pos = a :: inner ->
    balanced "(" ")" (a :: inner)
    /\ exists pre post,
         content = pre ++ "("%char :: (a :: inner) ++ ")"%char :: post
         /\ length pre = start_pos.
Proof.
  intros content start_pos a inner H.
  unfold CSharpParser._extract_balanced_parens in H.
  destruct (nth_error content start_pos) as [b|] eqn:En; [|discriminate].
  destruct (ascii_eqb b "(") eqn:Eb; cbn [negb] in H; [|discriminate].
  apply ascii_eqb_eq in Eb. subst b.
  destruct (CSharpParser.scan_balanced "(" ")" (skipn (start_pos + 1) content) 1
              (start_pos + 1)) as [paren_count pos] eqn:Es.
  destruct (paren_count =? 0) eqn:E0; [|discriminate].
  apply Nat.eqb_eq in E0. subst paren_count.
  apply scan_balanced_partner in Es; [|reflexivity].
  destruct Es as (body & post & Er & -> & Hb).
  unfold slice in H. rewrite Er in H.
  replace (start_pos + 1 + length body + 1 - 1 - (start_pos + 1)) with (length body) in H
    by lia.
  rewrite firstn_exact in H. subst body.
  split; [exact Hb|].
  apply nth_error_split in En. destruct En as (pre & rest & Ec & Hl).
  exists pre, post. split; [|exact Hl].
  rewrite Ec in Er. rewrite <- Hl in Er.
  replace (pre ++ "("%char :: rest) with ((pre ++ ["("%char]) ++ rest) in Er
    by (rewrite <- app_assoc; reflexivity).
  replace (length pre + 1) with (length (pre ++ ["("%char])) in Er
    by (rewrite length_app; reflexivity).
  rewrite skipn_app, skipn_all, Nat.sub_diag in Er. cbn [skipn app] in Er.
  rewrite Ec, Er. reflexivity.
Qed.

(** At a parameter list with a nested pair of parentheses. *)
Lemma balanced_parens_result_witness :
  CSharpParser._extract_balanced_parens (txt "Foo(int a, (int, int) b) {") 3
  = txt "int a, (int, int) b"
  /\ balanced "(" ")" (txt "int a, (int, int) b").
Proof.
  split; [reflexivity|].
  exact (proj1 (@balanced_parens_result (txt "Foo(int a, (int, int) b) {") 3
                  "i"%char (txt "nt a, (int, int) b") eq_refl)).
Defined.

(* ===================================================================== *)
(** * The scraper: what the patterns find *)
(* ===================================================================== *)

Lemma public_needed (rs : list regex) (content : str) :
  contains (txt "public") content = false ->
  finditer (seq (lit "public" :: rs)) content = [].
Proof.
  intros H. apply finditer_none. unfold search.
  apply (@search_needs (txt "public")); [|exact H].
  intros w D. apply (@denotes_seq_contains _ (lit "public" :: rs)); [|exact D].
  left. reflexivity.
Qed.

(** X6. [extract_properties], [extract_methods] and
    [extract_navigations] find nothing in a text in which the word
    [public] does not occur. *)
Theorem only_public_declarations_are_extracted :
  forall content,
    contains (txt "public") content = false ->
    extract_properties content = []
    /\ extract_methods content = []
    /\ extract_navigations content = [].
Proof.
  intros content H.
  unfold extract_properties, extract_methods, extract_navigations.
  unfold property_pattern, method_pattern, navigation_pattern.
  rewrite !public_needed by exact H. repeat split.
Qed.

(** At a private property. *)
Lemma only_public_declarations_witness :
  contains (txt "public") (txt "private int Age { get; set; }") = false
  /\ extract_properties (txt "private int Age { get; set; }") = [].
Proof.
  split; [reflexivity|].
  exact (proj1 (only_public_declarations_are_extracted
                  (txt "private int Age { get; set; }") eq_refl)).
Defined.

Module CamelFacts.

Lemma camel_pass1_upper (w : str) : denotes camel_pass1 w -> existsb is_upper_az w = true.
Proof.
  unfold camel_pass1. intros H.
  inversion H as [| |r1 r2 w1 w2 H1 H2| | | | |]; subst.
  inversion H2 as [| | | | | | |i r w H3]; subst.
  inversion H3 as [| |r1 r2 u1 u2 H4 H5| | | | |]; subst.
  inversion H4 as [|p a Ha| | | | | |]; subst.
  rewrite existsb_app. cbn [app existsb]. rewrite Ha, orb_true_r. reflexivity.
Qed.

Lemma camel_pass2_upper (w : str) : denotes camel_pass2 w -> existsb is_upper_az w = true.
Proof.
  unfold camel_pass2. intros H.
  inversion H as [| |r1 r2 w1 w2 H1 H2| | | | |]; subst.
  inversion H2 as [| | | | | | |i r w H3]; subst.
  inversion H3 as [|p a Ha| | | | | |]; subst.
  rewrite existsb_app. cbn [existsb]. rewrite Ha, orb_true_r. reflexivity.
Qed.

Lemma sub_without_match (r : regex) (repl : rmatch_obj -> str) (s : str) :
  search r s = None -> sub r repl s = s.
Proof. intros H. unfold sub. rewrite (finditer_none _ _ H). reflexivity. Qed.

Lemma upper_az_isupper (s : str) :
  existsb isupper_char s = false -> existsb is_upper_az s = false.
Proof.
  induction s as [|a s IH]; [reflexivity|]. cbn [existsb]. intros H.
  apply orb_false_iff in H. destruct H as [Ha Hs]. rewrite (IH Hs), orb_false_r.
  unfold isupper_char in Ha. destruct (is_upper_az a); [discriminate|reflexivity].
Qed.

Lemma lower_without_upper (s : str) : existsb isupper_char s = false -> lower s = s.
Proof.
  induction s as [|a s IH]; [reflexivity|]. cbn [existsb]. intros H.
  apply orb_false_iff in H. destruct H as [Ha Hs].
  unfold lower in *. cbn [map]. rewrite (IH Hs). f_equal.
  unfold lower_char. unfold isupper_char in Ha. rewrite Ha. reflexivity.
Qed.

Lemma lower_char_not_isupper (a : ascii) : isupper_char (lower_char a) = false.
Proof. destruct a as [[] [] [] [] [] [] [] []]; reflexivity. Qed.

Lemma lower_not_isupper (s : str) : existsb isupper_char (lower s) = false.
Proof.
  induction s as [|a s IH]; [reflexivity|].
  unfold lower in *. cbn [map existsb]. rewrite lower_char_not_isupper, IH. reflexivity.
Qed.

Lemma camel_to_snake_fixed (name : str) :
  existsb isupper_char name = false -> camel_to_snake name = name.
Proof.
  intros H. unfold camel_to_snake.
  pose proof (upper_az_isupper _ H) as Hu.
  rewrite (@sub_without_match camel_pass1).
  - rewrite (@sub_without_match camel_pass2).
    + apply lower_without_upper. exact H.
    + apply (@search_needs_char is_upper_az); [exact camel_pass2_upper|exact Hu].
  - apply (@search_needs_char is_upper_az); [exact camel_pass1_upper|exact Hu].
Qed.

End CamelFacts.

Import CamelFacts.

(** X7. On names whose characters all lie below U+0100, the range of
    the texts here, [camel_to_snake] leaves a name without upper-case
    letters as it is, its result has no upper-case letter, and so
    converting twice is converting once. *)
Theorem camel_to_snake_idempotent :
  (forall name, existsb isupper_char name = false -> camel_to_snake name = name)
  /\ (forall name, camel_to_snake (camel_to_snake name) = camel_to_snake name)
  /\ (forall name, existsb isupper_char (camel_to_snake name) = false).
Proof.
  split; [exact camel_to_snake_fixed|].
  assert (H : forall name, existsb isupper_char (camel_to_snake name) = false).
  { intros name. unfold camel_to_snake. apply lower_not_isupper. }
  split; [|exact H].
  intros name. apply camel_to_snake_fixed, H.
Qed.

(** The first part at a name that is in snake case already. *)
Lemma camel_to_snake_idempotent_witness :
  existsb isupper_char (txt "group_member") = false
  /\ camel_to_snake (txt "group_member") = txt "group_member".
Proof.
  split; [reflexivity|].
  exact (proj1 camel_to_snake_idempotent (txt "group_member") eq_refl).
Defined.

Module NamespaceFacts.

Lemma namespace_char_not_space (a : ascii) : namespace_char a = true -> is_space a = false.
Proof. destruct a as [[] [] [] [] [] [] [] []]; vm_compute; congruence. Qed.

Lemma space_not_namespace_char (a : ascii) : is_space a = true -> namespace_char a = false.
Proof. destruct a as [[] [] [] [] [] [] [] []]; vm_compute; congruence. Qed.

Lemma terminator_not_namespace_char (a : ascii) :
  one_of ";{" a = true -> namespace_char a = false /\ is_space a = false.
Proof. destruct a as [[] [] [] [] [] [] [] []]; vm_compute; intuition congruence. Qed.

Lemma spacing_parts (s : str) : is_spacing s = true -> s <> [] /\ forallb is_space s = true.
Proof. destruct s; [discriminate|]. intros H. split; [discriminate|exact H]. Qed.

Lemma namespace_name_parts (N : str) :
  is_namespace_name N = true -> N <> [] /\ forallb namespace_char N = true.
Proof. destruct N; [discriminate|]. intros H. split; [discriminate|exact H]. Qed.

Lemma namespace_pattern_matches (A : Type) (sp N gap : str) (d : ascii) (rest : str)
      (k : str -> caps -> option A) (x : A) :
  is_spacing sp = true -> is_namespace_name N = true -> is_blank gap = true ->
  one_of ";{" d = true ->
  k rest [(1, N)] = Some x ->
  rmatch namespace_pattern (txt "namespace" ++ sp ++ N ++ gap ++ d :: rest) [] k = Some x.
Proof.
  intros Hsp HN Hgap Hd Hk.
  apply spacing_parts in Hsp. destruct Hsp as [Hsp0 Hsp].
  apply namespace_name_parts in HN. destruct HN as [HN0 HN].
  destruct (terminator_not_namespace_char _ Hd) as [Hd1 Hd2].
  unfold namespace_pattern. cbn [seq]. rewrite rmatch_cat. unfold lit.
  rewrite rmatch_lit. rewrite rmatch_cat.
  apply plus_greedy_run; try assumption.
  { apply (@stops_head _ namespace_char); try assumption.
    apply namespace_char_not_space. }
  rewrite rmatch_cat. apply grp_plus_greedy_run; try assumption.
  { apply (@stops_app _ is_space); try assumption.
    apply space_not_namespace_char. }
  rewrite rmatch_cat. apply star_greedy_run; try assumption.
  rewrite rmatch_cat, rmatch_cls, Hd, rmatch_eps. exact Hk.
Qed.

End NamespaceFacts.

Import NamespaceFacts.

(** X8. [extract_namespace] returns [None] for a text without the word
    [namespace].  When the first occurrence of that word is followed by
    white space, a dotted name, optional white space and [;] or [{], the
    result is that name. *)
Theorem extract_namespace_first_declaration :
  (forall content,
     contains (txt "namespace") content = false -> extract_namespace content = None)
  /\ (forall pre sp N gap d rest,
        find_str (txt "namespace")
                 (pre ++ txt "namespace" ++ sp ++ N ++ gap ++ d :: rest)
        = Z.of_nat (length pre) ->
        is_spacing sp = true -> is_namespace_name N = true -> is_blank gap = true ->
        one_of ";{" d = true ->
        extract_namespace (pre ++ txt "namespace" ++ sp ++ N ++ gap ++ d :: rest)
        = Some N).
Proof.
  split.
  - intros content H. unfold extract_namespace, search.
    rewrite (@search_needs (txt "namespace")); [reflexivity| |exact H].
    intros w D. unfold namespace_pattern in D.
    eapply denotes_seq_contains; [|exact D]. left. reflexivity.
  - intros pre sp N gap d rest Hf Hsp HN Hgap Hd.
    unfold extract_namespace.
    erewrite (@search_at_first (txt "namespace")); [|reflexivity|exact Hf|].
    2:{ unfold match_at. apply namespace_pattern_matches; try assumption.
        reflexivity. }
    reflexivity.
Qed.

(** The second part at a file-scoped namespace after a using directive. *)
Lemma extract_namespace_witness :
  extract_namespace (txt "using System; namespace Koinon.Domain.Entities;")
  = Some (txt "Koinon.Domain.Entities").
Proof.
  exact (proj2 extract_namespace_first_declaration
               (txt "using System; ") (txt " ") (txt "Koinon.Domain.Entities")
               [] ";"%char [] eq_refl eq_refl eq_refl eq_refl eq_refl).
Defined.

Module AttributeFacts.

Lemma quote_not_space (a : ascii) : is_quote a = true -> is_space a = false.
Proof. destruct a as [[] [] [] [] [] [] [] []]; vm_compute; congruence. Qed.

Lemma unquoted_parts (s : str) :
  is_unquoted s = true
  -> s <> [] /\ forallb (fun a => negb (is_quote a)) s = true.
Proof. destruct s; [discriminate|]. intros H. split; [discriminate|exact H]. Qed.

(** The attribute patterns match an attribute whose argument is a quoted
    text. *)
Lemma quoted_argument_matches (A : Type) (l sp1 sp2 : str) (q : ascii) (name : str)
      (q' : ascii) (rest : str) (k : str -> caps -> option A) (x : A) :
  is_blank sp1 = true -> is_blank sp2 = true ->
  is_quote q = true -> is_unquoted name = true -> is_quote q' = true ->
  k rest [(1, name)] = Some x ->
  rmatch (seq (lit_str l :: quoted_argument))
         (l ++ sp1 ++ "("%char :: sp2 ++ q :: name ++ q' :: rest) [] k
  = Some x.
Proof.
  intros H1 H2 Hq Hn Hq' Hk.
  apply unquoted_parts in Hn. destruct Hn as [Hn0 Hn].
  cbn [seq quoted_argument]. rewrite rmatch_cat, rmatch_lit, rmatch_cat.
  apply star_greedy_run; [exact H1|reflexivity|].
  rewrite rmatch_cat. unfold chr at 1. rewrite rmatch_cls.
  change (ascii_eqb "(" "(") with true. cbv iota.
  rewrite rmatch_cat. apply star_greedy_run; [exact H2| |].
  { cbn [stops]. apply quote_not_space. exact Hq. }
  rewrite rmatch_cat, rmatch_cls, Hq, rmatch_cat.
  apply grp_plus_greedy_run; try assumption.
  { cbn [stops]. rewrite Hq'. reflexivity. }
  rewrite rmatch_cat, rmatch_cls, Hq', rmatch_eps. exact Hk.
Qed.

Lemma attribute_absent (l : str) (content : str) :
  contains l content = false ->
  search (seq (lit_str l :: quoted_argument)) content = None.
Proof.
  intros H. unfold search. apply (@search_needs l); [|exact H].
  intros w D. eapply denotes_seq_contains; [|exact D]. left. reflexivity.
Qed.

Lemma attribute_found (l pre sp1 sp2 : str) (q : ascii) (name : str) (q' : ascii)
      (rest : str) :
  find_str l (pre ++ l ++ sp1 ++ "("%char :: sp2 ++ q :: name ++ q' :: rest)
  = Z.of_nat (length pre) ->
  is_blank sp1 = true -> is_blank sp2 = true ->
  is_quote q = true -> is_unquoted name = true -> is_quote q' = true ->
  exists m,
    search (seq (lit_str l :: quoted_argument))
           (pre ++ l ++ sp1 ++ "("%char :: sp2 ++ q :: name ++ q' :: rest) = Some m
    /\ group m 1 = Some name.
Proof.
  intros Hf H1 H2 Hq Hn Hq'. eexists. split.
  - eapply (@search_at_first l); [reflexivity|exact Hf|].
    unfold match_at. apply quoted_argument_matches; try assumption. reflexivity.
  - reflexivity.
Qed.

End AttributeFacts.

Import AttributeFacts.

(** X9. [extract_table_name] is [camel_to_snake] of the class name for a
    text without the word [Table].  When the first occurrence of that
    word is followed by a parenthesis and a quoted, non-empty text without
    quotes, with optional white space around the parenthesis, the result
    is that text; the two quotes need not be the same. *)
Theorem extract_table_name_first_attribute :
  (forall class_name content,
     contains (txt "Table") content = false ->
     extract_table_name class_name content = camel_to_snake class_name)
  /\ (forall class_name pre sp1 sp2 q name q' rest,
        find_str (txt "Table")
          (pre ++ txt "Table" ++ sp1 ++ "("%char :: sp2 ++ q :: name ++ q' :: rest)
        = Z.of_nat (length pre) ->
        is_blank sp1 = true -> is_blank sp2 = true ->
        is_quote q = true -> is_unquoted name = true -> is_quote q' = true ->
        extract_table_name class_name
          (pre ++ txt "Table" ++ sp1 ++ "("%char :: sp2 ++ q :: name ++ q' :: rest)
        = name).
Proof.
  split.
  - intros class_name content H. unfold extract_table_name, table_pattern, lit.
    rewrite attribute_absent by exact H. reflexivity.
  - intros class_name pre sp1 sp2 q name q' rest Hf H1 H2 Hq Hn Hq'.
    destruct (attribute_found _ _ _ _ _ _ _ _ Hf H1 H2 Hq Hn Hq') as (m & Em & Eg).
    unfold extract_table_name, table_pattern, lit. rewrite Em.
    unfold group_str. rewrite Eg. reflexivity.
Qed.

(** Both parts: a class without the attribute, and one with it. *)
Lemma extract_table_name_witness :
  contains (txt "Table") (txt "public class Person { }") = false
  /\ extract_table_name (txt "GroupMember") (txt "public class Person { }")
     = txt "group_member"
  /\ extract_table_name (txt "Person") (txt "[Table('people')] public class Person")
     = txt "people".
Proof.
  split; [reflexivity|]. split.
  - rewrite (proj1 extract_table_name_first_attribute
               (txt "GroupMember") (txt "public class Person { }") eq_refl).
    reflexivity.
  - exact (proj2 extract_table_name_first_attribute (txt "Person")
             (txt "[") [] [] "'"%char (txt "people") "'"%char
             (txt ")] public class Person") eq_refl eq_refl eq_refl eq_refl eq_refl
             eq_refl).
Defined.

(** X10. [extract_route_attribute] returns [None] for a text without
    [[Route], and the quoted argument of the first [[Route] when it has
    one. *)
Theorem extract_route_attribute_first_attribute :
  (forall content,
     contains (txt "[Route") content = false -> extract_route_attribute content = None)
  /\ (forall pre sp1 sp2 q name q' rest,
        find_str (txt "[Route")
          (pre ++ txt "[Route" ++ sp1 ++ "("%char :: sp2 ++ q :: name ++ q' :: rest)
        = Z.of_nat (length pre) ->
        is_blank sp1 = true -> is_blank sp2 = true ->
        is_quote q = true -> is_unquoted name = true -> is_quote q' = true ->
        extract_route_attribute
          (pre ++ txt "[Route" ++ sp1 ++ "("%char :: sp2 ++ q :: name ++ q' :: rest)
        = Some name).
Proof.
  split.
  - intros content H. unfold extract_route_attribute, route_pattern, lit.
    rewrite attribute_absent by exact H. reflexivity.
  - intros pre sp1 sp2 q name q' rest Hf H1 H2 Hq Hn Hq'.
    destruct (attribute_found _ _ _ _ _ _ _ _ Hf H1 H2 Hq Hn Hq') as (m & Em & Eg).
    unfold extract_route_attribute, route_pattern, lit. rewrite Em. exact Eg.
Qed.

(** Both parts: a controller without the attribute, and one with it. *)
Lemma extract_route_attribute_witness :
  contains (txt "[Route") (txt "public class PeopleController") = false
  /\ extract_route_attribute (txt "public class PeopleController") = None
  /\ extract_route_attribute (txt "[ApiController] [Route('api/v1/people')]")
     = Some (txt "api/v1/people").
Proof.
  split; [reflexivity|]. split.
  - exact (proj1 extract_route_attribute_first_attribute
             (txt "public class PeopleController") eq_refl).
  - exact (proj2 extract_route_attribute_first_attribute
             (txt "[ApiController] ") [] [] "'"%char (txt "api/v1/people") "'"%char
             (txt ")]") eq_refl eq_refl eq_refl eq_refl eq_refl eq_refl).
Defined.

(** X11. [extract_patterns] always has its four keys, and three of them
    are substring tests: [idkey_routes] is [{idKey}] in the content,
    [result_pattern] is [Result<] in the content, [problem_details] is
    [Problem(] or [ProblemDetails] in the content.  [response_envelope] is
    false for a content without the word [new]. *)
Theorem extract_patterns_are_substring_tests :
  forall content,
    extract_patterns content
    = [ (txt "response_envelope", found response_envelope_pattern content);
        (txt "idkey_routes", contains (txt "{idKey}") content);
        (txt "problem_details",
         contains (txt "Problem(") content || contains (txt "ProblemDetails") content);
        (txt "result_pattern", contains (txt "Result<") content) ]
    /\ (contains (txt "new") content = false ->
        Dict.get (extract_patterns content) (txt "response_envelope") = Some false).
Proof.
  intros content. unfold extract_patterns, lit.
  rewrite !found_lit_str, found_alt_lit_str. split; [reflexivity|].
  intros H.
  assert (E : found response_envelope_pattern content = false).
  { unfold found, search.
    rewrite (@search_needs (txt "new")); [reflexivity| |exact H].
    intros w D. unfold response_envelope_pattern in D.
    eapply denotes_seq_contains; [|exact D]. left. reflexivity. }
  rewrite E. reflexivity.
Qed.

(** The second part at an action that returns its value directly. *)
Lemma extract_patterns_witness :
  contains (txt "new") (txt "return Ok(person);") = false
  /\ Dict.get (extract_patterns (txt "return Ok(person);")) (txt "response_envelope")
     = Some false.
Proof.
  split; [reflexivity|].
  exact (proj2 (extract_patterns_are_substring_tests (txt "return Ok(person);")) eq_refl).
Defined.

Module EndpointFacts.

Lemma endpoints_of_method (content http_method : str) (e : endpoint) :
  In e (endpoints_of content http_method) ->
  endpoint_method e = upper (replace (txt "Http") [] http_method)
  /\ request_type e = None /\ response_type e = None
  /\ requires_auth e = true /\ required_roles e = [].
Proof.
  unfold endpoints_of. intros H. apply in_flat_map in H. destruct H as [m [_ H]].
  unfold endpoint_of_match in H.
  destruct (search action_pattern _) as [next|]; [|destruct H].
  destruct H as [<-|[]]. repeat split.
Qed.

Lemma attribute_needs_name (http_method content : str) :
  contains http_method content = false ->
  finditer (http_attribute_pattern http_method) content = [].
Proof.
  intros H. apply finditer_none. unfold search.
  apply (@search_needs http_method); [|exact H].
  intros w D. unfold http_attribute_pattern in D.
  eapply denotes_seq_contains; [|exact D]. right. left. reflexivity.
Qed.

Lemma contains_trans (a b s : str) :
  contains a b = true -> contains b s = true -> contains a s = true.
Proof.
  intros H1 H2. apply contains_inv in H2. destruct H2 as (l & r & ->).
  apply contains_within. exact H1.
Qed.

End EndpointFacts.

Import EndpointFacts.

(** X12. [extract_endpoints] lists the endpoints by attribute, in the
    order HttpGet, HttpPost, HttpPut, HttpPatch, HttpDelete, HttpHead,
    HttpOptions, and not in the order of the source.  The method of an
    endpoint is the upper-case verb of its attribute, its request and
    response types are [None], it requires authentication and has no
    roles.  A content without [Http] has no endpoints, and neither has an
    attribute without parentheses. *)
Theorem extract_endpoints_by_method :
  (forall content,
     extract_endpoints content
     = endpoints_of content (txt "HttpGet") ++ endpoints_of content (txt "HttpPost")
       ++ endpoints_of content (txt "HttpPut") ++ endpoints_of content (txt "HttpPatch")
       ++ endpoints_of content (txt "HttpDelete") ++ endpoints_of content (txt "HttpHead")
       ++ endpoints_of content (txt "HttpOptions"))
  /\ (forall content e,
        (In e (endpoints_of content (txt "HttpGet")) -> endpoint_method e = txt "GET")
        /\ (In e (endpoints_of content (txt "HttpPost")) -> endpoint_method e = txt "POST")
        /\ (In e (endpoints_of content (txt "HttpPut")) -> endpoint_method e = txt "PUT")
        /\ (In e (endpoints_of content (txt "HttpPatch")) ->
            endpoint_method e = txt "PATCH")
        /\ (In e (endpoints_of content (txt "HttpDelete")) ->
            endpoint_method e = txt "DELETE")
        /\ (In e (endpoints_of content (txt "HttpHead")) -> endpoint_method e = txt "HEAD")
        /\ (In e (endpoints_of content (txt "HttpOptions")) ->
            endpoint_method e = txt "OPTIONS"))
  /\ (forall content e,
        In e (extract_endpoints content) ->
        In (endpoint_method e) verbs
        /\ request_type e = None /\ response_type e = None
        /\ requires_auth e = true /\ required_roles e = [])
  /\ (forall content,
        contains (txt "Http") content = false -> extract_endpoints content = [])
  /\ extract_endpoints
       (txt "[HttpPost('')] public IActionResult Create() [HttpGet('{idKey}')] public IActionResult Get()")
     = [ Endpoint (txt "Get") (txt "GET") (txt "{idKey}") None None true [];
         Endpoint (txt "Create") (txt "POST") [] None None true [] ]
  /\ extract_endpoints (txt "[HttpGet] public IActionResult Get()") = [].
Proof.
  assert (H1 : forall content,
     extract_endpoints content
     = endpoints_of content (txt "HttpGet") ++ endpoints_of content (txt "HttpPost")
       ++ endpoints_of content (txt "HttpPut") ++ endpoints_of content (txt "HttpPatch")
       ++ endpoints_of content (txt "HttpDelete") ++ endpoints_of content (txt "HttpHead")
       ++ endpoints_of content (txt "HttpOptions")).
  { intros content. unfold extract_endpoints, http_methods. cbn [flat_map].
    rewrite app_nil_r. reflexivity. }
  assert (H2 : forall content e,
        (In e (endpoints_of content (txt "HttpGet")) -> endpoint_method e = txt "GET")
        /\ (In e (endpoints_of content (txt "HttpPost")) -> endpoint_method e = txt "POST")
        /\ (In e (endpoints_of content (txt "HttpPut")) -> endpoint_method e = txt "PUT")
        /\ (In e (endpoints_of content (txt "HttpPatch")) ->
            endpoint_method e = txt "PATCH")
        /\ (In e (endpoints_of content (txt "HttpDelete")) ->
            endpoint_method e = txt "DELETE")
        /\ (In e (endpoints_of content (txt "HttpHead")) -> endpoint_method e = txt "HEAD")
        /\ (In e (endpoints_of content (txt "HttpOptions")) ->
            endpoint_method e = txt "OPTIONS")).
  { intros content e.
    repeat split; intros H; apply endpoints_of_method in H; exact (proj1 H). }
  split; [exact H1|]. split; [exact H2|]. split; [|split; [|split]].
  - intros content e H. rewrite H1 in H.
    destruct (H2 content e) as (G1 & G2 & G3 & G4 & G5 & G6 & G7).
    repeat (apply in_app_or in H; destruct H as [H|H]);
      (split; [|exact (proj2 (endpoints_of_method _ _ _ H))]).
    + rewrite (G1 H). unfold verbs. cbn [In]. tauto.
    + rewrite (G2 H). unfold verbs. cbn [In]. tauto.
    + rewrite (G3 H). unfold verbs. cbn [In]. tauto.
    + rewrite (G4 H). unfold verbs. cbn [In]. tauto.
    + rewrite (G5 H). unfold verbs. cbn [In]. tauto.
    + rewrite (G6 H). unfold verbs. cbn [In]. tauto.
    + rewrite (G7 H). unfold verbs. cbn [In]. tauto.
  - intros content H. rewrite H1. unfold endpoints_of.
    assert (N : forall hm, contains (txt "Http") hm = true ->
                           contains hm content = false).
    { intros hm Hhm. destruct (contains hm content) eqn:E; [|reflexivity].
      rewrite (contains_trans _ _ _ Hhm E) in H. discriminate. }
    rewrite !attribute_needs_name by (apply N; reflexivity). reflexivity.
  - vm_compute. reflexivity.
  - vm_compute. reflexivity.
Qed.

(** The third and fourth parts. *)
Lemma extract_endpoints_witness :
  In (Endpoint (txt "Get") (txt "GET") (txt "{idKey}") None None true [])
     (extract_endpoints (txt "[HttpGet('{idKey}')] public IActionResult Get()"))
  /\ In (txt "GET") verbs
  /\ contains (txt "Http") (txt "public IActionResult Get()") = false
  /\ extract_endpoints (txt "public IActionResult Get()") = [].
Proof.
  assert (H : In (Endpoint (txt "Get") (txt "GET") (txt "{idKey}") None None true [])
                 (extract_endpoints (txt "[HttpGet('{idKey}')] public IActionResult Get()"))).
  { vm_compute. left. reflexivity. }
  split; [exact H|]. split.
  - exact (proj1 (proj1 (proj2 (proj2 extract_endpoints_by_method)) _ _ H)).
  - split; [reflexivity|].
    exact (proj1 (proj2 (proj2 (proj2 extract_endpoints_by_method)))
                 (txt "public IActionResult Get()") eq_refl).
Defined.

Module NavigationFacts.

(** The end of the navigation pattern, from the name on. *)
Lemma name_and_brace (A : Type) (i : nat) (N : str) (c : caps)
      (k : str -> caps -> option A) (x : A) :
  is_identifier N = true ->
  k [] ((i, N) :: c) = Some x ->
  rmatch (seq [Grp i identifier; Star true ws; Cls (one_of "{;")])
         (N ++ txt " {") c k = Some x.
Proof.
  intros HN Hk. destruct N as [|n N]; [discriminate|].
  simpl in HN. apply andb_true_iff in HN. destruct HN as [Hn HN].
  unfold identifier. cbn [seq].
  rewrite rmatch_cat, rmatch_grp, rmatch_cat. cbn [app].
  rewrite rmatch_cls, Hn.
  apply star_greedy_run; [exact HN|reflexivity|].
  rewrite rmatch_cat. unfold ws, txt. cbn [list_ascii_of_string].
  rewrite star_cls_unfold. change (is_space " ") with true. cbv iota.
  rewrite star_cls_unfold. change (is_space "{") with false. cbv iota.
  rewrite rmatch_cat, rmatch_cls. change (one_of "{;" "{") with true. cbv iota.
  rewrite rmatch_eps.
  change (n :: N ++ [" "%char; "{"%char]) with ((n :: N) ++ [" "%char; "{"%char]).
  rewrite firstn_app_minus, Hk. reflexivity.
Qed.

Lemma space_name_and_brace (A : Type) (i : nat) (N : str) (c : caps)
      (k : str -> caps -> option A) (x : A) :
  is_identifier N = true ->
  k [] ((i, N) :: c) = Some x ->
  rmatch (seq [Plus true ws; Grp i identifier; Star true ws; Cls (one_of "{;")])
         (" "%char :: N ++ txt " {") c k = Some x.
Proof.
  intros HN Hk.
  change (seq [Plus true ws; Grp i identifier; Star true ws; Cls (one_of "{;")])
    with (Cat (Plus true ws) (seq [Grp i identifier; Star true ws; Cls (one_of "{;")])).
  rewrite rmatch_cat.
  change (" "%char :: N ++ txt " {") with ([" "%char] ++ N ++ txt " {").
  apply plus_greedy_run; [discriminate|reflexivity| |].
  - apply identifier_head. exact HN.
  - apply name_and_brace; assumption.
Qed.

Lemma type_name_parts (T : str) :
  is_type_name T = true -> T <> [] /\ forallb ident_char T = true.
Proof. destruct T; [discriminate|]. intros H. split; [discriminate|exact H]. Qed.

Lemma type_name_head (T rest : str) :
  is_type_name T = true -> stops is_space (T ++ rest).
Proof.
  intros H. apply type_name_parts in H. destruct H as [H0 H].
  destruct T as [|a T]; [congruence|]. cbn [forallb] in H.
  apply andb_true_iff in H. destruct H as [Ha _]. cbn [app stops].
  revert Ha. clear. destruct a as [[] [] [] [] [] [] [] []]; vm_compute; congruence.
Qed.

(** A type name does not start with [ICollection<]. *)
Lemma not_a_collection (T rest : str) :
  is_type_name T = true ->
  startswith (txt "ICollection<") (T ++ " "%char :: rest) = false.
Proof.
  intros H. apply type_name_parts in H. destruct H as [_ H].
  destruct (startswith (txt "ICollection<") (T ++ " "%char :: rest)) eqn:E;
    [|reflexivity].
  apply startswith_before in E.
  - apply startswith_inv in E. destruct E as [r ->].
    rewrite forallb_app in H. apply andb_true_iff in H. destruct H as [H _].
    vm_compute in H. discriminate.
  - vm_compute. intuition discriminate.
Qed.

Lemma navigation_pattern_collection (T N : str) (k : str -> caps -> option rmatch_obj)
      (x : rmatch_obj) :
  is_type_name T = true -> is_identifier N = true ->
  k [] [(3, N); (1, T)] = Some x ->
  rmatch navigation_pattern
         (txt "public ICollection<" ++ T ++ txt "> " ++ N ++ txt " {") [] k
  = Some x.
Proof.
  intros HT HN Hk. apply type_name_parts in HT. destruct HT as [HT0 HT].
  unfold navigation_pattern. cbn [seq].
  change (txt "public ICollection<" ++ T ++ txt "> " ++ N ++ txt " {")
    with (txt "public" ++ [" "%char] ++ txt "ICollection<" ++ T ++ txt "> "
            ++ N ++ txt " {").
  rewrite rmatch_cat. unfold lit at 1. rewrite rmatch_lit, rmatch_cat.
  apply plus_greedy_run; [discriminate|reflexivity|reflexivity|].
  rewrite rmatch_cat, rmatch_alt.
  match goal with
  | |- match ?e with _ => _ end = _ => assert (E : e = Some x)
  end.
  { rewrite rmatch_cat. unfold lit. rewrite rmatch_lit, rmatch_cat.
    apply grp_plus_greedy_run; [exact HT0|exact HT|reflexivity|].
    rewrite rmatch_cat. unfold chr. cbn [txt list_ascii_of_string app].
    rewrite rmatch_cls. change (ascii_eqb ">" ">") with true. cbv iota.
    rewrite rmatch_eps.
    apply (@space_name_and_brace _ 3 N [(1, T)] k x HN Hk). }
  rewrite E. reflexivity.
Qed.

Lemma navigation_pattern_single (T N : str) (k : str -> caps -> option rmatch_obj)
      (x : rmatch_obj) :
  is_type_name T = true -> is_identifier N = true ->
  k [] [(3, N); (2, T)] = Some x ->
  rmatch navigation_pattern (txt "public " ++ T ++ txt " " ++ N ++ txt " {") [] k
  = Some x.
Proof.
  intros HT HN Hk. pose proof (type_name_parts _ HT) as [HT0 HTc].
  unfold navigation_pattern. cbn [seq].
  change (txt "public " ++ T ++ txt " " ++ N ++ txt " {")
    with (txt "public" ++ [" "%char] ++ T ++ " "%char :: N ++ txt " {").
  rewrite rmatch_cat. unfold lit at 1. rewrite rmatch_lit, rmatch_cat.
  apply plus_greedy_run; [discriminate|reflexivity| |].
  { apply type_name_head. exact HT. }
  rewrite rmatch_cat, rmatch_alt.
  cbn [seq]. rewrite rmatch_cat. unfold lit. rewrite rmatch_lit_str.
  rewrite not_a_collection by exact HT.
  apply grp_plus_greedy_run; [exact HT0|exact HTc|reflexivity|].
  apply (@space_name_and_brace _ 3 N [(2, T)] k x HN Hk).
Qed.

Lemma navigation_search_nil (pos : nat) : search_from navigation_pattern pos [] = None.
Proof. reflexivity. Qed.

End NavigationFacts.

Import NavigationFacts.

(** X13. For a type name [T] and an identifier [N],
    [extract_navigations] returns the navigation [N] to [T] of type
    [many] on [public ICollection<T> N {], and on [public T N {] the
    navigation of type [one] when [T] starts with an upper-case letter and
    nothing otherwise.  Every navigation it returns is of type [many], or
    of type [one] with a target that starts with an upper-case letter.  A
    [virtual] collection and a nullable type are not navigations. *)
Theorem extract_navigations_by_type :
  (forall T N,
     is_type_name T = true -> is_identifier N = true ->
     extract_navigations (txt "public ICollection<" ++ T ++ txt "> " ++ N ++ txt " {")
     = [Navigation N T (txt "many")]
     /\ extract_navigations (txt "public " ++ T ++ txt " " ++ N ++ txt " {")
        = if starts_upper T then [Navigation N T (txt "one")] else [])
  /\ (forall content nav,
        In nav (extract_navigations content) ->
        nav_type nav = txt "many"
        \/ (nav_type nav = txt "one" /\ starts_upper (target_entity nav) = true))
  /\ extract_navigations (txt "public virtual ICollection<Person> Members { get; set; }")
     = []
  /\ extract_navigations (txt "public Person? Owner { get; set; }") = [].
Proof.
  split; [|split; [|split; vm_compute; reflexivity]].
  - intros T N HT HN. split.
    + unfold extract_navigations.
      rewrite (@finditer_whole navigation_pattern _ [(3, N); (1, T)]).
      * cbn [flat_map]. unfold navigation_of_match.
        cbn [group m_caps whole_match group_of Nat.eqb group_str].
        destruct T as [|a T]; [discriminate|]. reflexivity.
      * discriminate.
      * exact navigation_search_nil.
      * unfold match_at. apply navigation_pattern_collection; try assumption.
        reflexivity.
    + unfold extract_navigations.
      rewrite (@finditer_whole navigation_pattern _ [(3, N); (2, T)]).
      * cbn [flat_map]. unfold navigation_of_match.
        cbn [group m_caps whole_match group_of Nat.eqb group_str].
        destruct T as [|a T]; [discriminate|]. cbn [starts_upper].
        destruct (isupper_char a); reflexivity.
      * discriminate.
      * exact navigation_search_nil.
      * unfold match_at. apply navigation_pattern_single; try assumption.
        reflexivity.
  - intros content nav H. unfold extract_navigations in H.
    apply in_flat_map in H. destruct H as [m [_ H]].
    unfold navigation_of_match in H.
    destruct (group m 1) as [[|a t]|].
    + destruct (group m 2) as [[|b u]|]; try destruct H.
      destruct (isupper_char b) eqn:Eb; [|destruct H].
      destruct H as [<-|[]]. right. split; [reflexivity|exact Eb].
    + destruct H as [<-|[]]. left. reflexivity.
    + destruct (group m 2) as [[|b u]|]; try destruct H.
      destruct (isupper_char b) eqn:Eb; [|destruct H].
      destruct H as [<-|[]]. right. split; [reflexivity|exact Eb].
Qed.

(** The first part at a collection of [Person] and at a property of type
    [int]. *)
Lemma extract_navigations_witness :
  is_type_name (txt "Person") = true /\ is_identifier (txt "Members") = true
  /\ extract_navigations (txt "public ICollection<Person> Members {")
     = [Navigation (txt "Members") (txt "Person") (txt "many")]
  /\ extract_navigations (txt "public int Age {") = [].
Proof.
  split; [reflexivity|]. split; [reflexivity|]. split.
  - exact (proj1 (proj1 extract_navigations_by_type (txt "Person") (txt "Members")
                    eq_refl eq_refl)).
  - exact (proj2 (proj1 extract_navigations_by_type (txt "int") (txt "Age")
                    eq_refl eq_refl)).
Defined.

(* ===================================================================== *)
(** * The scraper: the properties of a record *)
(* ===================================================================== *)

Module RecordFacts.

Lemma plain_type_parts (T : str) :
  is_plain_type T = true ->
  T <> [] /\ forallb plain_type_char T = true /\ T <> txt "required".
Proof.
  destruct T as [|a T]; [discriminate|]. intros H. unfold is_plain_type in H.
  apply andb_true_iff in H. destruct H as [H1 H2].
  split; [discriminate|]. split; [exact H1|].
  intros E. rewrite E in H2. discriminate.
Qed.

Lemma plain_type_char_spec (a : ascii) :
  plain_type_char a = true ->
  record_type_char a = true /\ is_space a = false /\ token_char a = true
  /\ ascii_eqb a "," = false /\ one_of "()" a = false /\ ascii_eqb a "/" = false
  /\ one_of "{" a = false.
Proof. destruct a as [[] [] [] [] [] [] [] []]; vm_compute; intuition congruence. Qed.

Lemma ident_char_spec (a : ascii) :
  ident_char a = true ->
  record_type_char a = true /\ is_space a = false
  /\ ascii_eqb a "," = false /\ one_of "()" a = false /\ ascii_eqb a "/" = false
  /\ one_of "{" a = false /\ one_of "<[" a = false /\ one_of ">]" a = false.
Proof. destruct a as [[] [] [] [] [] [] [] []]; vm_compute; intuition congruence. Qed.

Lemma ident_start_char (a : ascii) : ident_start a = true -> ident_char a = true.
Proof. destruct a as [[] [] [] [] [] [] [] []]; vm_compute; congruence. Qed.

Lemma forallb_impl (p q : ascii -> bool) (s : str) :
  (forall a, p a = true -> q a = true) -> forallb p s = true -> forallb q s = true.
Proof.
  intros H. induction s as [|a s IH]; [reflexivity|]. cbn [forallb].
  intros Hs. apply andb_true_iff in Hs. destruct Hs as [Ha Hs].
  rewrite (H a Ha), (IH Hs). reflexivity.
Qed.

Lemma plain_type_token (T : str) : is_plain_type T = true -> is_token T = true.
Proof.
  intros H. apply plain_type_parts in H. destruct H as (H0 & H & _).
  destruct T as [|a T]; [congruence|]. unfold is_token.
  apply (forallb_impl plain_type_char); [|exact H].
  intros b Hb. apply plain_type_char_spec in Hb. tauto.
Qed.

Lemma identifier_chars (N : str) :
  is_identifier N = true -> N <> [] /\ forallb ident_char N = true.
Proof.
  destruct N as [|n N]; [discriminate|]. cbn [is_identifier]. intros H.
  apply andb_true_iff in H. destruct H as [Hn HN]. split; [discriminate|].
  cbn [forallb]. rewrite (ident_start_char _ Hn), HN. reflexivity.
Qed.

Lemma plus_ws_fails (A : Type) (s : str) (c : caps) (k : str -> caps -> option A) :
  stops is_space s -> rmatch (Plus true ws) s c k = None.
Proof.
  intros Hs. unfold Plus, ws. rewrite rmatch_cat. destruct s as [|a s].
  - apply rmatch_cls_nil.
  - simpl in Hs. rewrite rmatch_cls, Hs. reflexivity.
Qed.

(** The word [required] is not taken for the keyword when it is the
    start of a longer word. *)
Lemma required_not_taken (A : Type) (T rest : str) (c : caps)
      (k : str -> caps -> option A) :
  is_plain_type T = true ->
  rmatch (keyword "required") (T ++ " "%char :: rest) c k = None.
Proof.
  intros HT. pose proof (plain_type_parts _ HT) as (HT0 & HTc & HTr).
  unfold keyword, lit. rewrite rmatch_cat, rmatch_lit_str.
  destruct (startswith (txt "required") (T ++ " "%char :: rest)) eqn:E; [|reflexivity].
  apply startswith_before in E; [|vm_compute; intuition discriminate].
  apply startswith_inv in E. destruct E as [T' ->].
  destruct T' as [|a T']; [rewrite app_nil_r in HTr; congruence|].
  rewrite <- app_assoc. rewrite skipn_app, skipn_all, Nat.sub_diag. cbn [skipn app].
  apply plus_ws_fails. cbn [stops].
  rewrite forallb_app in HTc. apply andb_true_iff in HTc. destruct HTc as [_ HTc].
  cbn [forallb] in HTc. apply andb_true_iff in HTc. destruct HTc as [Ha _].
  apply plain_type_char_spec in Ha. tauto.
Qed.

(** An identifier is taken whole when what follows is not part of one. *)
Lemma grp_identifier_run (A : Type) (i : nat) (N rest : str) (c : caps)
      (k : str -> caps -> option A) (x : A) :
  is_identifier N = true -> stops ident_char rest ->
  k rest ((i, N) :: c) = Some x ->
  rmatch (Grp i identifier) (N ++ rest) c k = Some x.
Proof.
  intros HN Hs Hk. destruct N as [|n N]; [discriminate|].
  cbn [is_identifier] in HN. apply andb_true_iff in HN. destruct HN as [Hn HN].
  unfold identifier. rewrite rmatch_grp, rmatch_cat. cbn [app].
  rewrite rmatch_cls, Hn.
  apply star_greedy_run; [exact HN|exact Hs|].
  change (n :: N ++ rest) with ((n :: N) ++ rest).
  rewrite firstn_app_minus. exact Hk.
Qed.

(** The lazy type group takes a plain type whole: the white space that
    must follow is not found inside it. *)
Lemma lazy_type_group (A : Type) (T rest : str) (r : regex) (c : caps)
      (k : str -> caps -> option A) (x : A) :
  is_plain_type T = true ->
  rmatch (Cat (Plus true ws) r) (" "%char :: rest) ((1, T) :: c) k = Some x ->
  rmatch (Cat (Grp 1 (Plus false (Cls record_type_char))) (Cat (Plus true ws) r))
         (T ++ " "%char :: rest) c k
  = Some x.
Proof.
  intros HT Hk. pose proof (plain_type_parts _ HT) as (HT0 & HTc & _).
  destruct T as [|t T]; [congruence|].
  cbn [forallb] in HTc. apply andb_true_iff in HTc. destruct HTc as [Ht HTc].
  rewrite rmatch_cat, rmatch_grp. unfold Plus at 1. rewrite rmatch_cat.
  cbn [app]. rewrite rmatch_cls.
  rewrite (proj1 (plain_type_char_spec _ Ht)).
  rewrite star_lazy_skip.
  - rewrite star_cls_unfold. change (record_type_char " ") with true. cbv iota.
    change (t :: T ++ " "%char :: rest) with ((t :: T) ++ " "%char :: rest).
    rewrite firstn_app_minus, Hk. reflexivity.
  - apply (forallb_impl plain_type_char); [|exact HTc].
    intros a Ha. apply plain_type_char_spec in Ha. tauto.
  - intros i Hi. apply ws_plus_fails.
    destruct (skipn_head T Hi) as (a & T' & -> & Hin). cbn [app stops].
    rewrite forallb_forall in HTc. specialize (HTc a Hin).
    apply plain_type_char_spec in HTc. tauto.
Qed.

Lemma record_param_pattern_parts :
  record_param_pattern
  = Cat (Opt (keyword "required"))
        (Cat (Grp 1 (Plus false (Cls record_type_char)))
             (Cat (Plus true ws)
                  (seq [Grp 2 identifier; Star true ws;
                        Opt (Cat (chr "=") (Star true (Cls dot)))]))).
Proof. reflexivity. Qed.

(** The parameter pattern on [T N] and on [T N = v]. *)
Lemma record_param_plain (T N : str) (k : str -> caps -> option rmatch_obj)
      (x : rmatch_obj) :
  is_plain_type T = true -> is_identifier N = true ->
  k [] [(2, N); (1, T)] = Some x ->
  rmatch record_param_pattern (T ++ " "%char :: N) [] k = Some x.
Proof.
  intros HT HN Hk. rewrite record_param_pattern_parts.
  rewrite rmatch_cat. unfold Opt at 1. rewrite rmatch_alt.
  rewrite required_not_taken by exact HT. rewrite rmatch_eps.
  apply lazy_type_group; [exact HT|].
  rewrite rmatch_cat.
  change (" "%char :: N) with ([" "%char] ++ N).
  apply plus_greedy_run; [discriminate|reflexivity| |].
  { rewrite <- (app_nil_r N) at 1.
    destruct N as [|n N]; [discriminate|]. cbn [app stops].
    cbn [is_identifier] in HN. apply andb_true_iff in HN. destruct HN as [Hn _].
    apply ident_start_char, ident_char_spec in Hn. tauto. }
  cbn [seq]. rewrite rmatch_cat.
  rewrite <- (app_nil_r N).
  apply grp_identifier_run; [exact HN|exact I|].
  rewrite rmatch_cat. unfold ws. rewrite star_cls_unfold.
  rewrite rmatch_cat. unfold Opt. rewrite rmatch_alt, rmatch_cat.
  unfold chr. rewrite rmatch_cls_nil, !rmatch_eps. exact Hk.
Qed.

Lemma record_param_default (T N v : str) (k : str -> caps -> option rmatch_obj)
      (x : rmatch_obj) :
  is_plain_type T = true -> is_identifier N = true -> forallb dot v = true ->
  k [] [(2, N); (1, T)] = Some x ->
  rmatch record_param_pattern (T ++ " "%char :: N ++ txt " = " ++ v) [] k = Some x.
Proof.
  intros HT HN Hv Hk. rewrite record_param_pattern_parts.
  rewrite rmatch_cat. unfold Opt at 1. rewrite rmatch_alt.
  rewrite required_not_taken by exact HT. rewrite rmatch_eps.
  apply lazy_type_group; [exact HT|].
  rewrite rmatch_cat.
  change (" "%char :: N ++ txt " = " ++ v) with ([" "%char] ++ N ++ txt " = " ++ v).
  apply plus_greedy_run; [discriminate|reflexivity| |].
  { destruct N as [|n N]; [discriminate|]. cbn [app stops].
    cbn [is_identifier] in HN. apply andb_true_iff in HN. destruct HN as [Hn _].
    apply ident_start_char, ident_char_spec in Hn. tauto. }
  cbn [seq]. rewrite rmatch_cat.
  apply grp_identifier_run; [exact HN|reflexivity|].
  rewrite rmatch_cat.
  change (txt " = " ++ v) with ([" "%char] ++ "="%char :: " "%char :: v).
  apply star_greedy_run; [reflexivity|reflexivity|].
  rewrite rmatch_cat. unfold Opt. rewrite rmatch_alt, rmatch_cat.
  unfold chr. rewrite rmatch_cls. change (ascii_eqb "=" "=") with true. cbv iota.
  replace (" "%char :: v) with ((" "%char :: v) ++ []) by apply app_nil_r.
  rewrite (@star_greedy_run _ dot (" "%char :: v) [] _ _ x); [reflexivity| |exact I|].
  - cbn [forallb]. rewrite Hv. reflexivity.
  - rewrite rmatch_eps. exact Hk.
Qed.

Lemma strip_plain (T : str) : is_token T = true -> strip T = T.
Proof.
  intros H. apply strip_unchanged.
  - apply (token_head T H).
  - apply (token_rev_stops [] T H).
Qed.

Lemma identifier_token (N : str) : is_identifier N = true -> is_token N = true.
Proof.
  intros H. apply identifier_chars in H. destruct H as [H0 H].
  destruct N as [|n N]; [congruence|]. unfold is_token.
  apply (forallb_impl ident_char); [|exact H].
  intros a Ha. revert Ha. clear.
  destruct a as [[] [] [] [] [] [] [] []]; vm_compute; congruence.
Qed.

Lemma strip_param (T N tail : str) :
  is_plain_type T = true -> is_identifier N = true ->
  tail = [] \/ (exists v, tail = txt " = " ++ v /\ is_token v = true) ->
  strip (T ++ " "%char :: N ++ tail) = T ++ " "%char :: N ++ tail.
Proof.
  intros HT HN Htail. apply strip_unchanged.
  - pose proof (plain_type_token _ HT) as Ht.
    destruct (token_head T Ht) as (H0 & _ & Hs). destruct T; [congruence|exact Hs].
  - destruct Htail as [->|[v [-> Hv]]].
    + rewrite app_nil_r.
      change (T ++ " "%char :: N) with (T ++ [" "%char] ++ N). rewrite app_assoc.
      apply token_rev_stops. apply identifier_token. exact HN.
    + replace (T ++ " "%char :: N ++ txt " = " ++ v)
        with ((T ++ " "%char :: N ++ txt " = ") ++ v)
        by (rewrite <- !app_assoc; cbn [app]; rewrite <- !app_assoc; reflexivity).
      apply token_rev_stops. exact Hv.
Qed.

(** A parameter [T N], with or without a default value, is the property
    [N] of type [T]. *)
Lemma property_of_plain_param :
  forall properties T N,
    is_plain_type T = true -> is_identifier N = true ->
    property_of_param properties (T ++ txt " " ++ N) = Dict.set N T properties
    /\ (forall v,
          is_token v = true ->
          property_of_param properties (T ++ txt " " ++ N ++ txt " = " ++ v)
          = Dict.set N T properties).
Proof.
  intros properties T N HT HN.
  assert (Hs : strip T = T) by (apply strip_plain, plain_type_token; exact HT).
  assert (Hn : strip N = N) by (apply strip_plain, identifier_token; exact HN).
  assert (HT0 : T <> []) by (apply plain_type_parts in HT; tauto).
  assert (HN0 : N <> []) by (apply identifier_chars in HN; tauto).
  split.
  - unfold property_of_param. cbn [txt list_ascii_of_string app].
    pose proof (@strip_param T N [] HT HN (or_introl eq_refl)) as E.
    rewrite app_nil_r in E. rewrite E.
    destruct (T ++ " "%char :: N) as [|a s] eqn:Es;
      [destruct T; discriminate|]. rewrite <- Es.
    unfold match_to_end.
    erewrite record_param_plain; [|exact HT|exact HN|reflexivity].
    cbn [group_str group m_caps group_of Nat.eqb].
    rewrite Hs, Hn. destruct T; [congruence|]. destruct N; [congruence|]. reflexivity.
  - intros v Hv. unfold property_of_param.
    change (T ++ txt " " ++ N ++ txt " = " ++ v)
      with (T ++ " "%char :: N ++ txt " = " ++ v).
    rewrite (@strip_param T N (txt " = " ++ v) HT HN)
      by (right; exists v; split; [reflexivity|exact Hv]).
    destruct (T ++ " "%char :: N ++ txt " = " ++ v) as [|a s] eqn:Es;
      [destruct T; discriminate|]. rewrite <- Es.
    unfold match_to_end.
    erewrite record_param_default; [|exact HT|exact HN| |reflexivity].
    + cbn [group_str group m_caps group_of Nat.eqb].
      rewrite Hs, Hn. destruct T; [congruence|]. destruct N; [congruence|].
      reflexivity.
    + apply forallb_token_dot. destruct (token_head v Hv) as (_ & Hd & _). exact Hd.
Qed.

Lemma param_char_spec (a : ascii) :
  param_char a = true ->
  one_of "()" a = false /\ ascii_eqb "/" a = false /\ ascii_eqb a "," = false
  /\ ascii_eqb "{" a = false /\ ascii_eqb "(" a = false /\ ascii_eqb ")" a = false.
Proof. destruct a as [[] [] [] [] [] [] [] []]; vm_compute; intuition congruence. Qed.

Lemma param_chars (T N : str) :
  is_plain_type T = true -> is_identifier N = true ->
  forallb param_char (T ++ " "%char :: N) = true.
Proof.
  intros HT HN. apply plain_type_parts in HT. destruct HT as (_ & HT & _).
  apply identifier_chars in HN. destruct HN as [_ HN].
  rewrite forallb_app. cbn [forallb]. apply andb_true_iff. split.
  - apply (forallb_impl plain_type_char); [|exact HT].
    intros a. clear. destruct a as [[] [] [] [] [] [] [] []]; vm_compute; congruence.
  - change (param_char " ") with true. cbn [andb].
    apply (forallb_impl ident_char); [|exact HN].
    intros a. clear. destruct a as [[] [] [] [] [] [] [] []]; vm_compute; congruence.
Qed.

Lemma occurrences_absent (d : ascii) (s : str) :
  forallb (fun a => negb (ascii_eqb d a)) s = true -> occurrences d s = 0.
Proof.
  unfold occurrences. induction s as [|a s IH]; [reflexivity|]. cbn [forallb filter].
  intros H. apply andb_true_iff in H. destruct H as [Ha Hs].
  destruct (ascii_eqb d a); [discriminate|]. apply IH. exact Hs.
Qed.

Lemma forallb_firstn (p : ascii -> bool) (s : str) (n : nat) :
  forallb p s = true -> forallb p (firstn n s) = true.
Proof.
  revert n. induction s as [|a s IH]; intros [|n] H; try reflexivity.
  cbn [forallb firstn] in *. apply andb_true_iff in H. destruct H as [Ha Hs].
  rewrite Ha, (IH n Hs). reflexivity.
Qed.

(** A text without parentheses is balanced. *)
Lemma paren_free_balanced (s : str) :
  forallb param_char s = true -> balanced "(" ")" s.
Proof.
  intros H.
  assert (Hc : forall t, forallb param_char t = true -> occurrences ")" t = 0).
  { intros t Ht. apply occurrences_absent.
    apply (forallb_impl param_char); [|exact Ht].
    intros a Ha. apply param_char_spec in Ha.
    destruct Ha as (_ & _ & _ & _ & _ & ->). reflexivity. }
  assert (Ho : forall t, forallb param_char t = true -> occurrences "(" t = 0).
  { intros t Ht. apply occurrences_absent.
    apply (forallb_impl param_char); [|exact Ht].
    intros a Ha. apply param_char_spec in Ha.
    destruct Ha as (_ & _ & _ & _ & -> & _). reflexivity. }
  split.
  - intros n _. rewrite (Hc _ (forallb_firstn _ _ n H)). lia.
  - rewrite (Hc _ H), (Ho _ H). reflexivity.
Qed.

Lemma existsb_absent (p q : ascii -> bool) (s : str) :
  (forall a, q a = true -> p a = false) -> forallb q s = true -> existsb p s = false.
Proof.
  intros Hq. induction s as [|a s IH]; [reflexivity|]. cbn [forallb existsb].
  intros H. apply andb_true_iff in H. destruct H as [Ha Hs].
  rewrite (Hq a Ha), (IH Hs). reflexivity.
Qed.

Lemma no_comment_marker (s : str) :
  forallb param_char s = true -> contains (txt "//") s = false.
Proof.
  intros H. destruct (contains (txt "//") s) eqn:E; [|reflexivity].
  apply contains_inv in E. destruct E as (l & r & ->).
  rewrite forallb_app in H. apply andb_true_iff in H. destruct H as [_ H].
  cbn in H. discriminate.
Qed.

Lemma no_comma (s : str) :
  forallb param_char s = true -> no_top_level_comma s.
Proof.
  intros H pre post E. subst s.
  rewrite forallb_app in H. apply andb_true_iff in H. destruct H as [_ H].
  cbn in H. discriminate.
Qed.

(** Every text of a sequence has the character of each of its
    one-character items. *)
Lemma denotes_seq_char (d : ascii) (rs : list regex) (w : str) :
  In (chr d) rs -> denotes (seq rs) w -> existsb (ascii_eqb d) w = true.
Proof.
  revert w. induction rs as [|r rs IH]; intros w Hin H; [destruct Hin|].
  cbn [seq] in H. inversion H as [| |r1 r2 w1 w2 H1 H2| | | | |]; subst.
  rewrite existsb_app. destruct Hin as [->|Hin].
  - inversion H1 as [|p a Ha| | | | | |]; subst. cbn [existsb]. rewrite Ha. reflexivity.
  - rewrite (IH w2 Hin H2). apply orb_true_r.
Qed.

Lemma record_start_matches (C inner : str) :
  is_identifier C = true ->
  search (record_start_pattern C) (txt "record " ++ C ++ "("%char :: inner)
  = Some (MatchObj 0 (0 + (length (txt "record " ++ C ++ "("%char :: inner)
                           - length inner)) []).
Proof.
  intros HC. unfold search.
  assert (Hm : match_at (record_start_pattern C) 0
                 (txt "record " ++ C ++ "("%char :: inner)
               = Some (MatchObj 0 (0 + (length (txt "record " ++ C ++ "("%char :: inner)
                                        - length inner)) [])).
  { unfold match_at, record_start_pattern. cbn [seq].
    rewrite rmatch_cat. unfold Opt at 1. rewrite rmatch_alt.
    unfold keyword at 1. rewrite rmatch_cat. unfold lit at 1. rewrite rmatch_lit_str.
    replace (startswith (txt "public") (txt "record " ++ C ++ "("%char :: inner))
      with false by reflexivity.
    rewrite rmatch_eps.
    rewrite rmatch_cat. unfold Opt at 1. rewrite rmatch_alt.
    unfold keyword at 1. rewrite rmatch_cat. unfold lit at 1. rewrite rmatch_lit_str.
    replace (startswith (txt "sealed") (txt "record " ++ C ++ "("%char :: inner))
      with false by reflexivity.
    rewrite rmatch_eps.
    change (txt "record " ++ C ++ "("%char :: inner)
      with (txt "record" ++ [" "%char] ++ C ++ "("%char :: inner) at 1.
    rewrite rmatch_cat. unfold lit. rewrite rmatch_lit, rmatch_cat.
    rewrite (@plus_greedy_run _ is_space [" "%char] (C ++ "("%char :: inner) _ _
               (MatchObj 0 (0 + (length (txt "record " ++ C ++ "("%char :: inner)
                                 - length inner)) []));
      [reflexivity|discriminate|reflexivity| |].
    - destruct C as [|c C]; [discriminate|]. cbn [app stops].
      cbn [is_identifier] in HC. apply andb_true_iff in HC. destruct HC as [Hc _].
      apply ident_start_char, ident_char_spec in Hc. tauto.
    - rewrite rmatch_cat, rmatch_lit, rmatch_cat.
      unfold ws. rewrite star_cls_unfold. change (is_space "(") with false. cbv iota.
      rewrite rmatch_cat. unfold chr. rewrite rmatch_cls.
      change (ascii_eqb "(" "(") with true. cbv iota. rewrite rmatch_eps. reflexivity. }
  cbn [search_from app txt list_ascii_of_string] in *. rewrite Hm. reflexivity.
Qed.

Lemma no_class_body_inner (C inner : str) :
  is_identifier C = true -> forallb param_char inner = true ->
  extract_class_body (txt "record " ++ C ++ "("%char :: inner ++ [")"%char]) C = None.
Proof.
  intros HC Hin. unfold extract_class_body, search.
  rewrite (@search_needs_char (ascii_eqb "{")); [reflexivity| |].
  - intros w D. unfold class_header_pattern in D.
    eapply denotes_seq_char; [|exact D]. cbn [In]. tauto.
  - rewrite existsb_app. cbn [txt list_ascii_of_string existsb orb].
    rewrite existsb_app. cbn [existsb].
    rewrite (@existsb_absent (ascii_eqb "{") ident_char C).
    + rewrite existsb_app. cbn [existsb orb].
      rewrite (@existsb_absent (ascii_eqb "{") param_char inner); [reflexivity| |].
      * intros a Ha. apply param_char_spec in Ha. tauto.
      * exact Hin.
    + intros a. clear. destruct a as [[] [] [] [] [] [] [] []]; vm_compute; congruence.
    + apply identifier_chars in HC. tauto.
Qed.

Lemma extract_properties_nodup (content : str) :
  NoDup (Dict.keys (extract_properties content)).
Proof.
  unfold extract_properties.
  assert (H : forall (ms : list rmatch_obj) (d : dict str),
             NoDup (Dict.keys d) ->
             NoDup (Dict.keys
                      (fold_left
                         (fun properties m =>
                            if negb (str_in (strip (group_str m 1)) not_a_type)
                            then Dict.set (group_str m 2) (strip (group_str m 1)) properties
                            else properties) ms d))).
  { induction ms as [|m ms IH]; intros d Hd; cbn [fold_left]; [exact Hd|].
    apply IH. destruct (negb _); [apply set_nodup|]; exact Hd. }
  apply H. constructor.
Qed.

(** The record [C(T N)] declares the property [N] of type [T]. *)
Lemma record_parameter :
  forall C T N,
    is_identifier C = true -> is_plain_type T = true -> is_identifier N = true ->
    extract_record_properties (txt "record " ++ C ++ txt "(" ++ T ++ txt " " ++ N ++ txt ")") C
    = [(N, T)].
Proof.
  intros C T N HC HT HN.
  set (inner := T ++ " "%char :: N).
  replace (txt "record " ++ C ++ txt "(" ++ T ++ txt " " ++ N ++ txt ")")
    with (txt "record " ++ C ++ "("%char :: inner ++ [")"%char])
    by (unfold inner; rewrite <- app_assoc; reflexivity).
  pose proof (param_chars T N HT HN) as Hin.
  unfold extract_record_properties.
  fold inner in Hin.
  rewrite (no_class_body_inner C inner HC Hin).
  unfold constructor_properties.
  rewrite (record_start_matches C (inner ++ [")"%char]) HC). cbn [m_end].
  replace (0 + (length (txt "record " ++ C ++ "("%char :: inner ++ [")"%char])
                - length (inner ++ [")"%char])) - 1)
    with (length (txt "record " ++ C)).
  2:{ rewrite !length_app. cbn [length]. rewrite !length_app. cbn [length]. lia. }
  assert (Ep : _extract_balanced_parens
                 (txt "record " ++ C ++ "("%char :: inner ++ [")"%char])
                 (length (txt "record " ++ C)) = inner).
  { replace (txt "record " ++ C ++ "("%char :: inner ++ [")"%char])
      with ((txt "record " ++ C) ++ "("%char :: inner ++ ")"%char :: [])
      by (rewrite <- app_assoc; reflexivity).
    unfold _extract_balanced_parens.
    rewrite nth_error_at. simpl negb. cbv iota.
    rewrite skipn_past.
    rewrite (scan_balanced_finds_partner (opening := "(") (closing := ")"))
      by (reflexivity || apply paren_free_balanced; exact Hin).
    simpl Nat.eqb. cbv iota beta.
    apply (slice_inner (txt "record " ++ C) "(" inner [")"%char]). }
  rewrite Ep.
  rewrite (strip_comments_id inner (no_comment_marker inner Hin)).
  assert (Es : _split_parameters inner = [inner]).
  { unfold _split_parameters. rewrite split_fold_single.
    - cbn [current params app]. unfold inner. destruct T; reflexivity.
    - intros pre post E. rewrite Z.add_0_l. exact (@no_comma inner Hin pre post E). }
  rewrite Es. cbn [fold_left].
  exact (proj1 (@property_of_plain_param [] T N HT HN)).
Qed.

End RecordFacts.

Import RecordFacts.

(** X14. For identifiers [C] and [N] and a parameter type [T] without
    white space and commas, [extract_record_properties] finds in
    [record C(T N)] the one property [N] of type [T].  A default value
    after the name does not change what the parameter declares. *)
Theorem record_declares_its_parameter :
  forall C T N,
    is_identifier C = true -> is_plain_type T = true -> is_identifier N = true ->
    extract_record_properties
      (txt "record " ++ C ++ txt "(" ++ T ++ txt " " ++ N ++ txt ")") C
    = [(N, T)]
    /\ (forall properties v,
          is_token v = true ->
          property_of_param properties (T ++ txt " " ++ N ++ txt " = " ++ v)
          = Dict.set N T properties).
Proof.
  intros C T N HC HT HN. split.
  - apply record_parameter; assumption.
  - intros properties v Hv.
    exact (proj2 (@property_of_plain_param properties T N HT HN) v Hv).
Qed.

(** At [record PersonDto(string? Name)]. *)
Lemma record_declares_its_parameter_witness :
  is_identifier (txt "PersonDto") = true /\ is_plain_type (txt "string?") = true
  /\ extract_record_properties (txt "record PersonDto(string? Name)") (txt "PersonDto")
     = [(txt "Name", txt "string?")].
Proof.
  split; [reflexivity|]. split; [reflexivity|].
  exact (proj1 (record_declares_its_parameter (txt "PersonDto") (txt "string?")
                  (txt "Name") eq_refl eq_refl eq_refl)).
Defined.

(** X15. [extract_record_properties] finds nothing for a class whose
    name does not occur in the content.  When the class has a non-empty
    body, a property of the body takes precedence over a constructor
    parameter of the same name, and the other parameters keep their
    types; without a body, or with an empty one, the result is what the
    constructor declares. *)
Theorem body_properties_take_precedence :
  (forall content class_name,
     contains class_name content = false ->
     extract_record_properties content class_name = [])
  /\ (forall content class_name body k,
        extract_class_body content class_name = Some body -> body <> [] ->
        Dict.get (extract_record_properties content class_name) k
        = match Dict.get (extract_properties body) k with
          | Some prop_type => Some prop_type
          | None => Dict.get (constructor_properties content class_name) k
          end)
  /\ (forall content class_name,
        extract_class_body content class_name = None
        \/ extract_class_body content class_name = Some [] ->
        extract_record_properties content class_name
        = constructor_properties content class_name).
Proof.
  split; [|split].
  - intros content class_name H.
    unfold extract_record_properties, constructor_properties, extract_class_body, search.
    rewrite (@search_needs class_name (record_start_pattern class_name));
      [|intros w D; unfold record_start_pattern in D;
        eapply denotes_seq_contains; [|exact D]; cbn [In]; tauto
       |exact H].
    rewrite (@search_needs class_name (class_header_pattern class_name));
      [reflexivity
      |intros w D; unfold class_header_pattern in D;
       eapply denotes_seq_contains; [|exact D]; cbn [In]; tauto
      |exact H].
  - intros content class_name body k Hb Hne. unfold extract_record_properties.
    rewrite Hb. destruct body as [|a body]; [congruence|].
    apply get_update. apply extract_properties_nodup.
  - intros content class_name [H|H]; unfold extract_record_properties; rewrite H;
      reflexivity.
Qed.

(** The first part, and the second at a record that declares [Name] in
    both places. *)
Lemma body_properties_witness :
  contains (txt "PersonDto") (txt "public class Group { }") = false
  /\ extract_record_properties (txt "public class Group { }") (txt "PersonDto") = []
  /\ Dict.get
       (extract_record_properties
          (txt "public record PersonDto(string Name) { public int Name { get; } }")
          (txt "PersonDto"))
       (txt "Name")
     = Some (txt "int").
Proof.
  split; [reflexivity|]. split.
  - exact (proj1 body_properties_take_precedence (txt "public class Group { }")
                 (txt "PersonDto") eq_refl).
  - rewrite (proj1 (proj2 body_properties_take_precedence)
               (txt "public record PersonDto(string Name) { public int Name { get; } }")
               (txt "PersonDto") (txt " public int Name { get; } ") (txt "Name")).
    + reflexivity.
    + vm_compute. reflexivity.
    + discriminate.
Defined.

(* ===================================================================== *)
(** * The generator: inferred entities and edges *)
(* ===================================================================== *)

Import BackendGraphGenerator.

Module InferFacts.

Lemma first_some_In (A B : Type) (f : A -> option B) (l : list A) (y : B) :
  first_some f l = Some y -> exists x, In x l /\ f x = Some y.
Proof.
  induction l as [|x l IH]; cbn [first_some]; [discriminate|].
  destruct (f x) as [y'|] eqn:E.
  - intros H. injection H as <-. exists x. split; [left; reflexivity|exact E].
  - intros H. destruct (IH H) as [x' [Hin Hx]]. exists x'. split; [right|]; assumption.
Qed.

Lemma find_key (V : Type) (f : str -> bool) (d : dict V) (k : str) :
  find f (Dict.keys d) = Some k -> Dict.mem k d = true.
Proof. intros H. apply find_some in H. apply mem_keys. exact (proj1 H). Qed.

End InferFacts.

Import InferFacts.

(** X16. An entity that [_infer_entity_from_dto_name] returns is the
    marker [System] or a key of [self.entities].  The DTO [<Entity>Dto] of
    an existing entity is linked to that entity unless the manual
    mappings name the DTO, and a name that ends neither in [Request] nor
    in [Dto] and is not in the manual mappings has no entity. *)
Theorem inferred_entity_exists :
  (forall (V : Type) (entities : dict V) dto_name entity,
     _infer_entity_from_dto_name entities dto_name = Some entity ->
     entity = txt "System" \/ Dict.mem entity entities = true)
  /\ (forall (V : Type) (entities : dict V) entity_name,
        Dict.mem entity_name entities = true ->
        Dict.get manual_mappings (entity_name ++ txt "Dto") = None ->
        _infer_entity_from_dto_name entities (entity_name ++ txt "Dto")
        = Some entity_name)
  /\ (forall (V : Type) (entities : dict V) dto_name,
        endswith (txt "Request") dto_name = false ->
        endswith (txt "Dto") dto_name = false ->
        Dict.get manual_mappings dto_name = None ->
        _infer_entity_from_dto_name entities dto_name = None).
Proof.
  split; [|split].
  - intros V entities dto_name entity H. unfold _infer_entity_from_dto_name in H.
    destruct (from_manual_mapping entities dto_name) as [e|] eqn:E1.
    { injection H as <-. unfold from_manual_mapping in E1.
      destruct (Dict.get manual_mappings dto_name) as [e'|]; [|discriminate].
      destruct (str_eqb e' (txt "System")) eqn:Es; cbn [orb] in E1.
      - injection E1 as <-. left. apply str_eqb_eq. exact Es.
      - destruct (Dict.mem e' entities) eqn:Em; [|discriminate].
        injection E1 as <-. right. exact Em. }
    right.
    destruct (from_request_name entities dto_name) as [e|] eqn:E2.
    { injection H as <-. unfold from_request_name in E2.
      destruct (endswith (txt "Request") dto_name); [|discriminate].
      apply first_some_In in E2. destruct E2 as [prefix [_ E2]].
      destruct (startswith prefix _); [|discriminate].
      destruct (Dict.mem (skipn (length prefix) _) entities) eqn:Em.
      - injection E2 as <-. exact Em.
      - apply (find_key _ _ E2). }
    unfold from_dto_name in H.
    destruct (endswith (txt "Dto") dto_name); [|discriminate].
    destruct (Dict.mem (firstn (length dto_name - 3) dto_name) entities) eqn:Em.
    + injection H as <-. exact Em.
    + apply (find_key _ _ H).
  - intros V entities name Hm Hg. unfold _infer_entity_from_dto_name.
    unfold from_manual_mapping. rewrite Hg.
    assert (Hr : endswith (txt "Request") (name ++ txt "Dto") = false).
    { unfold endswith. rewrite length_app. cbn [txt list_ascii_of_string length].
      destruct (7 <=? length name + 3) eqn:E; [|reflexivity]. cbn [andb].
      apply Nat.leb_le in E.
      rewrite skipn_app.
      replace (length name + 3 - 7 - length name) with 0 by lia. cbn [skipn].
      destruct (str_eqb _ _) eqn:Es; [|reflexivity].
      apply str_eqb_eq in Es.
      apply (f_equal (@rev ascii)) in Es. rewrite rev_app_distr in Es.
      cbn in Es. discriminate. }
    unfold from_request_name. rewrite Hr.
    unfold from_dto_name. rewrite endswith_app.
    rewrite length_app. cbn [txt list_ascii_of_string length].
    replace (length name + 3 - 3) with (length name) by lia.
    rewrite firstn_exact, Hm. reflexivity.
  - intros V entities dto_name Hr Hd Hg. unfold _infer_entity_from_dto_name.
    unfold from_manual_mapping, from_request_name, from_dto_name.
    rewrite Hg, Hr, Hd. reflexivity.
Qed.

(** The first two parts at the DTO of an existing entity. *)
Lemma inferred_entity_witness :
  _infer_entity_from_dto_name [(txt "Person", tt); (txt "Group", tt)] (txt "GroupDto")
  = Some (txt "Group")
  /\ (txt "Group" = txt "System"
      \/ Dict.mem (txt "Group") [(txt "Person", tt); (txt "Group", tt)] = true).
Proof.
  split.
  - exact (proj1 (proj2 inferred_entity_exists) unit
             [(txt "Person", tt); (txt "Group", tt)] (txt "Group") eq_refl eq_refl).
  - exact (proj1 inferred_entity_exists unit
             [(txt "Person", tt); (txt "Group", tt)] (txt "GroupDto") (txt "Group")
             eq_refl).
Defined.

(** X17. [build_edges] keeps the edges it is given and adds no dangling
    edge: a [depends_on] edge goes from a controller to a service, a
    [returns] edge from a service to a DTO, a [uses] edge from a service
    to an entity, each of them a key of its dictionary.  A dependency
    [I<Service>] of a controller that is no service itself gives the edge
    to [<Service>] when that is a service whose name does not start with
    [I]. *)
Theorem build_edges_has_no_dangling_edge :
  forall (E D : Type) (entities : dict E) (dtos : dict D) services controllers edges,
    let result := build_edges entities dtos services controllers edges in
    (exists added, result = edges ++ added)
    /\ (forall e,
          In e result ->
          In e edges
          \/ (relationship e = txt "depends_on"
              /\ Dict.mem (source e) controllers = true
              /\ Dict.mem (target e) services = true)
          \/ (relationship e = txt "returns"
              /\ Dict.mem (source e) services = true
              /\ Dict.mem (target e) dtos = true)
          \/ (relationship e = txt "uses"
              /\ Dict.mem (source e) services = true
              /\ Dict.mem (target e) entities = true))
    /\ (forall controller_name c service_name,
          In (controller_name, c) controllers ->
          In ("I"%char :: service_name) (get_or_empty (controller_dependencies c)) ->
          Dict.mem ("I"%char :: service_name) services = false ->
          Dict.mem service_name services = true ->
          stops (ascii_eqb "I") service_name ->
          In (Edge controller_name service_name (txt "depends_on")) result).
Proof.
  intros E D entities dtos services controllers edges result. subst result.
  unfold build_edges. split; [|split].
  - eexists. rewrite <- !app_assoc. reflexivity.
  - intros e H. rewrite <- !app_assoc in H.
    apply in_app_or in H. destruct H as [H|H]; [left; exact H|]. right.
    apply in_app_or in H. destruct H as [H|H].
    + left. apply in_flat_map in H. destruct H as [[cn c] [Hc H]]. cbn [fst snd] in H.
      apply in_flat_map in H. destruct H as [dep [_ H]].
      assert (Hcn : Dict.mem cn controllers = true).
      { apply mem_keys. apply in_map_iff. exists (cn, c). split; [reflexivity|exact Hc]. }
      unfold controller_edge in H.
      destruct (Dict.mem dep services) eqn:Em.
      * destruct H as [<-|[]]. cbn. repeat split; assumption.
      * destruct (find _ (Dict.keys services)) as [sn|] eqn:Ef; [|destruct H].
        destruct H as [<-|[]]. cbn. split; [reflexivity|]. split; [exact Hcn|].
        apply (find_key _ _ Ef).
    + right. apply in_app_or in H. destruct H as [H|H].
      * left. apply in_flat_map in H. destruct H as [[sn s] [Hs H]]. cbn [fst snd] in H.
        apply in_flat_map in H. destruct H as [m [_ H]].
        assert (Hsn : Dict.mem sn services = true).
        { apply mem_keys. apply in_map_iff. exists (sn, s). split; [reflexivity|exact Hs]. }
        unfold method_edge in H.
        destruct (find _ (Dict.keys dtos)) as [dn|] eqn:Ef; [|destruct H].
        destruct H as [<-|[]]. cbn. split; [reflexivity|]. split; [exact Hsn|].
        apply (find_key _ _ Ef).
      * right. apply in_flat_map in H. destruct H as [[sn s] [Hs H]]. cbn [fst snd] in H.
        apply in_flat_map in H. destruct H as [dep [_ H]].
        assert (Hsn : Dict.mem sn services = true).
        { apply mem_keys. apply in_map_iff. exists (sn, s). split; [reflexivity|exact Hs]. }
        unfold entity_edge in H.
        destruct (find _ (Dict.keys entities)) as [en|] eqn:Ef; [|destruct H].
        destruct H as [<-|[]]. cbn. split; [reflexivity|]. split; [exact Hsn|].
        apply (find_key _ _ Ef).
  - intros cn c sn Hc Hdep Hi Hs Hstop. rewrite <- !app_assoc.
    apply in_or_app. right. apply in_or_app. left.
    apply in_flat_map. exists (cn, c). split; [exact Hc|]. cbn [fst snd].
    apply in_flat_map. exists ("I"%char :: sn). split; [exact Hdep|].
    unfold controller_edge. rewrite Hi.
    destruct (find _ (Dict.keys services)) as [s|] eqn:Ef.
    + apply find_some in Ef. destruct Ef as [_ Ef].
      cbn [lstrip_by] in Ef. change (ascii_eqb "I" "I") with true in Ef. cbv iota in Ef.
      rewrite (@PropertyFacts.lstrip_stops _ _ Hstop) in Ef.
      cbn [str_eqb] in Ef. change (ascii_eqb "I" "I") with true in Ef. cbn [andb] in Ef.
      rewrite (str_eqb_sym s sn), orb_diag in Ef. apply str_eqb_eq in Ef. subst s.
      left. reflexivity.
    + exfalso. apply mem_keys in Hs. apply (find_none _ _ Ef) in Hs.
      cbn [lstrip_by] in Hs. change (ascii_eqb "I" "I") with true in Hs. cbv iota in Hs.
      rewrite (@PropertyFacts.lstrip_stops _ _ Hstop), str_eqb_refl in Hs. discriminate.
Qed.

(** The third part at a controller that depends on [IPersonService]. *)
Lemma build_edges_witness :
  In (Edge (txt "PeopleController") (txt "PersonService") (txt "depends_on"))
     (build_edges (@nil (str * unit)) (@nil (str * unit))
        [(txt "PersonService", Service None None)]
        [(txt "PeopleController", Controller (Some [txt "IPersonService"]))] []).
Proof.
  apply (proj2 (proj2 (@build_edges_has_no_dangling_edge unit unit [] []
                         [(txt "PersonService", Service None None)]
                         [(txt "PeopleController",
                           Controller (Some [txt "IPersonService"]))] []))
               (txt "PeopleController") (Controller (Some [txt "IPersonService"]))
               (txt "PersonService")).
  - left. reflexivity.
  - left. reflexivity.
  - reflexivity.
  - reflexivity.
  - reflexivity.
Defined.

(* ===================================================================== *)
(** * The merger: routes, mappings and matching names *)
(* ===================================================================== *)

Import GraphMerger.

Module StripFacts.

Lemma lstrip_by_stops (p : ascii -> bool) (s : str) : stops p (lstrip_by p s).
Proof.
  induction s as [|a s IH]; [exact I|]. cbn [lstrip_by].
  destruct (p a) eqn:E; [exact IH|exact E].
Qed.

Lemma lstrip_by_suffix (p : ascii -> bool) (s : str) :
  exists dropped, s = dropped ++ lstrip_by p s.
Proof.
  induction s as [|a s [d IH]]; [exists []; reflexivity|]. cbn [lstrip_by].
  destruct (p a).
  - exists (a :: d). cbn [app]. f_equal. exact IH.
  - exists []. reflexivity.
Qed.

Lemma rstrip_by_prefix (p : ascii -> bool) (s : str) :
  exists dropped, s = rstrip_by p s ++ dropped.
Proof.
  unfold rstrip_by. destruct (lstrip_by_suffix p (rev s)) as [d E].
  exists (rev d). rewrite <- rev_app_distr, <- E, rev_involutive. reflexivity.
Qed.

(** A stripped text neither starts nor ends with a stripped character. *)
Lemma strip_by_ends (p : ascii -> bool) (s : str) :
  stops p (strip_by p s) /\ stops p (rev (strip_by p s)).
Proof.
  unfold strip_by. split.
  - pose proof (lstrip_by_stops p s) as H.
    destruct (rstrip_by_prefix p (lstrip_by p s)) as [d E].
    destruct (rstrip_by p (lstrip_by p s)) as [|a t]; [exact I|].
    rewrite E in H. exact H.
  - unfold rstrip_by. rewrite rev_involutive. apply lstrip_by_stops.
Qed.

Lemma startswith_char (c : ascii) (s : str) :
  stops (ascii_eqb c) s -> startswith [c] s = false.
Proof.
  destruct s as [|a s]; [reflexivity|]. cbn [stops startswith]. intros ->. reflexivity.
Qed.

Lemma endswith_char (c : ascii) (s : str) :
  stops (ascii_eqb c) (rev s) -> endswith [c] s = false.
Proof.
  intros H. unfold endswith.
  destruct (rev s) as [|a t] eqn:E.
  - apply (f_equal (@rev ascii)) in E. rewrite rev_involutive in E. subst s.
    reflexivity.
  - apply (f_equal (@rev ascii)) in E. rewrite rev_involutive in E. subst s.
    cbn [rev]. rewrite length_app. cbn [length].
    replace (length (rev t) + 1 - 1) with (length (rev t)) by lia.
    rewrite skipn_app, skipn_all, Nat.sub_diag. cbn [skipn app str_eqb].
    cbn [stops] in H. rewrite ascii_eqb_sym, H. apply andb_false_r.
Qed.

End StripFacts.

Import StripFacts.

(** X18. A normalized route neither starts nor ends with a slash.  A
    doubled slash inside it is made a single one, but of three slashes in
    a row two are left, so that normalizing is not idempotent. *)
Theorem normalize_route_has_no_outer_slash :
  (forall route,
     startswith (txt "/") (normalize_route route) = false
     /\ endswith (txt "/") (normalize_route route) = false)
  /\ normalize_route (txt "//api//v1//") = txt "api/v1"
  /\ normalize_route (txt "api///v1") = txt "api//v1"
  /\ normalize_route (normalize_route (txt "api///v1")) = txt "api/v1".
Proof.
  split; [|split; [|split]]; try reflexivity.
  intros route. unfold normalize_route, strip_slash.
  destruct (strip_by_ends (ascii_eqb "/") (replace (txt "//") (txt "/") route))
    as [H1 H2].
  split; [apply startswith_char; exact H1|apply endswith_char; exact H2].
Qed.

Lemma routes_match_patterns (backend_route frontend_route : str) :
  _routes_match backend_route frontend_route
  = str_eqb (route_to_pattern (normalize_route backend_route))
            (route_to_pattern (normalize_route frontend_route)).
Proof.
  unfold _routes_match.
  destruct (str_eqb (normalize_route backend_route) (normalize_route frontend_route))
    eqn:E; [|reflexivity].
  symmetry. apply route_to_pattern_of_equal. exact E.
Qed.

(** X19. [_routes_match] is an equivalence on routes: every route matches
    itself, the order of the two routes does not matter, and two routes
    that match a third match each other.  Routes with the same
    normalized form match. *)
Theorem routes_match_is_an_equivalence :
  (forall a, _routes_match a a = true)
  /\ (forall a b, _routes_match a b = _routes_match b a)
  /\ (forall a b c,
        _routes_match a b = true -> _routes_match b c = true ->
        _routes_match a c = true)
  /\ (forall a b,
        normalize_route a = normalize_route b -> _routes_match a b = true).
Proof.
  split; [|split; [|split]].
  - intros a. rewrite routes_match_patterns. apply str_eqb_refl.
  - intros a b. rewrite !routes_match_patterns. apply str_eqb_sym.
  - intros a b c. rewrite !routes_match_patterns. intros H1 H2.
    apply str_eqb_eq in H1, H2. rewrite H1, H2. apply str_eqb_refl.
  - intros a b E. rewrite routes_match_patterns, E. apply str_eqb_refl.
Qed.

(** Transitivity at three spellings of one route. *)
Lemma routes_match_is_an_equivalence_witness :
  _routes_match (txt "/api/v1/people/{id}") (txt "api/v1/people/{idKey}/") = true
  /\ _routes_match (txt "api/v1/people/{idKey}/") (txt "api//v1/people/{key}") = true
  /\ _routes_match (txt "/api/v1/people/{id}") (txt "api//v1/people/{key}") = true.
Proof.
  split; [reflexivity|]. split; [reflexivity|].
  exact (proj1 (proj2 (proj2 routes_match_is_an_equivalence))
               (txt "/api/v1/people/{id}") (txt "api/v1/people/{idKey}/")
               (txt "api//v1/people/{key}") eq_refl eq_refl).
Defined.

Module MappingFacts.

Lemma find_matching_type_is_a_type (frontend : frontend_graph) (dto_name t : str) :
  _find_matching_type frontend dto_name = Some t ->
  Dict.mem t (get_or_empty (f_types frontend)) = true.
Proof.
  unfold _find_matching_type.
  destruct (Dict.mem dto_name (get_or_empty (f_types frontend))) eqn:E.
  - intros H. injection H as <-. exact E.
  - intros H. apply find_some in H. apply mem_keys. exact (proj1 H).
Qed.

Lemma add_mapping_in (frontend : frontend_graph) (mappings : dict str) (dto_name k v : str) :
  In (k, v) (add_mapping frontend mappings dto_name) ->
  In (k, v) mappings
  \/ exists t, k = txt "dto:" ++ dto_name /\ v = txt "type:" ++ t /\ t <> []
               /\ _find_matching_type frontend dto_name = Some t.
Proof.
  unfold add_mapping.
  destruct (_find_matching_type frontend dto_name) as [[|a t]|] eqn:E; cbn [nonempty];
    try (intros H; left; exact H).
  intros H. apply in_set in H. destruct H as [[-> ->]|H]; [|left; exact H].
  right. exists (a :: t). repeat split. discriminate.
Qed.

Lemma mappings_in (frontend : frontend_graph) (names : list str) :
  forall mappings k v,
    In (k, v) (fold_left (add_mapping frontend) names mappings) ->
    In (k, v) mappings
    \/ exists dto_name t,
         In dto_name names /\ k = txt "dto:" ++ dto_name /\ v = txt "type:" ++ t
         /\ t <> [] /\ _find_matching_type frontend dto_name = Some t.
Proof.
  induction names as [|n names IH]; intros mappings k v H; cbn [fold_left] in H.
  - left. exact H.
  - apply IH in H. destruct H as [H|(d & t & Hin & Hk & Hv & Ht & Hf)].
    + apply add_mapping_in in H. destruct H as [H|(t & Hk & Hv & Ht & Hf)].
      * left. exact H.
      * right. exists n, t. repeat split; try assumption. left. reflexivity.
    + right. exists d, t. repeat split; try assumption. right. exact Hin.
Qed.

Lemma get_add_mapping_other (frontend : frontend_graph) (mappings : dict str)
      (dto_name other : str) :
  str_eqb other dto_name = false ->
  Dict.get (add_mapping frontend mappings other) (txt "dto:" ++ dto_name)
  = Dict.get mappings (txt "dto:" ++ dto_name).
Proof.
  intros Hne. unfold add_mapping.
  destruct (nonempty (_find_matching_type frontend other)) as [t|]; [|reflexivity].
  rewrite get_set.
  destruct (str_eqb (txt "dto:" ++ dto_name) (txt "dto:" ++ other)) eqn:E;
    [|reflexivity].
  apply str_eqb_eq in E. apply app_inv_head in E. subst other.
  rewrite str_eqb_refl in Hne. discriminate.
Qed.

Lemma mappings_get (frontend : frontend_graph) (dto_name : str) (a : ascii) (t : str)
      (names : list str) :
  _find_matching_type frontend dto_name = Some (a :: t) ->
  forall mappings,
    In dto_name names
    \/ Dict.get mappings (txt "dto:" ++ dto_name) = Some (txt "type:" ++ a :: t) ->
    Dict.get (fold_left (add_mapping frontend) names mappings) (txt "dto:" ++ dto_name)
    = Some (txt "type:" ++ a :: t).
Proof.
  intros Hf. induction names as [|n names IH]; intros mappings H; cbn [fold_left].
  - destruct H as [[]|H]. exact H.
  - apply IH. destruct (str_eqb n dto_name) eqn:E.
    + apply str_eqb_eq in E. subst n. right.
      unfold add_mapping. rewrite Hf. cbn [nonempty].
      rewrite get_set, str_eqb_refl. reflexivity.
    + destruct H as [[->|H]|H].
      * rewrite str_eqb_refl in E. discriminate.
      * left. exact H.
      * right. rewrite get_add_mapping_other by exact E. exact H.
Qed.

Lemma normalize_dto_name_suffix (t : str) : _normalize_dto_name (t ++ txt "Dto") = t.
Proof.
  unfold _normalize_dto_name. rewrite endswith_app.
  rewrite length_app. cbn [txt list_ascii_of_string length].
  replace (length t + 3 - 3) with (length t) by lia.
  apply firstn_exact.
Qed.

Lemma find_exists (A : Type) (f : A -> bool) (l : list A) (x : A) :
  In x l -> f x = true -> find f l <> None.
Proof.
  intros Hin Hf H. apply (find_none f l H) in Hin. congruence.
Qed.

End MappingFacts.

Import MappingFacts.

(** X20. Every entry of [cross_layer_mappings] links [dto:<name>] of a
    backend DTO to [type:<name>] of a frontend type that
    [_find_matching_type] gives for it, and every backend DTO for which
    it gives a type with a non-empty name has its entry. *)
Theorem cross_layer_mappings_link_existing_nodes :
  forall now backend frontend,
    let mappings := cross_layer_mappings (snd (merge now backend frontend)) in
    (forall k v,
       In (k, v) mappings ->
       exists dto_name type_name,
         k = txt "dto:" ++ dto_name /\ v = txt "type:" ++ type_name
         /\ Dict.mem dto_name (get_or_empty (b_dtos backend)) = true
         /\ Dict.mem type_name (get_or_empty (f_types frontend)) = true
         /\ _find_matching_type frontend dto_name = Some type_name)
    /\ (forall dto_name a t,
          Dict.mem dto_name (get_or_empty (b_dtos backend)) = true ->
          _find_matching_type frontend dto_name = Some (a :: t) ->
          Dict.get mappings (txt "dto:" ++ dto_name) = Some (txt "type:" ++ a :: t)).
Proof.
  intros now backend frontend mappings. subst mappings.
  unfold merge. cbn [snd cross_layer_mappings]. split.
  - intros k v H. apply mappings_in in H.
    destruct H as [[]|(d & t & Hin & Hk & Hv & Ht & Hf)].
    exists d, t. repeat split; try assumption.
    + apply mem_keys. exact Hin.
    + apply (find_matching_type_is_a_type _ _ Hf).
  - intros dto_name a t Hm Hf. apply mappings_get; [exact Hf|].
    left. apply mem_keys. exact Hm.
Qed.

(** The second part at [PersonDto] and the frontend type [person]. *)
Lemma cross_layer_mappings_witness :
  Dict.get
    (cross_layer_mappings
       (snd (merge []
               (BackendGraph None (Some [(txt "PersonDto", JNull)]) None None None)
               (FrontendGraph (Some [(txt "person", JNull)]) None None None None))))
    (txt "dto:PersonDto")
  = Some (txt "type:person").
Proof.
  exact (proj2 (cross_layer_mappings_link_existing_nodes []
                  (BackendGraph None (Some [(txt "PersonDto", JNull)]) None None None)
                  (FrontendGraph (Some [(txt "person", JNull)]) None None None None))
               (txt "PersonDto") "p"%char (txt "erson") eq_refl eq_refl).
Defined.

(** X21. The two finders of the merger agree: the frontend type that
    [_find_matching_type] gives for a backend DTO has a DTO according to
    [_find_matching_dto], and the DTO that [_find_matching_dto] gives for a
    frontend type has a type according to [_find_matching_type]. *)
Theorem matching_finders_agree :
  forall backend frontend,
    (forall dto_name type_name,
       Dict.mem dto_name (get_or_empty (b_dtos backend)) = true ->
       _find_matching_type frontend dto_name = Some type_name ->
       _find_matching_dto backend type_name <> None)
    /\ (forall type_name dto_name,
          Dict.mem type_name (get_or_empty (f_types frontend)) = true ->
          _find_matching_dto backend type_name = Some dto_name ->
          _find_matching_type frontend dto_name <> None).
Proof.
  intros backend frontend. split.
  - intros d t Hd Hf. unfold _find_matching_type in Hf. unfold _find_matching_dto.
    destruct (Dict.mem d (get_or_empty (f_types frontend))) eqn:E.
    + injection Hf as <-. rewrite Hd. discriminate.
    + apply find_some in Hf. destruct Hf as [_ Hl].
      unfold _normalize_type_name in Hl.
      destruct (Dict.mem t (get_or_empty (b_dtos backend))); [discriminate|].
      destruct (Dict.mem (t ++ txt "Dto") (get_or_empty (b_dtos backend)));
        [discriminate|].
      apply (@find_exists _ _ _ d); [apply mem_keys; exact Hd|].
      rewrite str_eqb_sym. exact Hl.
  - intros t d Ht Hf. unfold _find_matching_dto in Hf. unfold _find_matching_type.
    destruct (Dict.mem d (get_or_empty (f_types frontend))) eqn:E; [discriminate|].
    apply (@find_exists _ _ _ t); [apply mem_keys; exact Ht|].
    unfold _normalize_type_name.
    destruct (Dict.mem t (get_or_empty (b_dtos backend))) eqn:E1.
    + injection Hf as <-. rewrite Ht in E. discriminate.
    + destruct (Dict.mem (t ++ txt "Dto") (get_or_empty (b_dtos backend))) eqn:E2.
      * injection Hf as <-. rewrite normalize_dto_name_suffix. apply str_eqb_refl.
      * apply find_some in Hf. destruct Hf as [_ Hl].
        rewrite str_eqb_sym. exact Hl.
Qed.

(** The first part at [PersonDto] and the frontend type [person]. *)
Lemma matching_finders_witness :
  _find_matching_type
    (FrontendGraph (Some [(txt "person", JNull)]) None None None None) (txt "PersonDto")
  = Some (txt "person")
  /\ _find_matching_dto
       (BackendGraph None (Some [(txt "PersonDto", JNull)]) None None None) (txt "person")
     <> None.
Proof.
  split; [reflexivity|].
  exact (proj1 (matching_finders_agree
                  (BackendGraph None (Some [(txt "PersonDto", JNull)]) None None None)
                  (FrontendGraph (Some [(txt "person", JNull)]) None None None None))
               (txt "PersonDto") (txt "person") eq_refl eq_refl).
Defined.

(* ===================================================================== *)
(** * The verifier: what each check records *)
(* ===================================================================== *)

Import ContractVerifier VerifierFacts.

Module CheckFacts.

(** What a check records when the body of its loop records [F x] for each
    item [x]. *)
Lemma findings_of_loop (A : Type) (key name h1 h2 : str)
      (F : A -> list ContractViolation) (items : list A) (st : state) :
  Dict.mem key (violations st) = true ->
  violations_of key
    (_print_results key name
       (fold_left (fun st x => record_all key (F x) st) items (print h2 (print h1 st))))
  = violations_of key st ++ flat_map F items.
Proof.
  intros Hmem. rewrite fold_record_all.
  unfold violations_of at 1. rewrite violations_print_results.
  fold (violations_of key (record_all key (flat_map F items) (print h2 (print h1 st)))).
  rewrite violations_of_record_all by exact Hmem. reflexivity.
Qed.

Lemma check_1_findings (g : graph) (st : state) :
  Dict.mem (txt "check_1") (violations st) = true ->
  violations_of (txt "check_1") (check_response_envelopes g st)
  = violations_of (txt "check_1") st
    ++ flat_map envelope_finding (get_or_empty (controllers g)).
Proof.
  intros Hmem. unfold check_response_envelopes.
  rewrite <- (@findings_of_loop _ _ (txt "Response envelope documentation")
                (nl ++ txt "Check 1: Response Envelope Documentation") (dashes 50)
                envelope_finding _ _ Hmem).
  f_equal. f_equal. apply fold_left_ext. intros a kv. unfold envelope_finding.
  destruct (negb _); reflexivity.
Qed.

Lemma check_3_findings (g : graph) (st : state) :
  Dict.mem (txt "check_3") (violations st) = true ->
  violations_of (txt "check_3") (check_idkey_routes g st)
  = violations_of (txt "check_3") st
    ++ flat_map route_findings (get_or_empty (controllers g)).
Proof.
  intros Hmem. unfold check_idkey_routes.
  rewrite <- (@findings_of_loop _ _ (txt "IdKey route patterns")
                (nl ++ txt "Check 3: IdKey Routes") (dashes 50)
                route_findings _ _ Hmem).
  f_equal. f_equal. apply fold_left_ext. intros a kv. unfold route_findings.
  rewrite <- fold_record_all. apply fold_left_ext. intros b ep.
  unfold route_finding, route_of. destruct (contains _ _); reflexivity.
Qed.

Lemma check_4_findings (g : graph) (st : state) :
  Dict.mem (txt "check_4") (violations st) = true ->
  violations_of (txt "check_4") (check_hook_wrapping g st)
  = violations_of (txt "check_4") st
    ++ flat_map direct_call_finding (get_or_empty (components g)).
Proof.
  intros Hmem. unfold check_hook_wrapping.
  rewrite <- (@findings_of_loop _ _ (txt "Hook wrapping pattern")
                (nl ++ txt "Check 4: Hook Wrapping") (dashes 50)
                direct_call_finding _ _ Hmem).
  f_equal. f_equal. apply fold_left_ext. intros a kv. unfold direct_call_finding.
  destruct (apiCallsDirectly (snd kv)) as [[]|]; reflexivity.
Qed.

End CheckFacts.

Import CheckFacts.

(** X22. Check 1 records one FAIL finding for each controller whose
    [patterns] lack the key [response_envelope], and nothing else.  It
    tests the key only: a controller that declares [response_envelope]
    false passes. *)
Theorem check_1_tests_the_key_only :
  (forall g st controller_name c,
     Dict.mem (txt "check_1") (violations st) = true ->
     In (controller_name, c) (get_or_empty (controllers g)) ->
     Dict.mem (txt "response_envelope") (get_or_empty (patterns c)) = false ->
     In (Violation (txt "Check 1") (txt "FAIL") controller_name
           (txt "Missing response_envelope documentation in patterns"))
        (violations_of (txt "check_1") (check_response_envelopes g st)))
  /\ (forall g st v,
        Dict.mem (txt "check_1") (violations st) = true ->
        In v (violations_of (txt "check_1") (check_response_envelopes g st)) ->
        In v (violations_of (txt "check_1") st)
        \/ (severity v = txt "FAIL"
            /\ exists c,
                 In (item v, c) (get_or_empty (controllers g))
                 /\ Dict.mem (txt "response_envelope") (get_or_empty (patterns c))
                    = false))
  /\ (forall controller_name declared eps,
        violations_of (txt "check_1")
          (check_response_envelopes
             (one_controller_graph controller_name
                (Controller (Some [(txt "response_envelope", declared)]) eps))
             init) = []).
Proof.
  split; [|split].
  - intros g st name c Hmem Hin Hp. rewrite check_1_findings by exact Hmem.
    apply in_or_app. right. apply in_flat_map. exists (name, c).
    split; [exact Hin|]. unfold envelope_finding. cbn [fst snd]. rewrite Hp.
    left. reflexivity.
  - intros g st v Hmem Hin. rewrite check_1_findings in Hin by exact Hmem.
    apply in_app_or in Hin. destruct Hin as [Hin|Hin]; [left; exact Hin|].
    right. apply in_flat_map in Hin. destruct Hin as [[name c] [Hc Hv]].
    unfold envelope_finding in Hv. cbn [fst snd] in Hv.
    destruct (Dict.mem (txt "response_envelope") (get_or_empty (patterns c))) eqn:E;
      cbn [negb] in Hv; [destruct Hv|].
    destruct Hv as [<-|[]]. split; [reflexivity|]. exists c. split; assumption.
  - intros name declared eps. rewrite check_1_findings by reflexivity. reflexivity.
Qed.

(** The first part at a controller with empty patterns. *)
Lemma check_1_witness :
  In (Violation (txt "Check 1") (txt "FAIL") (txt "PeopleController")
        (txt "Missing response_envelope documentation in patterns"))
     (violations_of (txt "check_1")
        (check_response_envelopes
           (one_controller_graph (txt "PeopleController") (Controller (Some []) None))
           init)).
Proof.
  apply (proj1 check_1_tests_the_key_only
               (one_controller_graph (txt "PeopleController") (Controller (Some []) None))
               init (txt "PeopleController") (Controller (Some []) None)).
  - reflexivity.
  - left. reflexivity.
  - reflexivity.
Defined.

(** X23. Check 3 records one FAIL finding for each endpoint whose route
    contains [{id}], named [<controller>.<endpoint>], and nothing else.
    An endpoint without a route, and the routes [{idKey}] and [{id:int}],
    are not flagged. *)
Theorem check_3_flags_id_routes :
  (forall g st controller_name c ep,
     Dict.mem (txt "check_3") (violations st) = true ->
     In (controller_name, c) (get_or_empty (controllers g)) ->
     In ep (get_or_empty (endpoints c)) ->
     contains (txt "{id}") (route_of ep) = true ->
     In (Violation (txt "Check 3") (txt "FAIL")
           (controller_name ++ txt "." ++ show_opt (ep_name ep))
           (txt "Route uses {id} instead of {idKey}: " ++ route_of ep))
        (violations_of (txt "check_3") (check_idkey_routes g st)))
  /\ (forall g st v,
        Dict.mem (txt "check_3") (violations st) = true ->
        In v (violations_of (txt "check_3") (check_idkey_routes g st)) ->
        In v (violations_of (txt "check_3") st)
        \/ (severity v = txt "FAIL"
            /\ exists controller_name c ep,
                 In (controller_name, c) (get_or_empty (controllers g))
                 /\ In ep (get_or_empty (endpoints c))
                 /\ contains (txt "{id}") (route_of ep) = true
                 /\ item v = controller_name ++ txt "." ++ show_opt (ep_name ep)))
  /\ (forall controller_name ps name route,
        In route [None; Some (txt "{idKey}"); Some (txt "{id:int}");
                  Some (txt "people/{idKey}/notes")] ->
        violations_of (txt "check_3")
          (check_idkey_routes
             (one_controller_graph controller_name
                (Controller ps (Some [Endpoint name route])))
             init) = []).
Proof.
  split; [|split].
  - intros g st name c ep Hmem Hc Hep Hr. rewrite check_3_findings by exact Hmem.
    apply in_or_app. right. apply in_flat_map. exists (name, c).
    split; [exact Hc|]. unfold route_findings. cbn [fst snd].
    apply in_flat_map. exists ep. split; [exact Hep|].
    unfold route_finding. rewrite Hr. left. reflexivity.
  - intros g st v Hmem Hin. rewrite check_3_findings in Hin by exact Hmem.
    apply in_app_or in Hin. destruct Hin as [Hin|Hin]; [left; exact Hin|].
    right. apply in_flat_map in Hin. destruct Hin as [[name c] [Hc Hv]].
    unfold route_findings in Hv. cbn [fst snd] in Hv.
    apply in_flat_map in Hv. destruct Hv as [ep [Hep Hv]].
    unfold route_finding in Hv.
    destruct (contains (txt "{id}") (route_of ep)) eqn:E; [|destruct Hv].
    destruct Hv as [<-|[]]. split; [reflexivity|].
    exists name, c, ep. repeat split; assumption.
  - intros cname ps name route Hr. rewrite check_3_findings by reflexivity.
    cbn [In] in Hr.
    destruct Hr as [<-|[<-|[<-|[<-|[]]]]]; reflexivity.
Qed.

(** The first part at the route [people/{id}]. *)
Lemma check_3_witness :
  contains (txt "{id}") (txt "people/{id}") = true
  /\ In (Violation (txt "Check 3") (txt "FAIL") (txt "PeopleController.Get")
           (txt "Route uses {id} instead of {idKey}: people/{id}"))
        (violations_of (txt "check_3")
           (check_idkey_routes
              (one_controller_graph (txt "PeopleController")
                 (Controller None
                    (Some [Endpoint (Some (txt "Get")) (Some (txt "people/{id}"))])))
              init)).
Proof.
  split; [reflexivity|].
  apply (proj1 check_3_flags_id_routes
           (one_controller_graph (txt "PeopleController")
              (Controller None
                 (Some [Endpoint (Some (txt "Get")) (Some (txt "people/{id}"))])))
           init (txt "PeopleController")
           (Controller None (Some [Endpoint (Some (txt "Get")) (Some (txt "people/{id}"))]))
           (Endpoint (Some (txt "Get")) (Some (txt "people/{id}")))).
  - reflexivity.
  - left. reflexivity.
  - left. reflexivity.
  - reflexivity.
Defined.

(** X24. Check 4 records one FAIL finding for each component whose
    [apiCallsDirectly] is true, and nothing else: a component without the
    flag passes. *)
Theorem check_4_flags_direct_calls :
  (forall g st component_name c,
     Dict.mem (txt "check_4") (violations st) = true ->
     In (component_name, c) (get_or_empty (components g)) ->
     apiCallsDirectly c = Some true ->
     In (Violation (txt "Check 4") (txt "FAIL") component_name
           (txt "Component makes direct API calls instead of using hooks"))
        (violations_of (txt "check_4") (check_hook_wrapping g st)))
  /\ (forall g st v,
        Dict.mem (txt "check_4") (violations st) = true ->
        In v (violations_of (txt "check_4") (check_hook_wrapping g st)) ->
        In v (violations_of (txt "check_4") st)
        \/ (severity v = txt "FAIL"
            /\ exists c,
                 In (item v, c) (get_or_empty (components g))
                 /\ apiCallsDirectly c = Some true))
  /\ (forall component_name flag,
        flag <> Some true ->
        violations_of (txt "check_4")
          (check_hook_wrapping
             (one_component_graph component_name (Component flag)) init) = []).
Proof.
  split; [|split].
  - intros g st name c Hmem Hc Hf. rewrite check_4_findings by exact Hmem.
    apply in_or_app. right. apply in_flat_map. exists (name, c).
    split; [exact Hc|]. unfold direct_call_finding. cbn [fst snd]. rewrite Hf.
    left. reflexivity.
  - intros g st v Hmem Hin. rewrite check_4_findings in Hin by exact Hmem.
    apply in_app_or in Hin. destruct Hin as [Hin|Hin]; [left; exact Hin|].
    right. apply in_flat_map in Hin. destruct Hin as [[name c] [Hc Hv]].
    unfold direct_call_finding in Hv. cbn [fst snd] in Hv.
    destruct (apiCallsDirectly c) as [[]|] eqn:E;
      [|exfalso; exact Hv|exfalso; exact Hv].
    destruct Hv as [<-|[]]. split; [reflexivity|]. exists c. split; assumption.
  - intros name flag Hf. rewrite check_4_findings by reflexivity.
    cbn [components one_component_graph get_or_empty flat_map].
    unfold direct_call_finding. cbn [snd apiCallsDirectly].
    destruct flag as [[]|]; [congruence|reflexivity|reflexivity].
Qed.

(** The first part at a component that calls the API directly. *)
Lemma check_4_witness :
  In (Violation (txt "Check 4") (txt "FAIL") (txt "PersonCard")
        (txt "Component makes direct API calls instead of using hooks"))
     (violations_of (txt "check_4")
        (check_hook_wrapping
           (one_component_graph (txt "PersonCard") (Component (Some true))) init)).
Proof.
  apply (proj1 check_4_flags_direct_calls
               (one_component_graph (txt "PersonCard") (Component (Some true))) init
               (txt "PersonCard") (Component (Some true))).
  - reflexivity.
  - left. reflexivity.
  - reflexivity.
Defined.

Module OutputFacts.

Lemma stdout_print_each (lines : list str) (st : state) :
  stdout (print_each lines st) = stdout st ++ lines.
Proof.
  unfold print_each. revert st.
  induction lines as [|l lines IH]; intros st; cbn [fold_left].
  - rewrite app_nil_r. reflexivity.
  - rewrite IH. cbn [print stdout]. rewrite <- app_assoc. reflexivity.
Qed.

End OutputFacts.

Import OutputFacts.

(** X25. [_print_results] records nothing.  It prints one line when the
    check found nothing; otherwise a headline, the first ten findings at
    most, and one more line when there are more than ten: never more
    than twelve lines. *)
Theorem print_results_shows_at_most_ten :
  forall check_key check_name st,
    let found := length (violations_of check_key st) in
    let after := _print_results check_key check_name st in
    violations after = violations st
    /\ (exists lines, stdout after = stdout st ++ lines
          /\ length lines
             = if found =? 0 then 1
               else 1 + Nat.min found 10 + (if 10 <? found then 1 else 0))
    /\ length (stdout after) <= length (stdout st) + 12.
Proof.
  intros key name st found after.
  assert (H : exists lines, stdout after = stdout st ++ lines
          /\ length lines
             = if found =? 0 then 1
               else 1 + Nat.min found 10 + (if 10 <? found then 1 else 0)).
  { subst found after. unfold _print_results.
    destruct (violations_of key st) as [|v vs] eqn:E.
    - eexists. split; [reflexivity|reflexivity].
    - set (l := v :: vs) in *.
      assert (Hl : (length l =? 0) = false) by reflexivity. rewrite Hl.
      destruct (10 <? length l) eqn:E10.
      + cbn [print stdout]. rewrite stdout_print_each. cbn [print stdout].
        eexists. rewrite <- !app_assoc. split; [reflexivity|].
        rewrite !length_app, length_map, length_firstn. cbn [length].
        apply Nat.ltb_lt in E10. lia.
      + rewrite stdout_print_each. cbn [print stdout].
        eexists. rewrite <- !app_assoc. split; [reflexivity|].
        rewrite !length_app, length_map, length_firstn. cbn [length].
        apply Nat.ltb_ge in E10. lia. }
  split; [apply violations_print_results|]. split; [exact H|].
  destruct H as (lines & -> & Hl). rewrite length_app, Hl.
  destruct (found =? 0); [lia|]. destruct (10 <? found); lia.
Qed.

Lemma str_in_In (x : str) (l : list str) : str_in x l = true <-> In x l.
Proof.
  unfold str_in. rewrite existsb_exists. split.
  - intros [y [Hy E]]. apply str_eqb_eq in E. subst. exact Hy.
  - intros H. exists x. split; [exact H|apply str_eqb_refl].
Qed.

(** X26. When the order in which a set is iterated arranges the elements
    of the set, a type that [_find_matching_type] returns is one of the
    available types, and it is the DTO name itself or equal, up to the
    case of the letters, to the DTO name without its [Dto] suffix; the
    result is [None] exactly when no available type is one of these.  A
    DTO name that is available is returned itself. *)
Theorem find_matching_type_up_to_case :
  forall set_order,
    arranges set_order ->
    (forall dto_name available t,
       _find_matching_type set_order dto_name available = Some t ->
       In t available
       /\ (t = dto_name \/ lower t = lower (base_name dto_name)))
    /\ (forall dto_name available,
          _find_matching_type set_order dto_name available = None <->
          (forall t, In t available ->
             t <> dto_name /\ lower t <> lower (base_name dto_name)))
    /\ (forall dto_name available,
          In dto_name available ->
          _find_matching_type set_order dto_name available = Some dto_name).
Proof.
  intros set_order Hso. split; [|split].
  - intros d av t H. unfold _find_matching_type in H.
    destruct (str_in d av) eqn:E1.
    + injection H as <-. split; [|left; reflexivity].
      apply str_in_In. exact E1.
    + destruct (endswith (txt "Dto") d && str_in (firstn (length d - 3) d) av) eqn:E2.
      * injection H as <-. apply andb_true_iff in E2. destruct E2 as [Es Ei].
        unfold base_name. rewrite Es. split; [|right; reflexivity].
        apply str_in_In. exact Ei.
      * apply find_some in H. destruct H as [Hin Hl].
        apply str_eqb_eq in Hl. split.
        -- apply Hso. exact Hin.
        -- right. unfold base_name. exact Hl.
  - intros d av. unfold _find_matching_type. split.
    + intros H t Ht.
      destruct (str_in d av) eqn:E1; [discriminate|].
      destruct (endswith (txt "Dto") d && str_in (firstn (length d - 3) d) av) eqn:E2;
        [discriminate|].
      split.
      * intros ->. apply str_in_In in Ht. congruence.
      * intros Hl.
        assert (Hin : In t (set_order av)) by (apply Hso; exact Ht).
        apply (find_none _ _ H) in Hin. unfold base_name in Hl.
        rewrite Hl, str_eqb_refl in Hin. discriminate.
    + intros H.
      destruct (str_in d av) eqn:E1.
      { apply str_in_In in E1. destruct (H d E1) as [Hd _]. congruence. }
      destruct (endswith (txt "Dto") d && str_in (firstn (length d - 3) d) av) eqn:E2.
      { apply andb_true_iff in E2. destruct E2 as [Es Ei]. apply str_in_In in Ei.
        destruct (H _ Ei) as [_ Hl]. unfold base_name in Hl. rewrite Es in Hl.
        congruence. }
      destruct (find _ (set_order av)) as [t|] eqn:Ef; [|reflexivity].
      apply find_some in Ef. destruct Ef as [Hin Hl]. apply str_eqb_eq in Hl.
      apply (proj1 (Hso _ _)) in Hin. destruct (H t Hin) as [_ Hne].
      unfold base_name in Hne.
      congruence.
  - intros d av Hin. unfold _find_matching_type.
    apply str_in_In in Hin. rewrite Hin. reflexivity.
Qed.

(** The first part at [PersonDto] and the types [Group] and [person]. *)
Lemma find_matching_type_witness :
  arranges (fun names => names)
  /\ _find_matching_type (fun names => names) (txt "PersonDto")
       [txt "Group"; txt "person"] = Some (txt "person")
  /\ In (txt "person") [txt "Group"; txt "person"]
  /\ lower (txt "person") = lower (base_name (txt "PersonDto")).
Proof.
  assert (A : arranges (fun names => names)).
  { intros l x. split; intros H; exact H. }
  split; [exact A|]. split; [reflexivity|].
  destruct (proj1 (find_matching_type_up_to_case A) (txt "PersonDto")
                  [txt "Group"; txt "person"] (txt "person") eq_refl) as [Hin Hl].
  split; [exact Hin|]. reflexivity.
Defined.

Module CompareFacts.

Lemma lower_char_idempotent (a : ascii) : lower_char (lower_char a) = lower_char a.
Proof. destruct a as [[] [] [] [] [] [] [] []]; reflexivity. Qed.

(** The camel-case form of a name is the name up to case. *)
Lemma lower_pascal_to_camel_case (name : str) :
  lower (_pascal_to_camel_case name) = lower name.
Proof.
  destruct name as [|a name]; [reflexivity|].
  unfold lower. cbn [_pascal_to_camel_case map]. rewrite lower_char_idempotent.
  reflexivity.
Qed.

Lemma flat_map_nil (A B : Type) (f : A -> list B) (l : list A) :
  flat_map f l = [] <-> forall x, In x l -> f x = [].
Proof.
  induction l as [|a l IH]; cbn [flat_map].
  - split; [intros _ x []|reflexivity].
  - split.
    + intros H x [<-|Hx]; apply app_eq_nil in H; destruct H as [H1 H2];
        [exact H1|apply IH; assumption].
    + intros H. rewrite (H a (or_introl eq_refl)). cbn [app]. apply IH.
      intros x Hx. apply H. right. exact Hx.
Qed.

End CompareFacts.

Import CompareFacts.

(** X27. [_compare_properties] reports nothing exactly when every DTO
    property that it compares (not one of the base properties, not of a
    stream type) has a frontend property of the same name up to the case
    of the letters; each report is about such a property without one.
    The camel-case conversion does not matter for the comparison, which
    is made in lower case. *)
Theorem compare_properties_ignores_case :
  (forall dto_name dto_props type_props,
     _compare_properties dto_name dto_props type_props = [] <->
     (forall prop, In prop dto_props ->
        not_compared prop = true \/ has_property type_props (fst prop) = true))
  /\ (forall dto_name dto_props type_props mismatch,
        In mismatch (_compare_properties dto_name dto_props type_props) ->
        exists prop,
          In prop dto_props /\ not_compared prop = false
          /\ has_property type_props (fst prop) = false
          /\ mismatch
             = txt "Missing property: DTO has " ++ fst prop ++ txt " ("
                 ++ show (snd prop) ++ txt ") but frontend type lacks "
                 ++ _pascal_to_camel_case (fst prop))
  /\ (forall name, lower (_pascal_to_camel_case name) = lower name).
Proof.
  split; [|split; [|exact lower_pascal_to_camel_case]].
  - intros dto_name dto_props type_props. unfold _compare_properties, Dict.items.
    rewrite flat_map_nil. split.
    + intros H prop Hin. specialize (H prop Hin). cbv beta zeta in H.
      unfold not_compared, has_property.
      destruct (str_in (fst prop) _); [left; reflexivity|].
      destruct (value_in (snd prop) _); [left; reflexivity|].
      right. rewrite lower_pascal_to_camel_case in H.
      destruct (existsb _ (Dict.keys type_props)); [reflexivity|discriminate].
    + intros H prop Hin. specialize (H prop Hin). cbv beta zeta.
      unfold not_compared, has_property in H.
      destruct (str_in (fst prop) _); [reflexivity|].
      destruct (value_in (snd prop) _); [reflexivity|].
      rewrite lower_pascal_to_camel_case.
      destruct H as [H|H]; [discriminate|]. rewrite H. reflexivity.
  - intros dto_name dto_props type_props mismatch H.
    unfold _compare_properties, Dict.items in H. apply in_flat_map in H.
    destruct H as [prop [Hin H]]. cbv beta zeta in H.
    exists prop. unfold not_compared, has_property.
    destruct (str_in (fst prop) _); [destruct H|].
    destruct (value_in (snd prop) _); [destruct H|].
    rewrite lower_pascal_to_camel_case in H.
    destruct (existsb _ (Dict.keys type_props)); [destruct H|].
    destruct H as [<-|[]]. repeat split. exact Hin.
Qed.

(** The first part at a DTO with [Id] and [FirstName] and a frontend type
    with [firstname]. *)
Lemma compare_properties_witness :
  _compare_properties (txt "PersonDto")
    [(txt "Id", VStr (txt "int")); (txt "FirstName", VStr (txt "string"))]
    [(txt "firstname", VStr (txt "string"))] = [].
Proof.
  apply (proj2 (proj1 compare_properties_ignores_case (txt "PersonDto")
                  [(txt "Id", VStr (txt "int")); (txt "FirstName", VStr (txt "string"))]
                  [(txt "firstname", VStr (txt "string"))])).
  intros prop [<-|[<-|[]]]; [left|right]; reflexivity.
Defined.

Module AlignmentFacts.

Section Order.

Variable set_order : list str -> list str.

Lemma align_dto_state (types : dict frontend_type) (al : alignment) (kv : str * dto) :
  al_state (align_dto set_order types (Dict.keys types) al kv)
  = record_all (txt "check_5") (alignment_findings set_order types kv) (al_state al).
Proof.
  unfold align_dto, alignment_findings.
  destruct (skipped_dto (fst kv)); [reflexivity|].
  destruct (nonempty _) as [mt|]; [|reflexivity].
  destruct (_compare_properties _ _ _); reflexivity.
Qed.

Lemma align_dtos_state (types : dict frontend_type) (items : list (str * dto)) :
  forall al,
    al_state (fold_left (align_dto set_order types (Dict.keys types)) items al)
    = record_all (txt "check_5")
        (flat_map (alignment_findings set_order types) items) (al_state al).
Proof.
  induction items as [|kv items IH]; intros al; cbn [fold_left flat_map].
  - reflexivity.
  - rewrite IH, align_dto_state, record_all_app. reflexivity.
Qed.

Lemma warn_type_records (dtos : dict dto) (st : state) (type_name : str) :
  warn_type set_order dtos st type_name
  = record_all (txt "check_5") (warning_findings set_order dtos type_name) st.
Proof.
  unfold warn_type, warning_findings.
  destruct (_ || _); [reflexivity|]. destruct (nonempty _); reflexivity.
Qed.

(** Everything check 5 records when the graph has frontend types. *)
Lemma check_5_findings (g : graph) (st : state) :
  Dict.mem (txt "check_5") (violations st) = true ->
  get_or_empty (types g) <> [] ->
  violations_of (txt "check_5") (check_type_alignment set_order g st)
  = violations_of (txt "check_5") st
    ++ flat_map (alignment_findings set_order (get_or_empty (types g)))
                (get_or_empty (dtos g))
    ++ flat_map (warning_findings set_order (get_or_empty (dtos g)))
                (set_order (Dict.keys (get_or_empty (types g)))).
Proof.
  intros Hmem Hne. unfold check_type_alignment.
  destruct (get_or_empty (types g)) as [|t ts]; [congruence|].
  unfold violations_of at 1. rewrite violations_print_results.
  set (st0 := print (dashes 50) (print _ st)).
  set (al := fold_left (align_dto set_order (t :: ts) (Dict.keys (t :: ts)))
                       (Dict.items (get_or_empty (dtos g))) (Alignment st0 [] [])).
  set (stw := fold_left (warn_type set_order (get_or_empty (dtos g)))
                        (set_order (Dict.keys (t :: ts))) (al_state al)).
  assert (E : violations
                (match dtos_without_types al, property_mismatches al with
                 | [], [] => stw
                 | _, _ =>
                     let st1 := print (txt "  [INFO] Type alignment analysis:") stw in
                     let st2 :=
                       print (txt "         DTOs checked: "
                                ++ str_of_nat
                                     (length (get_or_empty (dtos g))
                                      - length (filter skipped_dto
                                                  (Dict.keys (get_or_empty (dtos g))))))
                             st1 in
                     let st3 := print (txt "         Frontend types available: "
                                         ++ str_of_nat (length (t :: ts))) st2 in
                     let st4 :=
                       match dtos_without_types al with
                       | [] => st3
                       | _ :: _ =>
                           print (txt "         DTOs without frontend types: "
                                    ++ str_of_nat (length (dtos_without_types al))) st3
                       end in
                     match property_mismatches al with
                     | [] => st4
                     | _ :: _ =>
                         print (txt "         DTOs with property mismatches: "
                                  ++ str_of_nat (length (property_mismatches al))) st4
                     end
                 end)
              = violations stw).
  { destruct (dtos_without_types al); destruct (property_mismatches al); reflexivity. }
  cbv zeta in E. rewrite E. clear E.
  fold (violations_of (txt "check_5") stw).
  unfold stw.
  rewrite (fold_left_ext _ (fun st x => record_all (txt "check_5")
                                (warning_findings set_order (get_or_empty (dtos g)) x) st))
    by (intros a x; apply warn_type_records).
  rewrite fold_record_all.
  unfold al. rewrite align_dtos_state. cbn [al_state].
  rewrite <- record_all_app.
  rewrite violations_of_record_all by exact Hmem.
  reflexivity.
Qed.

End Order.

Lemma filter_nil (B : Type) (p : B -> bool) (l : list B) :
  (forall y, In y l -> p y = false) -> filter p l = [].
Proof.
  induction l as [|y l IH]; intros H; [reflexivity|]. cbn [filter].
  rewrite (H y (or_introl eq_refl)). apply IH. intros z Hz. apply H. right. exact Hz.
Qed.

Lemma filter_flat_map_nil (A B : Type) (p : B -> bool) (f : A -> list B) (l : list A) :
  (forall x y, In x l -> In y (f x) -> p y = false) -> filter p (flat_map f l) = [].
Proof.
  intros H. apply filter_nil. intros y Hy. apply in_flat_map in Hy.
  destruct Hy as [x [Hx Hy]]. exact (H x y Hx Hy).
Qed.

End AlignmentFacts.

Import AlignmentFacts.

(** X28. Every finding of check 5 is a FAIL about a DTO that is not
    skipped (neither allow-listed nor named [...RequestDto] or
    [...ResponseDto]), or a WARN about a frontend type.  When every DTO of
    the graph is skipped, check 5 adds no FAIL finding. *)
Theorem check_5_fails_only_for_unlisted_dtos :
  (forall set_order g st v,
     Dict.mem (txt "check_5") (violations st) = true ->
     In v (violations_of (txt "check_5") (check_type_alignment set_order g st)) ->
     In v (violations_of (txt "check_5") st)
     \/ (severity v = txt "FAIL"
         /\ exists dto_name d,
              In (dto_name, d) (get_or_empty (dtos g))
              /\ skipped_dto dto_name = false
              /\ (item v = dto_name
                  \/ exists type_name, item v = dto_name ++ txt " ↔ " ++ type_name))
     \/ (severity v = txt "WARN"
         /\ In (item v) (set_order (Dict.keys (get_or_empty (types g))))))
  /\ (forall set_order g st,
        Dict.mem (txt "check_5") (violations st) = true ->
        (forall dto_name d,
           In (dto_name, d) (get_or_empty (dtos g)) -> skipped_dto dto_name = true) ->
        fails_of (txt "check_5") (check_type_alignment set_order g st)
        = fails_of (txt "check_5") st).
Proof.
  split.
  - intros so g st v Hmem Hin.
    destruct (get_or_empty (types g)) as [|t ts] eqn:Et.
    + left. unfold check_type_alignment in Hin. rewrite Et in Hin. exact Hin.
    + rewrite check_5_findings in Hin; [|exact Hmem|rewrite Et; discriminate].
      rewrite Et in Hin.
      apply in_app_or in Hin. destruct Hin as [Hin|Hin]; [left; exact Hin|].
      right. apply in_app_or in Hin. destruct Hin as [Hin|Hin].
      * left. apply in_flat_map in Hin. destruct Hin as [[name d] [Hd Hv]].
        unfold alignment_findings in Hv. cbn [fst snd] in Hv.
        destruct (skipped_dto name) eqn:Es; [destruct Hv|].
        destruct (nonempty _) as [mt|].
        -- apply in_map_iff in Hv. destruct Hv as [mm [<- _]].
           split; [reflexivity|]. exists name, d.
           split; [exact Hd|]. split; [exact Es|]. right. exists mt. reflexivity.
        -- destruct Hv as [<-|[]]. split; [reflexivity|]. exists name, d.
           split; [exact Hd|]. split; [exact Es|]. left. reflexivity.
      * right. apply in_flat_map in Hin. destruct Hin as [tn [Ht Hv]].
        unfold warning_findings in Hv.
        destruct (_ || _); [destruct Hv|].
        destruct (nonempty _); [destruct Hv|].
        destruct Hv as [<-|[]]. split; [reflexivity|exact Ht].
  - intros so g st Hmem Hall. unfold fails_of.
    destruct (get_or_empty (types g)) as [|t ts] eqn:Et.
    + unfold check_type_alignment. rewrite Et. reflexivity.
    + rewrite check_5_findings; [|exact Hmem|rewrite Et; discriminate].
      rewrite !filter_app.
      rewrite (@filter_flat_map_nil _ _ is_fail (alignment_findings so _)).
      * rewrite (@filter_flat_map_nil _ _ is_fail (warning_findings so _)).
        -- rewrite !app_nil_r. reflexivity.
        -- intros x y _ Hy. unfold warning_findings in Hy.
           destruct (_ || _); [destruct Hy|].
           destruct (nonempty _); [destruct Hy|].
           destruct Hy as [<-|[]]. reflexivity.
      * intros [name d] y Hd Hy. unfold alignment_findings in Hy. cbn [fst] in Hy.
        rewrite (Hall _ _ Hd) in Hy. destruct Hy.
Qed.

(** The second part at a graph whose only DTO is allow-listed. *)
Lemma check_5_witness :
  fails_of (txt "check_5")
    (check_type_alignment (fun names => names)
       (Graph (Some []) (Some [(txt "ExportJobDto", Dto None)]) (Some []) (Some [])
              (Some [(txt "Person", FrontendType None)]))
       init)
  = 0.
Proof.
  rewrite (proj2 check_5_fails_only_for_unlisted_dtos (fun names => names)
             (Graph (Some []) (Some [(txt "ExportJobDto", Dto None)]) (Some []) (Some [])
                    (Some [(txt "Person", FrontendType None)]))
             init eq_refl).
  - reflexivity.
  - intros dto_name d [E|[]]. injection E as <- <-. reflexivity.
Defined.

(** X29. The patterns that the generator writes for a controller always
    have the key [response_envelope], so that check 1 records nothing for
    a graph whose controllers carry the patterns of [extract_patterns]. *)
Theorem generated_controllers_pass_check_1 :
  (forall content,
     Dict.mem (txt "response_envelope") (CSharpParser.extract_patterns content) = true)
  /\ (forall g st,
        Dict.mem (txt "check_1") (ContractVerifier.violations st) = true ->
        (forall controller_name c,
           In (controller_name, c)
              (ContractVerifier.get_or_empty (ContractVerifier.controllers g)) ->
           exists content,
             ContractVerifier.patterns c = Some (CSharpParser.extract_patterns content)) ->
        ContractVerifier.violations_of (txt "check_1")
          (ContractVerifier.check_response_envelopes g st)
        = ContractVerifier.violations_of (txt "check_1") st).
Proof.
  split; [reflexivity|].
  intros g st Hmem H. rewrite check_1_findings by exact Hmem.
  replace (flat_map envelope_finding _) with (@nil ContractVerifier.ContractViolation);
    [apply app_nil_r|].
  symmetry. apply flat_map_nil. intros [name c] Hin.
  destruct (H name c Hin) as [content E].
  unfold envelope_finding. cbn [snd]. rewrite E. reflexivity.
Qed.

(** At a controller whose action returns its value directly. *)
Lemma generated_controllers_witness :
  ContractVerifier.violations_of (txt "check_1")
    (ContractVerifier.check_response_envelopes
       (one_controller_graph (txt "PeopleController")
          (ContractVerifier.Controller
             (Some (CSharpParser.extract_patterns (txt "return Ok(person);"))) None))
       ContractVerifier.init)
  = [].
Proof.
  apply (proj2 generated_controllers_pass_check_1
           (one_controller_graph (txt "PeopleController")
              (ContractVerifier.Controller
                 (Some (CSharpParser.extract_patterns (txt "return Ok(person);"))) None))
           ContractVerifier.init eq_refl).
  intros controller_name c [E|[]]. injection E as <- <-.
  exists (txt "return Ok(person);"). reflexivity.
Defined.

